(** * A shallow embedding of [parser.py] (llm-resume-parser)

    The program reads a resume (PDF or DOCX), asks a hosted chat model for
    four sections of structured data and merges the answers into one output
    dictionary that is written out as JSON.

    Conventions of the embedding.
    - A Python [str] is a Stdlib [string], one [ascii] per code point, so the
      code points range over 0..255.
    - A value that [json.loads] may return is a [json]; a Python [dict] is an
      association list in insertion order.  Floating-point numbers are left
      out of the value type.
    - A method of [ResumeManager] is a function from the world before the call
      to an outcome and the world after it; an exception leaves the mutations
      made before it in place, as in Python.
    - The hosted model and the file system are parameters of a run: a
      [service] answers each call, a [files] record gives the content of the
      input file.  What [parser.py] imports from [utils] and from
      [pydantic_models_prompts], which are not in [src/], is the record
      [deps].
    - Elapsed times and the debug and info log lines influence no result and
      are dropped; the warnings are kept. *)

From Stdlib Require Import String Ascii List ZArith NArith Lia Bool Arith.
Import ListNotations.
Open Scope string_scope.

(** ** Python string operations used by the program *)

Module PyStr.

(** [str.isspace] on one code point below 256. *)
Definition isspace (c : ascii) : bool :=
  let n := N_of_ascii c in
  ((9 <=? n) && (n <=? 13) || (28 <=? n) && (n <=? 32)
   || (n =? 133) || (n =? 160))%N.

(** [s.rstrip()]: the trailing white space is removed. *)
Fixpoint rstrip (s : string) : string :=
  match s with
  | EmptyString => EmptyString
  | String c r =>
      match rstrip r with
      | EmptyString => if isspace c then EmptyString else String c EmptyString
      | r' => String c r'
      end
  end.

Definition lower_char (c : ascii) : ascii :=
  let n := N_of_ascii c in
  if ((65 <=? n) && (n <=? 90)
      || (192 <=? n) && (n <=? 222) && negb (n =? 215))%N
  then ascii_of_N (n + 32) else c.

(** [s.lower()]. *)
Fixpoint lower (s : string) : string :=
  match s with
  | EmptyString => EmptyString
  | String c r => String (lower_char c) (lower r)
  end.

(** [s.split(sep)] for a separator of one character. *)
Fixpoint split (sep : ascii) (s : string) : list string :=
  match s with
  | EmptyString => [EmptyString]
  | String c r =>
      if Ascii.eqb c sep then EmptyString :: split sep r
      else match split sep r with
           | h :: t => String c h :: t
           | [] => [String c EmptyString]
           end
  end.

(** [needle in s] for two strings. *)
Fixpoint contains (needle s : string) : bool :=
  prefix needle s
  || match s with
     | EmptyString => false
     | String _ r => contains needle r
     end.

(** [s.rfind(c)], -1 when [c] does not occur. *)
Fixpoint rfind_from (c : ascii) (s : string) (i : Z) (last : Z) : Z :=
  match s with
  | EmptyString => last
  | String d r => rfind_from c r (i + 1) (if Ascii.eqb d c then i else last)
  end.

Definition rfind (c : ascii) (s : string) : Z := rfind_from c s 0 (-1).

(** [s[i:i+1]] for [0 <= i]. *)
Definition char_at (s : string) (i : Z) : string :=
  substring (Z.to_nat i) 1 s.

(** [s[i:]] for [0 <= i]. *)
Definition drop (i : Z) (s : string) : string :=
  substring (Z.to_nat i) (String.length s - Z.to_nat i) s.

(** The loop of [genericpath._splitext] that skips the leading dots of the
    file name: [true] when some character in [filenameIndex, dotIndex) is
    not a dot. *)
Fixpoint has_non_dot (p : string) (filenameIndex : Z) (steps : nat) : bool :=
  match steps with
  | O => false
  | S k =>
      if negb (String.eqb (char_at p filenameIndex) ".") then true
      else has_non_dot p (filenameIndex + 1) k
  end.

(** [os.path.splitext(p)[1]] of [posixpath]. *)
Definition splitext_ext (p : string) : string :=
  let sepIndex := rfind "/"%char p in
  let dotIndex := rfind "."%char p in
  if (sepIndex <? dotIndex)%Z then
    if has_non_dot p (sepIndex + 1) (Z.to_nat (dotIndex - (sepIndex + 1)))
    then drop dotIndex p
    else EmptyString
  else EmptyString.

End PyStr.

(** ** Python dictionaries

    A [dict] keeps its keys in insertion order; assigning to a key that is
    present replaces the value where it stands, assigning to a new key
    appends it. *)

Module Dict.
Section Ops.
Context {V : Type}.

Fixpoint get (k : string) (d : list (string * V)) : option V :=
  match d with
  | [] => None
  | (k', v) :: r => if String.eqb k k' then Some v else get k r
  end.

Fixpoint set (k : string) (v : V) (d : list (string * V))
  : list (string * V) :=
  match d with
  | [] => [(k, v)]
  | (k', v') :: r =>
      if String.eqb k k' then (k', v) :: r else (k', v') :: set k v r
  end.

Definition mem (k : string) (d : list (string * V)) : bool :=
  match get k d with Some _ => true | None => false end.

Definition keys (d : list (string * V)) : list string := map fst d.

(** [dict(pairs)]. *)
Definition of_pairs (pairs : list (string * V)) : list (string * V) :=
  fold_left (fun d kv => set (fst kv) (snd kv) d) pairs [].
End Ops.
End Dict.

(** ** JSON values *)

#[local] Set Warnings "-register-all".

Inductive json : Type :=
| JNull
| JBool (b : bool)
| JInt (n : Z)
| JStr (s : string)
| JArr (items : list json)
| JObj (fields : list (string * json)).

Section JsonInduction.
Variable P : json -> Prop.
Hypothesis HNull : P JNull.
Hypothesis HBool : forall b, P (JBool b).
Hypothesis HInt : forall n, P (JInt n).
Hypothesis HStr : forall s, P (JStr s).
Hypothesis HArr : forall items, Forall P items -> P (JArr items).
Hypothesis HObj :
  forall fields, Forall (fun kv => P (snd kv)) fields -> P (JObj fields).

Fixpoint json_nested_ind (v : json) : P v :=
  match v with
  | JNull => HNull
  | JBool b => HBool b
  | JInt n => HInt n
  | JStr s => HStr s
  | JArr items =>
      HArr items
        ((fix go (l : list json) : Forall P l :=
            match l with
            | [] => Forall_nil _
            | x :: r => Forall_cons _ (json_nested_ind x) (go r)
            end) items)
  | JObj fields =>
      HObj fields
        ((fix go (l : list (string * json))
            : Forall (fun kv => P (snd kv)) l :=
            match l with
            | [] => Forall_nil _
            | kv :: r => Forall_cons _ (json_nested_ind (snd kv)) (go r)
            end) fields)
  end.
End JsonInduction.

(** ** The [json] module: [dumps] with [indent=2] and [loads] *)

Module PyJson.

Definition dquote : ascii := "034"%char.
Definition backslash : ascii := "092"%char.

(** *** Encoder *)

Definition hex_digit (n : N) : ascii :=
  if (n <? 10)%N then ascii_of_N (48 + n) else ascii_of_N (87 + n).

(** The replacement of one character by [encode_basestring_ascii]:
    the table [ESCAPE_DCT], then a four-digit escape for what is not
    printable ASCII. *)
Definition escape_char (c : ascii) : string :=
  let n := N_of_ascii c in
  if (n =? 34)%N then String backslash (String dquote EmptyString)
  else if (n =? 92)%N then String backslash (String backslash EmptyString)
  else if (n =? 8)%N then String backslash "b"
  else if (n =? 12)%N then String backslash "f"
  else if (n =? 10)%N then String backslash "n"
  else if (n =? 13)%N then String backslash "r"
  else if (n =? 9)%N then String backslash "t"
  else if ((32 <=? n) && (n <=? 126))%N then String c EmptyString
  else String backslash
         (String "u" (String "0" (String "0"
            (String (hex_digit (n / 16)) (String (hex_digit (n mod 16))
               EmptyString))))).

Fixpoint escape (s : string) : string :=
  match s with
  | EmptyString => EmptyString
  | String c r => escape_char c ++ escape r
  end.

Definition encode_str (s : string) : string :=
  String dquote (escape s ++ String dquote EmptyString).

Definition digit_char (n : N) : ascii := ascii_of_N (48 + n).

(** Decimal digits of a natural number, most significant first. *)
Fixpoint digits (fuel : nat) (n : N) : string :=
  match fuel with
  | O => EmptyString
  | S f =>
      if (n <? 10)%N then String (digit_char n) EmptyString
      else digits f (n / 10) ++ String (digit_char (n mod 10)) EmptyString
  end.

Definition str_N (n : N) : string := digits (S (N.to_nat (N.log2 n))) n.

(** [int.__repr__]. *)
Definition str_Z (z : Z) : string :=
  match z with
  | Z0 => "0"
  | Zpos p => str_N (Npos p)
  | Zneg p => String "-" (str_N (Npos p))
  end.

Fixpoint spaces (n : nat) : string :=
  match n with
  | O => EmptyString
  | S k => String " " (spaces k)
  end.

(** A line break and the indentation of a nesting level. *)
Definition newline_indent (level : nat) : string :=
  String "010" (spaces (2 * level)).

(** [json.dumps(v, indent=2)] at a nesting level: the item separator is a
    comma and the new line, the key separator a colon and a space. *)
Fixpoint dump (level : nat) (v : json) {struct v} : string :=
  match v with
  | JNull => "null"
  | JBool true => "true"
  | JBool false => "false"
  | JInt n => str_Z n
  | JStr s => encode_str s
  | JArr [] => "[]"
  | JArr (x :: r) =>
      "[" ++ newline_indent (S level) ++ dump (S level) x
      ++ (fix more (l : list json) : string :=
            match l with
            | [] => EmptyString
            | y :: l' =>
                "," ++ newline_indent (S level) ++ dump (S level) y
                ++ more l'
            end) r
      ++ newline_indent level ++ "]"
  | JObj [] => "{}"
  | JObj ((k, x) :: r) =>
      "{" ++ newline_indent (S level) ++ encode_str k ++ ": "
      ++ dump (S level) x
      ++ (fix more (l : list (string * json)) : string :=
            match l with
            | [] => EmptyString
            | (k', y) :: l' =>
                "," ++ newline_indent (S level) ++ encode_str k' ++ ": "
                ++ dump (S level) y ++ more l'
            end) r
      ++ newline_indent level ++ "}"
  end.

Definition dumps (v : json) : string := dump 0 v.

(** *** Decoder *)

(** The white space the decoder skips between tokens. *)
Definition is_ws (c : ascii) : bool :=
  Ascii.eqb c " " || Ascii.eqb c "009" || Ascii.eqb c "010"
  || Ascii.eqb c "013".

Fixpoint skip_ws (s : string) : string :=
  match s with
  | EmptyString => EmptyString
  | String c r => if is_ws c then skip_ws r else s
  end.

Definition is_digit (c : ascii) : bool :=
  let n := N_of_ascii c in ((48 <=? n) && (n <=? 57))%N.

Definition hex_val (c : ascii) : option N :=
  let n := N_of_ascii c in
  if ((48 <=? n) && (n <=? 57))%N then Some (n - 48)%N
  else if ((97 <=? n) && (n <=? 102))%N then Some (n - 87)%N
  else if ((65 <=? n) && (n <=? 70))%N then Some (n - 55)%N
  else None.

(** The table [BACKSLASH] of the decoder. *)
Definition unescape (e : ascii) : option ascii :=
  if Ascii.eqb e dquote then Some dquote
  else if Ascii.eqb e backslash then Some backslash
  else if Ascii.eqb e "/" then Some "/"%char
  else if Ascii.eqb e "b" then Some "008"%char
  else if Ascii.eqb e "f" then Some "012"%char
  else if Ascii.eqb e "n" then Some "010"%char
  else if Ascii.eqb e "r" then Some "013"%char
  else if Ascii.eqb e "t" then Some "009"%char
  else None.

Definition push (c : ascii) (res : option (string * string))
  : option (string * string) :=
  match res with
  | Some (str, rest) => Some (String c str, rest)
  | None => None
  end.

(** [scanstring] from the character after the opening quote: the decoded
    string and what follows the closing quote.  In strict mode a control
    character inside the string is an error.  An escape naming a code point
    above 255 has no value in the model and is refused. *)
Fixpoint scanstring (strict : bool) (s : string)
  : option (string * string) :=
  match s with
  | EmptyString => None
  | String c r =>
      if Ascii.eqb c dquote then Some (EmptyString, r)
      else if Ascii.eqb c backslash then
        match r with
        | EmptyString => None
        | String e r1 =>
            if Ascii.eqb e "u" then
              match r1 with
              | String h1 (String h2 (String h3 (String h4 r2))) =>
                  match hex_val h1, hex_val h2, hex_val h3, hex_val h4 with
                  | Some a, Some b, Some c', Some d =>
                      let n := (((a * 16 + b) * 16 + c') * 16 + d)%N in
                      if (n <? 256)%N
                      then push (ascii_of_N n) (scanstring strict r2)
                      else None
                  | _, _, _, _ => None
                  end
              | _ => None
              end
            else
              match unescape e with
              | Some ch => push ch (scanstring strict r1)
              | None => None
              end
        end
      else if strict && (N_of_ascii c <? 32)%N then None
      else push c (scanstring strict r)
  end.

Fixpoint scan_digits (s : string) (acc : N) : N * string :=
  match s with
  | EmptyString => (acc, s)
  | String c r =>
      if is_digit c then scan_digits r (acc * 10 + (N_of_ascii c - 48))%N
      else (acc, s)
  end.

(** The integer part of [NUMBER_RE]: a lone zero, or a non-zero digit and
    the digits after it. *)
Definition scan_nat (s : string) : option (N * string) :=
  match s with
  | EmptyString => None
  | String c r =>
      if Ascii.eqb c "0" then Some (0%N, r)
      else if is_digit c then Some (scan_digits s 0%N)
      else None
  end.

(** What follows the integer part opens a fraction or an exponent, or is an
    error wherever a value may stand. *)
Definition float_follows (s : string) : bool :=
  match s with
  | EmptyString => false
  | String c _ => Ascii.eqb c "." || Ascii.eqb c "e" || Ascii.eqb c "E"
  end.

Definition scan_number (s : string) : option (json * string) :=
  match s with
  | EmptyString => None
  | String c r =>
      if Ascii.eqb c "-" then
        match scan_nat r with
        | Some (n, r') =>
            if float_follows r' then None
            else Some (JInt (- Z.of_N n), r')
        | None => None
        end
      else
        match scan_nat s with
        | Some (n, r') =>
            if float_follows r' then None else Some (JInt (Z.of_N n), r')
        | None => None
        end
  end.

(** [s] without the prefix [p], when it starts with it. *)
Fixpoint strip_prefix (p s : string) : option string :=
  match p with
  | EmptyString => Some s
  | String a p' =>
      match s with
      | EmptyString => None
      | String b s' => if Ascii.eqb a b then strip_prefix p' s' else None
      end
  end.

Definition literal (word : string) (v : json) (s : string)
  : option (json * string) :=
  match strip_prefix word s with
  | Some r => Some (v, r)
  | None => None
  end.

(** [scan_once], [JSONArray] and [JSONObject].  [parse_items] starts at a
    value of an array, [parse_members] after the opening quote of a key. *)
Fixpoint parse_value (fuel : nat) (strict : bool) (s : string)
  {struct fuel} : option (json * string) :=
  match fuel with
  | O => None
  | S f =>
      match s with
      | EmptyString => None
      | String c r =>
          if Ascii.eqb c dquote then
            match scanstring strict r with
            | Some (str, r') => Some (JStr str, r')
            | None => None
            end
          else if Ascii.eqb c "{" then
            match skip_ws r with
            | EmptyString => None
            | String c1 r2 =>
                if Ascii.eqb c1 "}" then Some (JObj [], r2)
                else if Ascii.eqb c1 dquote
                     then parse_members f strict r2 []
                     else None
            end
          else if Ascii.eqb c "[" then
            match skip_ws r with
            | EmptyString => None
            | String c1 r2 =>
                if Ascii.eqb c1 "]" then Some (JArr [], r2)
                else parse_items f strict (String c1 r2) []
            end
          else if Ascii.eqb c "n" then literal "ull" JNull r
          else if Ascii.eqb c "t" then literal "rue" (JBool true) r
          else if Ascii.eqb c "f" then literal "alse" (JBool false) r
          else scan_number s
      end
  end

with parse_items (fuel : nat) (strict : bool) (s : string)
       (values : list json) {struct fuel} : option (json * string) :=
  match fuel with
  | O => None
  | S f =>
      match parse_value f strict s with
      | None => None
      | Some (v, r) =>
          match skip_ws r with
          | EmptyString => None
          | String c r1 =>
              if Ascii.eqb c "]" then Some (JArr (values ++ [v]), r1)
              else if Ascii.eqb c ","
                   then parse_items f strict (skip_ws r1) (values ++ [v])
                   else None
          end
      end
  end

with parse_members (fuel : nat) (strict : bool) (s : string)
       (pairs : list (string * json)) {struct fuel}
  : option (json * string) :=
  match fuel with
  | O => None
  | S f =>
      match scanstring strict s with
      | None => None
      | Some (key, r) =>
          match skip_ws r with
          | EmptyString => None
          | String c r1 =>
              if Ascii.eqb c ":" then
                match parse_value f strict (skip_ws r1) with
                | None => None
                | Some (v, r2) =>
                    match skip_ws r2 with
                    | EmptyString => None
                    | String c2 r3 =>
                        if Ascii.eqb c2 "}" then
                          Some (JObj (Dict.of_pairs (pairs ++ [(key, v)])),
                                r3)
                        else if Ascii.eqb c2 "," then
                          match skip_ws r3 with
                          | EmptyString => None
                          | String q r4 =>
                              if Ascii.eqb q dquote
                              then parse_members f strict r4
                                     (pairs ++ [(key, v)])
                              else None
                          end
                        else None
                    end
                end
              else None
          end
      end
  end.

(** [json.loads(s, strict=strict)]: one value, white space around it and
    nothing else.  [None] stands for [JSONDecodeError].  The fuel is more
    than the decoder can use on a text of this length. *)
Definition loads (strict : bool) (s : string) : option json :=
  match parse_value (2 * String.length s + 2) strict (skip_ws s) with
  | Some (v, r) =>
      match skip_ws r with
      | EmptyString => Some v
      | String _ _ => None
      end
  | None => None
  end.

End PyJson.

Import PyJson.

(** ** Auxiliary notions for the JSON round trip *)

(** The text starts with a decimal digit. *)
Definition starts_with_digit (s : string) : bool :=
  match s with
  | EmptyString => false
  | String c _ => is_digit c
  end.

(** What may follow the text of a number without changing how it reads. *)
Definition follow_ok (rest : string) : bool :=
  negb (starts_with_digit rest) && negb (float_follows rest).

(** The characters that the text of a value may start with. *)
Definition value_start (c : ascii) : bool :=
  is_digit c || Ascii.eqb c "-" || Ascii.eqb c dquote || Ascii.eqb c "{"
  || Ascii.eqb c "[" || Ascii.eqb c "n" || Ascii.eqb c "t"
  || Ascii.eqb c "f".

(** The items of a list after the first, as [dump] prints them. *)
Definition more_items (level : nat) : list json -> string :=
  fix more (l : list json) : string :=
    match l with
    | [] => EmptyString
    | y :: l' =>
        "," ++ newline_indent (S level) ++ dump (S level) y ++ more l'
    end.

(** The fields of a dictionary after the first, as [dump] prints them. *)
Definition more_fields (level : nat) : list (string * json) -> string :=
  fix more (l : list (string * json)) : string :=
    match l with
    | [] => EmptyString
    | (k, y) :: l' =>
        "," ++ newline_indent (S level) ++ encode_str k ++ ": "
        ++ dump (S level) y ++ more l'
    end.

(** No string occurs twice. *)
Fixpoint distinct (l : list string) : bool :=
  match l with
  | [] => true
  | k :: r => negb (existsb (String.eqb k) r) && distinct r
  end.

(** Every dictionary inside the value has distinct keys, as every Python
    [dict] has. *)
Fixpoint unique_keys (v : json) : bool :=
  match v with
  | JArr items => forallb unique_keys items
  | JObj fields =>
      distinct (map fst fields)
      && forallb (fun kv => unique_keys (snd kv)) fields
  | _ => true
  end.

(** The fuel that decoding the text of a value takes at most. *)
Fixpoint size (v : json) : nat :=
  match v with
  | JArr items => S (fold_right (fun x n => S (size x + n)) 0 items)
  | JObj fields => S (fold_right (fun kv n => S (size (snd kv) + n)) 0 fields)
  | _ => 1
  end.

(** The same for the items of a list and for the fields of a dictionary. *)
Definition size_items (l : list json) : nat :=
  fold_right (fun x n => S (size x + n)) 0 l.

Definition size_fields (l : list (string * json)) : nat :=
  fold_right (fun kv n => S (size (snd kv) + n)) 0 l.

(** Decoding the text of [v], whatever follows it. *)
Definition reads_back (strict : bool) (v : json) : Prop :=
  forall level f rest,
    unique_keys v = true -> follow_ok rest = true -> size v <= f ->
    parse_value f strict (dump level v ++ rest) = Some (v, rest).

(** ** Exceptions, the model service and the world of a run *)

(** The exceptions that a run may meet. *)
Inductive exn : Type :=
| APITimeoutError              (* openai.APITimeoutError *)
| APIError (msg : string)      (* any other failure of the model service *)
| JSONDecodeError
| KeyError (key : string)
| TypeError
| AttributeError
| IndexError
| IOError (msg : string)       (* a file that cannot be read or written *)
| SystemExit (msg : string).   (* sys.exit(msg) *)

(** How a call ends: with a value or with an exception. *)
Inductive outcome (A : Type) : Type :=
| Return (a : A)
| Raise (e : exn).
Arguments Return {A} a.
Arguments Raise {A} e.

(** The schemas handed to the extraction chain. *)
Inductive schema : Type := Education | WorkExperience.

(** One call to the hosted model. *)
Inductive request : Type :=
| ChatCompletion (model query : string) (json_mode : bool)
| ExtractionChain (model : string) (target : schema) (input : string).

(** The hosted model.  A reply may depend on the request and on how many
    calls were made before it; an extracted object is given by the JSON value
    that its [json()] text denotes. *)
Record service : Type := mkService {
  chat : nat -> string -> bool -> outcome string;
  chain : nat -> schema -> string -> outcome (list json);
  chat_model : string -> outcome unit   (* constructing ChatOpenAI(model) *)
}.

(** The methods of [ResumeManager] whose invocations are traced. *)
Inductive proc : Type :=
| ExtractBasicInfo
| ExtractWorkExperience
| FallbackExtractWorkExperience
| ExtractSkills
| FallbackExtractSkills
| ExtractEducation
| FallbackExtractEducation.

(** Ghost events: a method is entered, a method is left with its outcome. *)
Inductive event : Type :=
| Enter (p : proc)
| Leave (p : proc) (r : outcome unit).

(** [self] and what the run has done so far.  [trace] is ghost state: it
    records the invocations of the methods and is read by no method. *)
Record world : Type := mkWorld {
  output : list (string * json);   (* self.output *)
  resume : string;                 (* self.resume *)
  model_name : string;             (* self.model_name *)
  calls : list request;            (* the requests sent, oldest first *)
  warnings : list string;          (* logger.warning lines, oldest first *)
  trace : list event
}.

(** The world with another output, with one more request, one more warning,
    one more event. *)
Definition set_output (o : list (string * json)) (w : world) : world :=
  mkWorld o (resume w) (model_name w) (calls w) (warnings w) (trace w).

Definition add_call (rq : request) (w : world) : world :=
  mkWorld (output w) (resume w) (model_name w) (calls w ++ [rq])
          (warnings w) (trace w).

Definition add_warning (msg : string) (w : world) : world :=
  mkWorld (output w) (resume w) (model_name w) (calls w)
          (warnings w ++ [msg]) (trace w).

Definition add_event (ev : event) (w : world) : world :=
  mkWorld (output w) (resume w) (model_name w) (calls w) (warnings w)
          (trace w ++ [ev]).

(** ** Computations that mutate the world and may raise *)

(** A computation: from the world before it to its outcome and the world
    after it. *)
Definition M (A : Type) : Type := world -> outcome A * world.

Definition ret {A : Type} (a : A) : M A := fun w => (Return a, w).

Definition raise {A : Type} (e : exn) : M A := fun w => (Raise e, w).

(** Sequencing: an exception skips what follows and keeps the world in
    which it was raised. *)
Definition bind {A B : Type} (m : M A) (k : A -> M B) : M B :=
  fun w =>
    match m w with
    | (Return a, w') => k a w'
    | (Raise e, w') => (Raise e, w')
    end.

(** An expression that reads no state. *)
Definition lift {A : Type} (r : outcome A) : M A := fun w => (r, w).

(** [try: body except <handles>: handler]. *)
Definition try_except {A : Type} (body : M A) (handles : exn -> bool)
  (handler : M A) : M A :=
  fun w =>
    match body w with
    | (Return a, w') => (Return a, w')
    | (Raise e, w') => if handles e then handler w' else (Raise e, w')
    end.

Declare Scope py_scope.
Delimit Scope py_scope with py.
Notation "x <- m ;; k" := (bind m (fun x => k))
  (at level 61, m at next level, right associativity) : py_scope.
Notation "m ;; k" := (bind m (fun _ => k))
  (at level 61, right associativity) : py_scope.
Open Scope py_scope.

(** [except openai.APITimeoutError] and [except KeyError]. *)
Definition is_timeout (e : exn) : bool :=
  match e with APITimeoutError => true | _ => false end.

Definition is_key_error (e : exn) : bool :=
  match e with KeyError _ => true | _ => false end.

(** A traced method: its entry and its outcome are appended to the trace. *)
Definition method (p : proc) (body : M unit) : M unit :=
  fun w =>
    let (r, w') := body (add_event (Enter p) w) in
    (r, add_event (Leave p r) w').

(** [for x in xs: body(x)]. *)
Fixpoint for_each {A : Type} (xs : list A) (body : A -> M unit) : M unit :=
  match xs with
  | [] => ret tt
  | x :: r => body x ;; for_each r body
  end.

(** ** Subscripting and membership on JSON values *)

(** [v[k]] for a string [k]. *)
Definition getitem (v : json) (k : string) : outcome json :=
  match v with
  | JObj d =>
      match Dict.get k d with
      | Some x => Return x
      | None => Raise (KeyError k)
      end
  | _ => Raise TypeError
  end.

(** [k in v] for a string [k]. *)
Definition contains_key (k : string) (v : json) : outcome bool :=
  match v with
  | JObj d => Return (Dict.mem k d)
  | JArr l =>
      Return (existsb (fun x => match x with
                                | JStr s => String.eqb s k
                                | _ => false
                                end) l)
  | JStr s => Return (PyStr.contains k s)
  | _ => Raise TypeError
  end.

(** [v[k] = x] for a string [k]: the container after the assignment. *)
Definition setitem (v : json) (k : string) (x : json) : outcome json :=
  match v with
  | JObj d => Return (JObj (Dict.set k x d))
  | _ => Raise TypeError
  end.

(** [v.append(x)]. *)
Definition py_append (v : json) (x : json) : outcome json :=
  match v with
  | JArr l => Return (JArr (l ++ [x]))
  | _ => Raise AttributeError
  end.

(** [json.loads(text, strict=strict)]. *)
Definition json_loads (strict : bool) (text : string) : M json :=
  match PyJson.loads strict text with
  | Some v => ret v
  | None => raise JSONDecodeError
  end.

(** [self.output[k] = v]. *)
Definition output_set (k : string) (v : json) : M unit :=
  fun w => (Return tt, set_output (Dict.set k v (output w)) w).

(** [self.output[k]]. *)
Definition output_get (k : string) : M json :=
  fun w => (getitem (JObj (output w)) k, w).

(** [self.output[k][k2] = v]; the right-hand side is evaluated before. *)
Definition output_set2 (k k2 : string) (v : json) : M unit :=
  inner <- output_get k ;;
  inner' <- lift (setitem inner k2 v) ;;
  output_set k inner'.

(** [self.output[k].append(v)]. *)
Definition output_append (k : string) (v : json) : M unit :=
  inner <- output_get k ;;
  inner' <- lift (py_append inner v) ;;
  output_set k inner'.

(** [logger.warning(msg)]. *)
Definition warning (msg : string) : M unit :=
  fun w => (Return tt, add_warning msg w).

(** ** What the program imports from modules that are not part of [src/] *)

(** The prompt templates of [pydantic_models_prompts], each applied to the
    keyword arguments of its [format] call, the two extractors and the output
    template of [utils]. *)
Record deps : Type := mkDeps {
  basic_details_prompt : string -> string;          (* resume *)
  skills_prompt : string -> string;                 (* resume *)
  fallback_education_prompt : string -> string;     (* resume *)
  companies_prompt : string -> string;              (* resume *)
  work_experience_prompt : string -> string -> string -> string;
                                                    (* resume, role, company *)
  extract_emails : string -> json;
  extract_github_and_linkedin_urls : string -> json;
  output_template : list (string * json)
}.

(** The file system: the extracted text of each page of a PDF file, the
    text of each paragraph of a DOCX file, [Path(p).stem], and whether a path
    can be opened for writing. *)
Record files : Type := mkFiles {
  pdf_pages : string -> outcome (list string);
  docx_paragraphs : string -> outcome (list string);
  path_stem : string -> string;
  open_w : string -> outcome unit
}.

(** Modelled from the spec: [utils.output_template] is not part of [src/].
    The spec's data model lists the fields of the output record (candidate
    name, job title, bio, contact info with location, phone, email list and
    personal URL list, skills list, professional-development list, other-info
    field, education list, work-experience list), all initialised to empty
    values; the key names are the ones [parser.py] subscripts. *)
Definition spec_output_template : list (string * json) :=
  [ ("candidate_name", JStr EmptyString);
    ("job_title", JStr EmptyString);
    ("bio", JStr EmptyString);
    ("contact_info",
      JObj [ ("location", JStr EmptyString);
             ("phone_number", JStr EmptyString);
             ("email_address", JArr []);
             ("personal_urls", JArr []) ]);
    ("skills", JArr []);
    ("professional_development", JArr []);
    ("other_info", JArr []);
    ("education", JArr []);
    ("work_output", JArr []) ].

(** ** [parser.py] *)

Section ResumeManager.

Variable D : deps.
Variable svc : service.
Variable fs : files.

(** The string of one line feed. *)
Definition newline : string := String "010" EmptyString.

(** Lines 179 and 180: the extension given, or the one of the path when
    none or an empty one is given. *)
Definition effective_extension (file : string) (extension : option string)
  : string :=
  match extension with
  | None => PyStr.splitext_ext file
  | Some EmptyString => PyStr.splitext_ext file
  | Some e => e
  end.

(** Lines 187 to 190: one line of a page. *)
Definition add_pdf_line (content line : string) : string :=
  let line := PyStr.rstrip line in
  if String.eqb line EmptyString then content
  else (content ++ line) ++ newline.

(** Lines 185 and 186: one page. *)
Definition add_pdf_page (content text : string) : string :=
  fold_left add_pdf_line (PyStr.split "010" text) content.

(** Line 195: one paragraph. *)
Definition add_paragraph (content text : string) : string :=
  content ++ (text ++ newline).

(** [get_resume_content(file, extension=None)], lines 178 to 199. *)
Definition get_resume_content (file : string) (extension : option string)
  : outcome string :=
  let extension := effective_extension file extension in
  if String.eqb extension ".pdf" then
    match pdf_pages fs file with
    | Raise e => Raise e
    | Return pages => Return (fold_left add_pdf_page pages EmptyString)
    end
  else if String.eqb extension ".docx" || String.eqb extension ".doc" then
    match docx_paragraphs fs file with
    | Raise e => Raise e
    | Return paragraphs =>
        Return (fold_left add_paragraph paragraphs EmptyString)
    end
  else Raise (SystemExit ("Unsupported file type " ++ extension)).

(** [ResumeManager.__init__]: the output is a copy of the template, the
    resume is loaded, then the chat model is constructed; nothing has been
    sent or logged yet.  [self.companies] is never used again and is left
    out. *)
Definition init (resume_f model : string) (extension : option string)
  : outcome world :=
  match get_resume_content resume_f extension with
  | Raise e => Raise e
  | Return content =>
      match chat_model svc model with
      | Raise e => Raise e
      | Return _ =>
          Return (mkWorld (output_template D) content model [] [] [])
      end
  end.

(** [extract_pydantic(target)]: one call of the extraction chain on the
    resume. *)
Definition extract_pydantic (target : schema) : M (list json) :=
  fun w =>
    (chain svc (List.length (calls w)) target (resume w),
     add_call (ExtractionChain (model_name w) target (resume w)) w).

(** [query_model(query, json_mode)]: one chat completion. *)
Definition query_model (query : string) (json_mode : bool) : M string :=
  fun w =>
    (chat svc (List.length (calls w)) query json_mode,
     add_call (ChatCompletion (model_name w) query json_mode) w).

(** [self.resume]. *)
Definition get_resume : M string := fun w => (Return (resume w), w).

(** Lines 103 to 108: the three primary keys, in one [try] block. *)
Definition merge_primary_keys (out : json) : M unit :=
  try_except
    (v <- lift (getitem out "name") ;;
     output_set "candidate_name" v ;;
     v <- lift (getitem out "job_title") ;;
     output_set "job_title" v ;;
     v <- lift (getitem out "bio") ;;
     output_set "bio" v)
    is_key_error
    (ret tt).

(** Lines 110 to 116: the contact info. *)
Definition merge_contact_info (out : json) (text : string) : M unit :=
  has_location <- lift (contains_key "location" out) ;;
  (if has_location : bool then
     v <- lift (getitem out "location") ;;
     output_set2 "contact_info" "location" v
   else ret tt) ;;
  has_phone <- lift (contains_key "phone" out) ;;
  (if has_phone : bool then
     v <- lift (getitem out "phone") ;;
     output_set2 "contact_info" "phone_number" v
   else ret tt) ;;
  output_set2 "contact_info" "email_address" (extract_emails D text) ;;
  output_set2 "contact_info" "personal_urls"
    (extract_github_and_linkedin_urls D text).

(** [extract_basic_info], lines 96 to 116. *)
Definition extract_basic_info_body : M unit :=
  text <- get_resume ;;
  out <- query_model (basic_details_prompt D text) true ;;
  out <- json_loads true out ;;
  merge_primary_keys out ;;
  merge_contact_info out text.

(** The method with its entry and its outcome traced; the same for the six
    methods below. *)
Definition extract_basic_info : M unit :=
  method ExtractBasicInfo extract_basic_info_body.

(** [extract_skills], lines 118 to 129. *)
Definition extract_skills_body : M unit :=
  text <- get_resume ;;
  out <- query_model (skills_prompt D text) true ;;
  out <- json_loads true out ;;
  v <- lift (getitem out "skills") ;;
  output_set "skills" v ;;
  has_pd <- lift (contains_key "professional_development" out) ;;
  (if has_pd : bool then
     v <- lift (getitem out "professional_development") ;;
     output_set "professional_development" v
   else ret tt) ;;
  has_other <- lift (contains_key "other" out) ;;
  (if has_other : bool then
     v <- lift (getitem out "other") ;;
     output_set "other_info" v
   else ret tt).

Definition extract_skills : M unit :=
  method ExtractSkills extract_skills_body.

(** The indentation of the lines of the prompt in the source. *)
Definition indent8 : string := "        ".

(** The f-string of lines 132 to 135. *)
Definition fallback_skills_query (text : string) : string :=
  newline ++ indent8 ++ "What are the skills in this resume ?" ++ newline
  ++ "RESUME:" ++ newline ++ text ++ newline ++ newline
  ++ indent8 ++ "Answer with a comma separated list." ++ newline
  ++ indent8.

(** [fallback_extract_skills], lines 131 to 137. *)
Definition fallback_extract_skills_body : M unit :=
  text <- get_resume ;;
  out <- query_model (fallback_skills_query text) false ;;
  output_set "skills" (JStr out).

Definition fallback_extract_skills : M unit :=
  method FallbackExtractSkills fallback_extract_skills_body.

(** [extract_education], lines 139 to 143. *)
Definition extract_education_body : M unit :=
  out <- extract_pydantic Education ;;
  output_set "education" (JArr out).

Definition extract_education : M unit :=
  method ExtractEducation extract_education_body.

(** [fallback_extract_education], lines 145 to 148. *)
Definition fallback_extract_education_body : M unit :=
  text <- get_resume ;;
  out <- query_model (fallback_education_prompt D text) false ;;
  output_set "education" (JStr out).

Definition fallback_extract_education : M unit :=
  method FallbackExtractEducation fallback_extract_education_body.

(** [extract_work_experience], lines 150 to 154. *)
Definition extract_work_experience_body : M unit :=
  out <- extract_pydantic WorkExperience ;;
  output_set "work_output" (JArr out).

Definition extract_work_experience : M unit :=
  method ExtractWorkExperience extract_work_experience_body.

(** The body of the loop of [fallback_extract_work_experience], lines 161
    to 175. *)
Definition work_experience_line (text line : string) : M unit :=
  if PyStr.contains "answer" (PyStr.lower line) then ret tt
  else
    match PyStr.split "," line with
    | [] => raise IndexError
    | entry0 :: rest =>
        let company_name := PyStr.rstrip entry0 in
        if String.eqb company_name EmptyString then ret tt
        else
          let role := match rest with
                      | entry1 :: _ => PyStr.rstrip entry1
                      | [] => EmptyString
                      end in
          out <- query_model
                   (work_experience_prompt D text role company_name) true ;;
          parsed_output <- json_loads false out ;;
          output_append "work_output" parsed_output
    end.

(** [fallback_extract_work_experience], lines 156 to 175. *)
Definition fallback_extract_work_experience_body : M unit :=
  text <- get_resume ;;
  out <- query_model (companies_prompt D text) false ;;
  for_each (PyStr.split "010" out) (work_experience_line text).

Definition fallback_extract_work_experience : M unit :=
  method FallbackExtractWorkExperience fallback_extract_work_experience_body.

(** [process_file], lines 41 to 59. *)
Definition process_file : M unit :=
  extract_basic_info ;;
  try_except extract_work_experience is_timeout
    (warning "Work extraction timed out" ;;
     fallback_extract_work_experience) ;;
  try_except extract_skills is_timeout
    (warning "Skills extraction timed out" ;;
     fallback_extract_skills) ;;
  try_except extract_education is_timeout
    (warning "Education extraction timed out" ;;
     fallback_extract_education).

(** The script: what a run leaves behind. *)
Record run : Type := mkRun {
  status : outcome unit;            (* how the process ends *)
  sent : list request;              (* the requests sent to the model *)
  written : list (string * string); (* files written: path, content *)
  stdout : list string              (* what [print] wrote *)
}.

(** Lines 214 and 215. *)
Definition output_file_path (file_path : string) : string :=
  "parsed_outputs/" ++ path_stem fs file_path ++ "_output.json".

(** The script, lines 202 to 219, once the arguments are parsed. *)
Definition main (file_path model : string) : run :=
  match init file_path model None with
  | Raise e => mkRun (Raise e) [] [] []
  | Return w0 =>
      match process_file w0 with
      | (Raise e, w) => mkRun (Raise e) (calls w) [] []
      | (Return _, w) =>
          let path := output_file_path file_path in
          match open_w fs path with
          | Raise e => mkRun (Raise e) (calls w) [] []
          | Return _ =>
              let text := PyJson.dumps (JObj (output w)) in
              mkRun (Return tt) (calls w) [(path, text)] [text]
          end
      end
  end.

(** The exit status of the process and what it writes to standard error
    when an exception reaches the top: [SystemExit] with a string prints
    the string and exits with 1, any other exception exits with 1 as
    well (its traceback is not modelled). *)
Definition exit_status (r : outcome unit) : Z :=
  match r with
  | Return _ => 0
  | Raise _ => 1
  end.

(** The message of the exit, when the run ends with [sys.exit]. *)
Definition exit_message (r : outcome unit) : option string :=
  match r with
  | Raise (SystemExit msg) => Some msg
  | _ => None
  end.

End ResumeManager.

(** ** Notions the statements use *)

(** The concatenation of a list of strings. *)
Definition join (l : list string) : string :=
  fold_right String.append EmptyString l.

(** The lines of a page that the loader keeps: right-trimmed and not
    empty. *)
Definition kept_lines (text : string) : list string :=
  filter (fun line => negb (String.eqb line EmptyString))
         (map PyStr.rstrip (PyStr.split "010" text)).

(** A line or a paragraph, followed by one newline. *)
Definition with_newline (line : string) : string := line ++ newline.

(** What the loader keeps of one page. *)
Definition page_text (text : string) : string :=
  join (map with_newline (kept_lines text)).

(** The extension is none of the three the loader dispatches on. *)
Definition unsupported (ext : string) : Prop :=
  ext <> ".pdf" /\ ext <> ".docx" /\ ext <> ".doc".

(** The top-level keys of the output that each method assigns. *)
Definition writes (p : proc) : list string :=
  match p with
  | ExtractBasicInfo => ["candidate_name"; "job_title"; "bio"; "contact_info"]
  | ExtractWorkExperience | FallbackExtractWorkExperience => ["work_output"]
  | ExtractSkills => ["skills"; "professional_development"; "other_info"]
  | FallbackExtractSkills => ["skills"]
  | ExtractEducation | FallbackExtractEducation => ["education"]
  end.

(** Every top-level key that some method assigns. *)
Definition written_keys : list string :=
  ["candidate_name"; "job_title"; "bio"; "contact_info"; "skills";
   "professional_development"; "other_info"; "education"; "work_output"].

(** The body of the method a name stands for. *)
Definition body_of (D : deps) (svc : service) (p : proc) : M unit :=
  match p with
  | ExtractBasicInfo => extract_basic_info_body D svc
  | ExtractWorkExperience => extract_work_experience_body svc
  | FallbackExtractWorkExperience => fallback_extract_work_experience_body D svc
  | ExtractSkills => extract_skills_body D svc
  | FallbackExtractSkills => fallback_extract_skills_body svc
  | ExtractEducation => extract_education_body svc
  | FallbackExtractEducation => fallback_extract_education_body D svc
  end.

(** The traced method a name stands for. *)
Definition invoke (D : deps) (svc : service) (p : proc) : M unit :=
  match p with
  | ExtractBasicInfo => extract_basic_info D svc
  | ExtractWorkExperience => extract_work_experience svc
  | FallbackExtractWorkExperience => fallback_extract_work_experience D svc
  | ExtractSkills => extract_skills D svc
  | FallbackExtractSkills => fallback_extract_skills svc
  | ExtractEducation => extract_education svc
  | FallbackExtractEducation => fallback_extract_education D svc
  end.

(** A computation leaves every world related by [R] to the world it
    started from. *)
Definition keeps (R : world -> world -> Prop) {A : Type} (m : M A)
  : Prop :=
  forall w, R w (snd (m w)).

(** The keys of the output, when every assigned key is there already. *)
Definition same_keys (W : string -> Prop) (w w' : world) : Prop :=
  (forall k, W k -> In k (Dict.keys (output w))) ->
  Dict.keys (output w') = Dict.keys (output w).

(** The values under the keys that are not assigned. *)
Definition same_elsewhere (W : string -> Prop) (w w' : world) : Prop :=
  forall k, ~ W k -> Dict.get k (output w') = Dict.get k (output w).

(** Equality of method names. *)
Definition proc_eqb (p q : proc) : bool :=
  match p, q with
  | ExtractBasicInfo, ExtractBasicInfo
  | ExtractWorkExperience, ExtractWorkExperience
  | FallbackExtractWorkExperience, FallbackExtractWorkExperience
  | ExtractSkills, ExtractSkills
  | FallbackExtractSkills, FallbackExtractSkills
  | ExtractEducation, ExtractEducation
  | FallbackExtractEducation, FallbackExtractEducation => true
  | _, _ => false
  end.

(** The fallback procedure of a primary attempt, when it has one. *)
Definition fallback_of (p : proc) : option proc :=
  match p with
  | ExtractWorkExperience => Some FallbackExtractWorkExperience
  | ExtractSkills => Some FallbackExtractSkills
  | ExtractEducation => Some FallbackExtractEducation
  | _ => None
  end.

(** The method is the primary attempt of a section. *)
Definition is_primary (p : proc) : bool :=
  match p with
  | ExtractBasicInfo | ExtractWorkExperience | ExtractSkills
  | ExtractEducation => true
  | _ => false
  end.

(** The primary attempts of the four sections, in the order of the run. *)
Definition primaries : list proc :=
  [ExtractBasicInfo; ExtractWorkExperience; ExtractSkills; ExtractEducation].

(** Every method, each fallback after its primary attempt. *)
Definition schedule : list proc :=
  [ExtractBasicInfo;
   ExtractWorkExperience; FallbackExtractWorkExperience;
   ExtractSkills; FallbackExtractSkills;
   ExtractEducation; FallbackExtractEducation].

(** The methods entered, in order. *)
Fixpoint entered (t : list event) : list proc :=
  match t with
  | [] => []
  | Enter p :: r => p :: entered r
  | Leave _ _ :: r => entered r
  end.

(** How many times a method is entered. *)
Definition invocations (p : proc) (t : list event) : nat :=
  List.length (filter (proc_eqb p) (entered t)).

(** [a] is [b] with some elements left out. *)
Fixpoint subsequence (a b : list proc) : bool :=
  match a, b with
  | [], _ => true
  | _ :: _, [] => false
  | x :: a', y :: b' =>
      if proc_eqb x y then subsequence a' b' else subsequence a b'
  end.

(** [b] starts with [a]. *)
Fixpoint is_prefix (a b : list proc) : bool :=
  match a, b with
  | [], _ => true
  | x :: a', y :: b' => proc_eqb x y && is_prefix a' b'
  | _ :: _, [] => false
  end.

(** What the trace [t] of a run with outcome [r] satisfies: the order of the
    methods, when a fallback is entered, and which exceptions end the
    run. *)
Definition schedule_property (r : outcome unit) (t : list event) : Prop :=
  subsequence (entered t) schedule = true
  /\ is_prefix (filter is_primary (entered t)) primaries = true
  /\ (r = Return tt -> filter is_primary (entered t) = primaries)
  /\ (forall p f, fallback_of p = Some f ->
        (In (Enter f) t <-> In (Leave p (Raise APITimeoutError)) t)
        /\ invocations f t <= 1
        /\ (In (Enter f) t -> invocations f t = 1))
  /\ (forall p e, In (Leave p (Raise e)) t ->
        fallback_of p = None \/ is_timeout e = false ->
        r = Raise e /\ last t (Enter p) = Leave p (Raise e)).

(** A section with a fallback: the primary attempt, and the fallback when
    the attempt times out. *)
Definition section_block (D : deps) (svc : service) (p f : proc)
  (msg : string) : M unit :=
  try_except (invoke D svc p) is_timeout (warning msg ;; invoke D svc f).

(** What lines 103 to 108 make of the output for a reply that is a
    dictionary: the assignments up to the first key that the reply lacks. *)
Definition primary_keys_merged (fields o : list (string * json))
  : list (string * json) :=
  match Dict.get "name" fields with
  | None => o
  | Some name =>
      let o1 := Dict.set "candidate_name" name o in
      match Dict.get "job_title" fields with
      | None => o1
      | Some title =>
          let o2 := Dict.set "job_title" title o1 in
          match Dict.get "bio" fields with
          | None => o2
          | Some bio => Dict.set "bio" bio o2
          end
      end
  end.

(** A field of [self.output['contact_info']]. *)
Definition contact_field (k : string) (w : world) : option json :=
  match Dict.get "contact_info" (output w) with
  | Some (JObj info) => Dict.get k info
  | _ => None
  end.

(** The first comma-separated field of a line, without its trailing white
    space: the company name. *)
Definition first_field (line : string) : string :=
  match PyStr.split "," line with
  | entry0 :: _ => PyStr.rstrip entry0
  | [] => EmptyString
  end.

(** The second field, without its trailing white space, or the empty string
    when the line has one field only: the role. *)
Definition second_field (line : string) : string :=
  match PyStr.split "," line with
  | _ :: entry1 :: _ => PyStr.rstrip entry1
  | _ => EmptyString
  end.

(** The lines that are not skipped: no occurrence of the word answer in any
    letter case, and a first field that is not empty. *)
Definition surviving (line : string) : bool :=
  negb (PyStr.contains "answer" (PyStr.lower line))
  && negb (String.eqb (first_field line) EmptyString).

(** The prompt of the structured call made for a line. *)
Definition structured_query (D : deps) (text line : string) : string :=
  work_experience_prompt D text (second_field line) (first_field line).

(** The parsed replies to the JSON-mode calls number [n], [n + 1], ... made
    with the given queries. *)
Fixpoint replies (svc : service) (n : nat) (queries : list string)
  : list (option json) :=
  match queries with
  | [] => []
  | q :: r =>
      match chat svc n q true with
      | Return reply => PyJson.loads false reply
      | Raise _ => None
      end :: replies svc (S n) r
  end.

(** Every JSON-mode call is answered with a text that the lenient decoder
    accepts. *)
Definition answers_json (svc : service) : Prop :=
  forall n q, exists reply v,
    chat svc n q true = Return reply /\ PyJson.loads false reply = Some v.

(** ** Test doubles used to run the definitions on concrete inputs *)

Module Stub.

Definition quoted (s : string) : string :=
  String PyJson.dquote (s ++ String PyJson.dquote EmptyString).

(** Prompts that only carry their arguments, extractors that find nothing
    but one fixed address, and the template of the spec. *)
Definition deps0 : deps :=
  mkDeps (fun text => "BASIC " ++ text)
         (fun text => "SKILLS " ++ text)
         (fun text => "EDUCATION " ++ text)
         (fun text => "COMPANIES " ++ text)
         (fun text role company => "WORK " ++ company ++ "/" ++ role)
         (fun text => JArr [JStr "jane@example.org"])
         (fun text => JArr [])
         spec_output_template.

(** A file system with one two-page PDF and one DOCX file. *)
Definition fs0 : files :=
  mkFiles
    (fun _ => Return [ "Jane Doe  " ++ String "010" ("   " ++ String "010"
                         "  Engineer");
                       "Python, SQL" ])
    (fun _ => Return [ "Jane Doe"; EmptyString; "Engineer" ])
    (fun p => p)
    (fun _ => Return tt).

(** A service that answers every chat call with the same text and every
    chain call with no object. *)
Definition always (text : string) : service :=
  mkService (fun _ _ _ => Return text) (fun _ _ _ => Return [])
            (fun _ => Return tt).

(** A service whose every call times out. *)
Definition down : service :=
  mkService (fun _ _ _ => Raise APITimeoutError)
            (fun _ _ _ => Raise APITimeoutError)
            (fun _ => Return tt).

(** The world of a freshly constructed manager. *)
Definition fresh (text : string) : world :=
  mkWorld spec_output_template text "gpt-3.5-turbo-1106" [] [] [].

(** The text of a JSON object with the one key [job_title]. *)
Definition job_title_only : string :=
  "{" ++ quoted "job_title" ++ ": " ++ quoted "Engineer" ++ "}".

(** The text of a JSON object with the keys [company] and [skills]. *)
Definition one_company : string :=
  "{" ++ quoted "company" ++ ": " ++ quoted "Acme" ++ ", "
  ++ quoted "skills" ++ ": [" ++ quoted "Python" ++ "]}".

(** Four enumerated lines: a company with a role, an echo of the
    instructions, a line with no company, a company with no role. *)
Definition enumeration : string :=
  "Acme, Engineer" ++ String "010"
    ("Answer: see below" ++ String "010"
       ("  , Clerk" ++ String "010" "Globex")).

(** A service whose extraction chain times out, and whose chat model
    answers a free-text call with the enumeration and a JSON-mode call
    with the company object. *)
Definition chain_down : service :=
  mkService (fun _ _ json_mode =>
               Return (if json_mode then one_company else enumeration))
            (fun _ _ _ => Raise APITimeoutError)
            (fun _ => Return tt).

(** The replies of the end-to-end scenario of the specification: the
    basic-info prompt and the skills prompt are told apart by the first
    word that [deps0] puts in them. *)
Definition scenario : service :=
  mkService
    (fun _ query _ =>
       if prefix "BASIC" query then
         Return ("{" ++ quoted "name" ++ ": " ++ quoted "John Doe" ++ ", "
                 ++ quoted "job_title" ++ ": " ++ quoted EmptyString
                 ++ ", " ++ quoted "bio" ++ ": " ++ quoted EmptyString
                 ++ "}")
       else
         Return ("{" ++ quoted "skills" ++ ": [" ++ quoted "Python" ++ ", "
                 ++ quoted "SQL" ++ "]}"))
    (fun _ _ _ => Return [])
    (fun _ => Return tt).

(** A reply with a quote, a backslash and a line break in it. *)
Definition awkward_text : string :=
  "Python, " ++ quoted "SQL" ++ String "010" "C:\path".

End Stub.

(** ** Notions of the further properties *)

(** The character occurs in the string. *)
Fixpoint occurs (c : ascii) (s : string) : bool :=
  match s with
  | EmptyString => false
  | String d r => Ascii.eqb d c || occurs c r
  end.

(** A line as the loader keeps it: not empty, on one line, and with no
    white space at its end. *)
Definition kept_line (line : string) : Prop :=
  line <> EmptyString
  /\ occurs "010" line = false
  /\ PyStr.rstrip line = line.

(** A computation keeps the invariant [I] of the world, in every outcome,
    and what it returns satisfies [G]. *)
Definition ensures {A : Type} (I : world -> Prop) (G : A -> Prop)
  (m : M A) : Prop :=
  forall w, I w ->
    I (snd (m w)) /\ forall a, fst (m w) = Return a -> G a.

(** Any value. *)
Definition any {A : Type} (a : A) : Prop := True.

(** The request that a method sends first. *)
Definition request_of (D : deps) (p : proc) (w : world) : request :=
  match p with
  | ExtractBasicInfo =>
      ChatCompletion (model_name w) (basic_details_prompt D (resume w)) true
  | ExtractWorkExperience =>
      ExtractionChain (model_name w) WorkExperience (resume w)
  | FallbackExtractWorkExperience =>
      ChatCompletion (model_name w) (companies_prompt D (resume w)) false
  | ExtractSkills =>
      ChatCompletion (model_name w) (skills_prompt D (resume w)) true
  | FallbackExtractSkills =>
      ChatCompletion (model_name w) (fallback_skills_query (resume w)) false
  | ExtractEducation =>
      ExtractionChain (model_name w) Education (resume w)
  | FallbackExtractEducation =>
      ChatCompletion (model_name w) (fallback_education_prompt D (resume w))
        false
  end.




(** The world has the calls of [w] and nothing else is said of it. *)
Definition same_calls (w w' : world) : Prop := calls w' = calls w.

(** The world has the calls of [w] followed by others. *)
Definition more_calls (w w' : world) : Prop :=
  exists more, calls w' = (calls w ++ more)%list.

(** The warning that [process_file] logs before it enters a fallback
    (lines 46, 52 and 58); a primary attempt is entered without one. *)
Definition warning_of (p : proc) : list string :=
  match p with
  | FallbackExtractWorkExperience => ["Work extraction timed out"]
  | FallbackExtractSkills => ["Skills extraction timed out"]
  | FallbackExtractEducation => ["Education extraction timed out"]
  | _ => []
  end.

(** What a part of a run with the events [t] has done to the world: the
    warnings are the ones of the fallbacks entered, the resume and the model
    name are the same, and the requests sent are the first requests of the
    methods entered when the work-experience fallback is not among them. *)
Definition logged (D : deps) (w w' : world) (t : list event) : Prop :=
  trace w' = (trace w ++ t)%list
  /\ warnings w' = (warnings w ++ flat_map warning_of (entered t))%list
  /\ resume w' = resume w
  /\ model_name w' = model_name w
  /\ exists sent,
       calls w' = (calls w ++ sent)%list
       /\ (~ In FallbackExtractWorkExperience (entered t) ->
           sent = map (fun p => request_of D p w) (entered t)).

(** Every run of the computation is logged. *)
Definition logs (D : deps) {A : Type} (m : M A) : Prop :=
  forall w, exists t, logged D w (snd (m w)) t.

(** The request names the model of the manager, and hands the resume to the
    extraction chain. *)
Definition carries (w : world) (rq : request) : Prop :=
  match rq with
  | ChatCompletion m _ _ => m = model_name w
  | ExtractionChain m _ input => m = model_name w /\ input = resume w
  end.

(** The world comes from [w0] by requests that carry its model name, with
    the resume and the model name left as they were. *)
Definition sent_from (w0 w : world) : Prop :=
  resume w = resume w0
  /\ model_name w = model_name w0
  /\ exists sent, calls w = (calls w0 ++ sent)%list /\ Forall (carries w0) sent.

(** What the run takes from outside holds dictionaries with distinct keys
    only: the template, what the two extractors return, and the objects of
    the extraction chain. *)
Definition well_formed (D : deps) (svc : service) : Prop :=
  unique_keys (JObj (output_template D)) = true
  /\ (forall text, unique_keys (extract_emails D text) = true)
  /\ (forall text,
         unique_keys (extract_github_and_linkedin_urls D text) = true)
  /\ (forall n target input l,
         chain svc n target input = Return l ->
         forallb unique_keys l = true).


(** The keys that the sections after basic info assign. *)
Definition later_keys : list string :=
  (writes ExtractWorkExperience ++ writes ExtractSkills
   ++ writes ExtractEducation)%list.




(** Printable ASCII, or the line feed. *)
Definition ascii_char (c : ascii) : bool :=
  let n := N_of_ascii c in
  ((32 <=? n) && (n <=? 126) || (n =? 10))%N.

Fixpoint ascii_text (s : string) : bool :=
  match s with
  | EmptyString => true
  | String c r => ascii_char c && ascii_text r
  end.

(** The methods that assign nothing before their last statement that may
    raise. *)
Definition atomic (p : proc) : bool :=
  match p with
  | ExtractBasicInfo | FallbackExtractWorkExperience => false
  | _ => true
  end.

(** The string consists of dots only; the empty string does. *)
Fixpoint only_dots (s : string) : bool :=
  match s with
  | EmptyString => true
  | String c r => Ascii.eqb c "." && only_dots r
  end.

(** A directory prefix of a path: nothing, or a text that ends with a
    slash. *)
Definition dir_prefix (dir : string) : Prop :=
  dir = EmptyString \/ exists d, dir = d ++ "/".

(** The value is a JSON string. *)
Definition is_text (v : option json) : Prop :=
  match v with Some (JStr _) => True | _ => False end.

(** The value is a JSON list. *)
Definition is_list (v : option json) : Prop :=
  match v with Some (JArr _) => True | _ => False end.

(** The text holds white space only; the empty text does. *)
Fixpoint blank (s : string) : bool :=
  match s with
  | EmptyString => true
  | String c r => PyStr.isspace c && blank r
  end.

(** ** More sample data *)

Module Sample.




(** A page of spaces, a tab and line feeds. *)
Definition blank_page : string :=
  "  " ++ String "010" (String "009" (String "010" " ")).

End Sample.

(** ** Tactics *)

(** The 256 characters, one goal each. *)
Ltac each_char c := destruct c as [[] [] [] [] [] [] [] []].

(** One method of the run: its outcome, what it adds to the trace, and a
    goal for each way it may end. *)
Ltac run_step run Hrun p :=
  match goal with
  | |- context [run p ?w] =>
      let r := fresh "r" in
      let w' := fresh "w" in
      let E := fresh "E" in
      let T := fresh "T" in
      pose proof (Hrun p w) as T;
      destruct (run p w) as [r w'] eqn:E;
      cbn [fst snd add_warning trace] in T;
      destruct r as [[] | []]
  end.

(** A run that has ended: its trace is known, the schedule is checked on
    it. *)
Ltac close_schedule :=
  eexists; split;
  [ repeat match goal with
           | T : trace _ = _ |- _ => rewrite T; clear T
           end;
    cbn [add_warning trace];
    rewrite <- ?app_assoc; cbn [app]; reflexivity
  | unfold schedule_property;
    split; [reflexivity|];
    split; [reflexivity|];
    split; [first [reflexivity | discriminate]|];
    split;
    [ intros p f Hf; destruct p; try discriminate Hf;
      injection Hf as <-;
      (split; [split; cbn; intros H;
               repeat (destruct H as [H | H]; try discriminate H);
               tauto
              | split; [cbn; lia | cbn; intros H;
                 repeat (destruct H as [H | H]; try discriminate H);
                 first [reflexivity | tauto]]])
    | intros p e H Hc; cbn in H;
      repeat (destruct H as [H | H]; try discriminate H);
      try tauto;
      injection H as <- <-;
      first [ split; reflexivity
            | destruct Hc as [Hc | Hc]; discriminate Hc ] ] ].

(** ** Facts about strings *)

Lemma append_nil_r (s : string) : s ++ EmptyString = s.
Proof. induction s as [|c s IH]; simpl; [reflexivity | now rewrite IH]. Qed.

Lemma append_assoc (a b c : string) : (a ++ b) ++ c = a ++ (b ++ c).
Proof. induction a as [|x a IH]; simpl; [reflexivity | now rewrite IH]. Qed.

Lemma fold_left_append {A : Type} (f : A -> string) (l : list A)
  (init : string) :
  fold_left (fun acc x => acc ++ f x) l init = init ++ join (map f l).
Proof.
  revert init. induction l as [|x l IH]; intros init; simpl.
  - now rewrite append_nil_r.
  - rewrite IH. now rewrite append_assoc.
Qed.

(** ** The document loader *)

Section Loader.

Variable fs : files.

Lemma add_pdf_page_spec (content text : string) :
  add_pdf_page content text = content ++ page_text text.
Proof.
  unfold add_pdf_page, page_text, kept_lines.
  generalize (PyStr.split "010" text) as lines.
  intros lines. revert content.
  induction lines as [|l lines IH]; intros content; simpl.
  - now rewrite append_nil_r.
  - rewrite IH. unfold add_pdf_line.
    destruct (String.eqb (PyStr.rstrip l) EmptyString); simpl.
    + reflexivity.
    + unfold with_newline at 2. now rewrite !append_assoc.
Qed.

Lemma fold_pdf_pages (pages : list string) (content : string) :
  fold_left add_pdf_page pages content
  = content ++ join (map page_text pages).
Proof.
  revert content. induction pages as [|p pages IH]; intros content; simpl.
  - now rewrite append_nil_r.
  - rewrite IH, add_pdf_page_spec. now rewrite append_assoc.
Qed.

(** C9.  For a PDF input the loader returns, page after page, the lines of
    the page's extracted text that are not empty once their trailing white
    space is removed, each such trimmed line followed by one newline; for
    a DOCX or DOC input it returns the text of each paragraph followed by
    one newline, in document order. *)
Theorem loader_text (file : string) (extension : option string) :
  (forall pages,
      effective_extension file extension = ".pdf" ->
      pdf_pages fs file = Return pages ->
      get_resume_content fs file extension
      = Return (join (map page_text pages)))
  /\ (forall paragraphs,
         effective_extension file extension = ".docx"
         \/ effective_extension file extension = ".doc" ->
         docx_paragraphs fs file = Return paragraphs ->
         get_resume_content fs file extension
         = Return (join (map with_newline paragraphs))).
Proof.
  split.
  - intros pages Hext Hpages. unfold get_resume_content.
    rewrite Hext, Hpages. simpl. now rewrite fold_pdf_pages.
  - intros paragraphs Hext Hpars. unfold get_resume_content.
    destruct Hext as [Hext | Hext]; rewrite Hext, Hpars; simpl;
      unfold add_paragraph;
      now rewrite (fold_left_append with_newline).
Qed.

Lemma unsupported_exits (file : string) (extension : option string) :
  unsupported (effective_extension file extension) ->
  get_resume_content fs file extension
  = Raise (SystemExit ("Unsupported file type "
                       ++ effective_extension file extension)).
Proof.
  intros (Hpdf & Hdocx & Hdoc). unfold get_resume_content.
  apply String.eqb_neq in Hpdf, Hdocx, Hdoc.
  now rewrite Hpdf, Hdocx, Hdoc.
Qed.

(** C10.  The dispatch compares the extension exactly: an extension that
    is one of .pdf, .docx, .doc up to letter case but is not written in
    lower case makes the loader exit with the unsupported-format
    message. *)
Theorem extension_case_sensitive (file : string)
  (extension : option string) :
  let ext := effective_extension file extension in
  In (PyStr.lower ext) [".pdf"; ".docx"; ".doc"] ->
  ext <> PyStr.lower ext ->
  get_resume_content fs file extension
  = Raise (SystemExit ("Unsupported file type " ++ ext)).
Proof.
  intros ext Hin Hcase. apply unsupported_exits. fold ext.
  assert (Hfix : forall s, In s [".pdf"; ".docx"; ".doc"] ->
                           PyStr.lower s = s).
  { intros s [<- | [<- | [<- | []]]]; reflexivity. }
  repeat split; intros Heq; apply Hcase; rewrite Heq;
    symmetry; apply Hfix; simpl; auto.
Qed.

End Loader.

Section Unsupported.

Variable D : deps.
Variable svc : service.
Variable fs : files.

(** C5.  When the extension, explicit or taken from the path, is none of
    .pdf, .docx and .doc, the loader exits with a message that names the
    extension, so no manager is constructed; the script then ends with
    that exit, with status 1, having sent no request to the model, written
    no file and printed nothing. *)
Theorem unsupported_extension_exits (file model : string)
  (extension : option string) :
  unsupported (effective_extension file extension) ->
  let msg := "Unsupported file type "
             ++ effective_extension file extension in
  get_resume_content fs file extension = Raise (SystemExit msg)
  /\ init D svc fs file model extension = Raise (SystemExit msg)
  /\ (extension = None ->
      let r := main D svc fs file model in
      status r = Raise (SystemExit msg)
      /\ exit_status (status r) = 1%Z
      /\ exit_message (status r) = Some msg
      /\ sent r = [] /\ written r = [] /\ stdout r = []).
Proof.
  intros Hext msg.
  pose proof (unsupported_exits fs file extension Hext) as Hload.
  fold msg in Hload.
  assert (Hinit : init D svc fs file model extension
                  = Raise (SystemExit msg))
    by (unfold init; now rewrite Hload).
  split; [exact Hload|]. split; [exact Hinit|].
  intros ->. cbv zeta. unfold main. rewrite Hinit. cbn.
  repeat split.
Qed.

End Unsupported.

(** ** The JSON round trip: strings and numbers *)

Lemma scan_escape_char (strict : bool) (c : ascii) (rest : string) :
  scanstring strict (escape_char c ++ rest) = push c (scanstring strict rest).
Proof. destruct strict; each_char c; reflexivity. Qed.

Lemma scanstring_escape (strict : bool) (s rest : string) :
  scanstring strict (escape s ++ String dquote rest) = Some (s, rest).
Proof.
  induction s as [|c s IH]; simpl.
  - reflexivity.
  - rewrite append_assoc, scan_escape_char, IH. reflexivity.
Qed.

Lemma digit_char_code (m : N) :
  (m < 10)%N -> N_of_ascii (digit_char m) = (48 + m)%N.
Proof.
  intros H. unfold digit_char. apply N_ascii_embedding. lia.
Qed.

Lemma digit_char_is_digit (m : N) :
  (m < 10)%N -> is_digit (digit_char m) = true.
Proof.
  intros H. unfold is_digit. rewrite digit_char_code by assumption.
  apply andb_true_intro. split; apply N.leb_le; lia.
Qed.

Lemma log2_div10 (n : N) :
  (10 <= n)%N -> (N.log2 (n / 10) < N.log2 n)%N.
Proof.
  intros H.
  assert (Hpos : (0 < n / 10)%N).
  { apply N.div_str_pos. lia. }
  apply N.log2_lt_pow2; [assumption|].
  destruct (N.log2_spec n ltac:(lia)) as [Hlo Hhi].
  assert (Hle : (n / 10 <= n / 2)%N).
  { apply N.div_le_compat_l. lia. }
  assert (Hlt : (n / 2 < 2 ^ N.log2 n)%N).
  { apply N.Div0.div_lt_upper_bound.
    rewrite N.pow_succ_r' in Hhi. exact Hhi. }
  lia.
Qed.

Lemma scan_digits_digit (m : N) (rest : string) (acc : N) :
  (m < 10)%N ->
  scan_digits (String (digit_char m) rest) acc
  = scan_digits rest (acc * 10 + m)%N.
Proof.
  intros H. cbn [scan_digits].
  rewrite digit_char_is_digit, digit_char_code by assumption.
  f_equal. lia.
Qed.

Lemma scan_digits_digits (f : nat) :
  forall n : N,
    (N.to_nat (N.log2 n) < f)%nat ->
    exists k : N, forall rest acc,
      scan_digits (digits f n ++ rest) acc
      = scan_digits rest (acc * 10 ^ k + n)%N.
Proof.
  induction f as [|f IH]; intros n Hf; [lia|].
  cbn [digits]. destruct (N.ltb_spec n 10) as [Hlt | Hge].
  - exists 1%N. intros rest acc. cbn [append].
    rewrite scan_digits_digit by assumption. now rewrite N.pow_1_r.
  - destruct (IH (n / 10)%N) as [k Hk].
    { pose proof (log2_div10 n Hge). lia. }
    exists (k + 1)%N. intros rest acc.
    rewrite append_assoc, Hk. cbn [append].
    assert (Hm : (n mod 10 < 10)%N) by (apply N.mod_lt; lia).
    rewrite scan_digits_digit by assumption.
    f_equal. rewrite N.pow_add_r, N.pow_1_r.
    pose proof (N.div_mod n 10 ltac:(lia)) as Hdm.
    rewrite Hdm at 3. ring.
Qed.

Lemma digits_head (f : nat) :
  forall n : N,
    (0 < n)%N -> (N.to_nat (N.log2 n) < f)%nat ->
    exists c r, digits f n = String c r
                /\ is_digit c = true /\ Ascii.eqb c "0" = false.
Proof.
  induction f as [|f IH]; intros n Hpos Hf; [lia|].
  cbn [digits]. destruct (N.ltb_spec n 10) as [Hlt | Hge].
  - exists (digit_char n), EmptyString. split; [reflexivity|].
    split; [now apply digit_char_is_digit|].
    apply Ascii.eqb_neq. intros Heq.
    apply (f_equal N_of_ascii) in Heq.
    rewrite digit_char_code in Heq by assumption.
    change (N_of_ascii "0") with 48%N in Heq. lia.
  - destruct (IH (n / 10)%N) as (c & r & Hd & Hc & Hz).
    { apply N.div_str_pos. lia. }
    { pose proof (log2_div10 n Hge). lia. }
    exists c, (r ++ String (digit_char (n mod 10)) EmptyString).
    rewrite Hd. auto.
Qed.

Lemma scan_digits_stop (rest : string) (acc : N) :
  starts_with_digit rest = false -> scan_digits rest acc = (acc, rest).
Proof.
  destruct rest as [|c r]; cbn [starts_with_digit scan_digits];
    [reflexivity | now intros ->].
Qed.

Lemma scan_nat_str_N (n : N) (rest : string) :
  (0 < n)%N -> starts_with_digit rest = false ->
  scan_nat (str_N n ++ rest) = Some (n, rest).
Proof.
  intros Hpos Hrest. unfold str_N.
  destruct (digits_head (S (N.to_nat (N.log2 n))) n Hpos ltac:(lia))
    as (c & r & Hd & Hc & Hz).
  destruct (scan_digits_digits (S (N.to_nat (N.log2 n))) n ltac:(lia))
    as [k Hk].
  specialize (Hk rest 0%N). rewrite Hd in *. cbn [append] in *.
  unfold scan_nat. rewrite Hz, Hc, Hk.
  rewrite scan_digits_stop by assumption.
  now rewrite N.mul_0_l, N.add_0_l.
Qed.

Lemma digit_not_minus (c : ascii) :
  is_digit c = true -> Ascii.eqb c "-" = false.
Proof. each_char c; intros H; try discriminate H; reflexivity. Qed.

Lemma scan_number_str_Z (z : Z) (rest : string) :
  follow_ok rest = true ->
  scan_number (str_Z z ++ rest) = Some (JInt z, rest).
Proof.
  unfold follow_ok. intros H. apply andb_prop in H as [Hd Hf].
  apply negb_true_iff in Hd, Hf.
  destruct z as [|p|p]; cbn [str_Z].
  - cbn. now rewrite Hf.
  - pose proof (scan_nat_str_N (Npos p) rest ltac:(lia) Hd) as Hs.
    destruct (digits_head (S (N.to_nat (N.log2 (Npos p)))) (Npos p)
                ltac:(lia) ltac:(lia)) as (c & r & Hhd & Hc & _).
    unfold str_N in *. rewrite Hhd in *. cbn [append] in *.
    unfold scan_number. rewrite (digit_not_minus c Hc), Hs, Hf.
    reflexivity.
  - pose proof (scan_nat_str_N (Npos p) rest ltac:(lia) Hd) as Hs.
    cbn [append]. unfold scan_number.
    change (Ascii.eqb "-" "-") with true. cbv iota.
    rewrite Hs, Hf. reflexivity.
Qed.

Lemma str_Z_head (z : Z) :
  exists c r, str_Z z = String c r
              /\ (is_digit c || Ascii.eqb c "-") = true.
Proof.
  destruct z as [|p|p]; cbn [str_Z].
  - exists "0"%char, EmptyString. split; reflexivity.
  - destruct (digits_head (S (N.to_nat (N.log2 (Npos p)))) (Npos p)
                ltac:(lia) ltac:(lia)) as (c & r & Hhd & Hc & _).
    exists c, r. unfold str_N. rewrite Hhd, Hc. auto.
  - eexists _, _. split; reflexivity.
Qed.

Lemma parse_value_number (f : nat) (strict : bool) (c : ascii) (r : string) :
  (is_digit c || Ascii.eqb c "-") = true ->
  parse_value (S f) strict (String c r) = scan_number (String c r).
Proof. each_char c; intros H; try discriminate H; reflexivity. Qed.

Lemma value_start_not_ws (c : ascii) :
  value_start c = true -> is_ws c = false.
Proof. each_char c; intros H; try discriminate H; reflexivity. Qed.

Lemma value_start_not_close (c : ascii) :
  value_start c = true -> Ascii.eqb c "]" = false.
Proof. each_char c; intros H; try discriminate H; reflexivity. Qed.

Lemma dump_head (level : nat) (v : json) :
  exists c r, dump level v = String c r /\ value_start c = true.
Proof.
  destruct v as [|[]|n|s|[|x l]|[|[k x] l]];
    try (eexists _, _; split; reflexivity).
  destruct (str_Z_head n) as (c & r & Hs & Hc).
  exists c, r. split; [exact Hs|]. unfold value_start.
  now rewrite Hc.
Qed.

Lemma skip_ws_start (c : ascii) (r : string) :
  is_ws c = false -> skip_ws (String c r) = String c r.
Proof. intros H. cbn [skip_ws]. now rewrite H. Qed.

Lemma skip_ws_spaces (n : nat) (s : string) :
  skip_ws (spaces n ++ s) = skip_ws s.
Proof. induction n as [|n IH]; [reflexivity | exact IH]. Qed.

Lemma skip_ws_newline_indent (level : nat) (s : string) :
  skip_ws (newline_indent level ++ s) = skip_ws s.
Proof. unfold newline_indent. cbn [append skip_ws]. apply skip_ws_spaces. Qed.

Lemma skip_ws_dump (level k : nat) (v : json) (rest : string) :
  skip_ws (newline_indent k ++ dump level v ++ rest)
  = dump level v ++ rest.
Proof.
  rewrite skip_ws_newline_indent.
  destruct (dump_head level v) as (c & r & -> & Hc).
  cbn [append]. apply skip_ws_start. now apply value_start_not_ws.
Qed.

(** ** The JSON round trip: lists and dictionaries *)

Lemma dump_arr (level : nat) (x : json) (r : list json) :
  dump level (JArr (x :: r))
  = "[" ++ newline_indent (S level) ++ dump (S level) x
    ++ more_items level r ++ newline_indent level ++ "]".
Proof. reflexivity. Qed.

Lemma dump_obj (level : nat) (k : string) (x : json)
  (r : list (string * json)) :
  dump level (JObj ((k, x) :: r))
  = "{" ++ newline_indent (S level) ++ encode_str k ++ ": "
    ++ dump (S level) x ++ more_fields level r
    ++ newline_indent level ++ "}".
Proof. reflexivity. Qed.

Lemma set_fresh {V : Type} (k : string) (v : V) (d : list (string * V)) :
  existsb (String.eqb k) (map fst d) = false ->
  Dict.set k v d = (d ++ [(k, v)])%list.
Proof.
  induction d as [|[k' v'] d IH]; cbn; [reflexivity|].
  intros H. apply orb_false_elim in H as [Hk Hd].
  rewrite Hk. now rewrite IH.
Qed.

Lemma distinct_app_fresh (a b : list string) (k : string) :
  distinct (a ++ k :: b)%list = true -> existsb (String.eqb k) a = false.
Proof.
  induction a as [|x a IH]; cbn; [reflexivity|].
  intros H. apply andb_prop in H as [Hx Hd].
  rewrite (IH Hd), orb_false_r.
  apply negb_true_iff in Hx. rewrite existsb_app in Hx.
  apply orb_false_elim in Hx as [_ Hx]. cbn in Hx.
  apply orb_false_elim in Hx as [Hx _].
  now rewrite String.eqb_sym.
Qed.

Lemma fold_set_distinct {V : Type} (l acc : list (string * V)) :
  distinct (map fst (acc ++ l)%list) = true ->
  fold_left (fun d kv => Dict.set (fst kv) (snd kv) d) l acc
  = (acc ++ l)%list.
Proof.
  revert acc. induction l as [|[k v] l IH]; intros acc H; cbn.
  - now rewrite app_nil_r.
  - rewrite set_fresh.
    + rewrite IH; rewrite <- app_assoc; [reflexivity | exact H].
    + rewrite map_app in H. now apply distinct_app_fresh in H.
Qed.

Lemma of_pairs_distinct {V : Type} (d : list (string * V)) :
  distinct (map fst d) = true -> Dict.of_pairs d = d.
Proof. intros H. unfold Dict.of_pairs. now rewrite fold_set_distinct. Qed.

Lemma follow_more_items (level : nat) (l : list json) (rest : string) :
  follow_ok (more_items level l ++ newline_indent level ++ rest) = true.
Proof. destruct l; reflexivity. Qed.

Lemma follow_more_fields (level : nat) (l : list (string * json))
  (rest : string) :
  follow_ok (more_fields level l ++ newline_indent level ++ rest) = true.
Proof. destruct l as [|[k y] l]; reflexivity. Qed.

Lemma more_items_cons (level : nat) (y : json) (r : list json)
  (t : string) :
  more_items level (y :: r) ++ t
  = String "," (newline_indent (S level) ++ dump (S level) y
                ++ more_items level r ++ t).
Proof. cbn [more_items]. now rewrite !append_assoc. Qed.

Lemma more_fields_cons (level : nat) (k : string) (y : json)
  (r : list (string * json)) (t : string) :
  more_fields level ((k, y) :: r) ++ t
  = String "," (newline_indent (S level)
                ++ String dquote (escape k ++ String dquote
                     (String ":" (String " "
                        (dump (S level) y ++ more_fields level r ++ t))))).
Proof.
  cbn [more_fields]. rewrite !append_assoc. unfold encode_str.
  change (String dquote (escape k ++ String dquote EmptyString) ++ ?X)
    with (String dquote ((escape k ++ String dquote EmptyString) ++ X)).
  rewrite append_assoc. reflexivity.
Qed.

Lemma parse_items_last (f : nat) (strict : bool) (s r r1 : string)
  (values : list json) (v : json) :
  parse_value f strict s = Some (v, r) ->
  skip_ws r = String "]" r1 ->
  parse_items (S f) strict s values = Some (JArr (values ++ [v])%list, r1).
Proof. intros H1 H2. cbn [parse_items]. now rewrite H1, H2. Qed.

Lemma parse_items_next (f : nat) (strict : bool) (s r r1 : string)
  (values : list json) (v : json) :
  parse_value f strict s = Some (v, r) ->
  skip_ws r = String "," r1 ->
  parse_items (S f) strict s values
  = parse_items f strict (skip_ws r1) (values ++ [v])%list.
Proof. intros H1 H2. cbn [parse_items]. now rewrite H1, H2. Qed.

Lemma parse_members_last (f : nat) (strict : bool) (s r r1 r2 r3 : string)
  (pairs : list (string * json)) (key : string) (v : json) :
  scanstring strict s = Some (key, r) ->
  skip_ws r = String ":" r1 ->
  parse_value f strict (skip_ws r1) = Some (v, r2) ->
  skip_ws r2 = String "}" r3 ->
  parse_members (S f) strict s pairs
  = Some (JObj (Dict.of_pairs (pairs ++ [(key, v)])%list), r3).
Proof.
  intros H1 H2 H3 H4. cbn [parse_members]. now rewrite H1, H2, H3, H4.
Qed.

Lemma parse_members_next (f : nat) (strict : bool)
  (s r r1 r2 r3 r4 : string)
  (pairs : list (string * json)) (key : string) (v : json) :
  scanstring strict s = Some (key, r) ->
  skip_ws r = String ":" r1 ->
  parse_value f strict (skip_ws r1) = Some (v, r2) ->
  skip_ws r2 = String "," r3 ->
  skip_ws r3 = String dquote r4 ->
  parse_members (S f) strict s pairs
  = parse_members f strict r4 (pairs ++ [(key, v)])%list.
Proof.
  intros H1 H2 H3 H4 H5. cbn [parse_members].
  now rewrite H1, H2, H3, H4, H5.
Qed.

Lemma skip_ws_value (level : nat) (v : json) (rest : string) :
  skip_ws (dump level v ++ rest) = dump level v ++ rest.
Proof.
  destruct (dump_head level v) as (c & r & -> & Hc).
  cbn [append]. apply skip_ws_start. now apply value_start_not_ws.
Qed.

Section RoundTrip.

Variable strict : bool.

Lemma parse_items_dump (level : nat) (rest : string) :
  forall (r : list json) (x : json) (values : list json) (f : nat),
    Forall (reads_back strict) (x :: r) ->
    forallb unique_keys (x :: r) = true ->
    size_items (x :: r) <= f ->
    parse_items f strict
      (dump (S level) x ++ more_items level r
       ++ newline_indent level ++ "]" ++ rest) values
    = Some (JArr (values ++ x :: r)%list, rest).
Proof.
  induction r as [|y r IH]; intros x values f Hall Hu Hf;
    inversion Hall as [|? ? Hx Hr]; subst;
    cbn [forallb] in Hu; apply andb_prop in Hu as [Hux Hur];
    cbn [size_items fold_right] in Hf;
    (destruct f as [|f]; [lia|]);
    match goal with
    | |- parse_items _ _ (_ ++ more_items _ ?l ++ _ ++ ?t) _ = _ =>
        pose proof (Hx (S level) f _ Hux (follow_more_items level l t)
                      ltac:(lia)) as Hv
    end.
  - apply (parse_items_last _ _ _ _ _ _ _ Hv).
    cbn [more_items append]. now rewrite skip_ws_newline_indent.
  - rewrite (parse_items_next _ _ _ _ _ _ _ Hv
               (f_equal skip_ws (more_items_cons _ _ _ _))).
    rewrite skip_ws_dump.
    rewrite (IH y (values ++ [x])%list f); try assumption.
    + now rewrite <- app_assoc.
    + unfold size_items. cbn [fold_right]. lia.
Qed.

Lemma parse_members_dump (level : nat) (rest : string) :
  forall (r : list (string * json)) (k : string) (x : json)
         (pairs : list (string * json)) (f : nat),
    Forall (fun kv => (reads_back strict) (snd kv)) ((k, x) :: r) ->
    forallb (fun kv => unique_keys (snd kv)) ((k, x) :: r) = true ->
    size_fields ((k, x) :: r) <= f ->
    parse_members f strict
      (escape k ++ String dquote
         (String ":" (String " "
            (dump (S level) x ++ more_fields level r
             ++ newline_indent level ++ "}" ++ rest)))) pairs
    = Some (JObj (Dict.of_pairs (pairs ++ (k, x) :: r)%list), rest).
Proof.
  induction r as [|[k' y] r IH]; intros k x pairs f Hall Hu Hf;
    inversion Hall as [|? ? Hx Hr]; subst;
    cbn [forallb snd] in Hu; apply andb_prop in Hu as [Hux Hur];
    cbn [size_fields fold_right snd] in Hf; cbn [snd] in Hx;
    (destruct f as [|f]; [lia|]);
    match goal with
    | |- context [dump _ _ ++ more_fields _ ?l ++ _ ++ ?t] =>
        pose proof (Hx (S level) f _ Hux (follow_more_fields level l t)
                      ltac:(lia)) as Hv
    end.
  - eapply parse_members_last.
    + apply scanstring_escape.
    + reflexivity.
    + cbn [skip_ws is_ws Ascii.eqb Bool.eqb orb]. rewrite skip_ws_value.
      exact Hv.
    + cbn [more_fields append]. now rewrite skip_ws_newline_indent.
  - erewrite parse_members_next.
    + rewrite (IH k' y (pairs ++ [(k, x)])%list f); try assumption.
      * now rewrite <- app_assoc.
      * unfold size_fields. cbn [fold_right snd]. lia.
    + apply scanstring_escape.
    + reflexivity.
    + cbn [skip_ws is_ws Ascii.eqb Bool.eqb orb]. rewrite skip_ws_value.
      exact Hv.
    + rewrite more_fields_cons. reflexivity.
    + now rewrite skip_ws_newline_indent.
Qed.

End RoundTrip.

Lemma parse_value_array (f : nat) (strict : bool) (r : string)
  (c1 : ascii) (r2 : string) :
  skip_ws r = String c1 r2 -> Ascii.eqb c1 "]" = false ->
  parse_value (S f) strict (String "[" r)
  = parse_items f strict (String c1 r2) [].
Proof. intros H1 H2. cbn. now rewrite H1, H2. Qed.

Lemma parse_value_object (f : nat) (strict : bool) (r r2 : string) :
  skip_ws r = String dquote r2 ->
  parse_value (S f) strict (String "{" r) = parse_members f strict r2 [].
Proof. intros H1. cbn. now rewrite H1. Qed.

Lemma parse_value_string (f : nat) (strict : bool) (r : string) :
  parse_value (S f) strict (String dquote r)
  = match scanstring strict r with
    | Some (str, r') => Some (JStr str, r')
    | None => None
    end.
Proof. reflexivity. Qed.

Lemma reads_back_all (strict : bool) (v : json) : reads_back strict v.
Proof.
  induction v as [| b | n | s | items IH | fields IH] using json_nested_ind;
    intros level f rest Hu Hfollow Hf;
    (destruct f as [|f]; [cbn in Hf; lia|]).
  - reflexivity.
  - destruct b; reflexivity.
  - cbn [dump]. destruct (str_Z_head n) as (c & r & Hs & Hc).
    pose proof (scan_number_str_Z n rest Hfollow) as Hn.
    rewrite Hs in *. cbn [append] in *.
    now rewrite parse_value_number.
  - cbn [dump]. unfold encode_str. cbn [append].
    rewrite parse_value_string, append_assoc. cbn [append].
    now rewrite scanstring_escape.
  - destruct items as [|x r]; [reflexivity|].
    rewrite dump_arr. rewrite !append_assoc. cbn [append].
    destruct (dump_head (S level) x) as (c & t & Hd & Hc).
    cbn [unique_keys] in Hu. cbn [size] in Hf.
    pose proof (parse_items_dump strict level rest r x [] f IH Hu
                  ltac:(unfold size_items; lia)) as Hitems.
    rewrite (parse_value_array f strict _ c
               (t ++ more_items level r ++ newline_indent level
                ++ "]" ++ rest)).
    + rewrite Hd in Hitems. exact Hitems.
    + rewrite skip_ws_dump, Hd. reflexivity.
    + now apply value_start_not_close.
  - destruct fields as [|[k x] r]; [reflexivity|].
    rewrite dump_obj. rewrite !append_assoc. cbn [append].
    cbn [unique_keys] in Hu. apply andb_prop in Hu as [Hkeys Hu].
    cbn [size] in Hf.
    pose proof (parse_members_dump strict level rest r k x [] f IH Hu
                  ltac:(unfold size_fields; lia)) as Hmembers.
    erewrite parse_value_object.
    + rewrite Hmembers. cbn [app]. now rewrite of_pairs_distinct.
    + rewrite skip_ws_newline_indent. unfold encode_str.
      cbn [append]. rewrite append_assoc. reflexivity.
Qed.

Lemma length_append (a b : string) :
  String.length (a ++ b) = String.length a + String.length b.
Proof. induction a as [|c a IH]; cbn; [reflexivity | now rewrite IH]. Qed.

Lemma size_le_length (v : json) :
  forall level, size v <= String.length (dump level v).
Proof.
  induction v as [| b | n | s | items IH | fields IH] using json_nested_ind;
    intros level.
  - cbn. lia.
  - destruct b; cbn; lia.
  - cbn [dump size]. destruct (str_Z_head n) as (c & r & -> & _).
    cbn. lia.
  - cbn. lia.
  - destruct items as [|x r]; [cbn; lia|].
    rewrite dump_arr. cbn [size fold_right]. rewrite !length_append.
    inversion IH as [|? ? Hx Hr]; subst.
    specialize (Hx (S level)).
    assert (Hmore : fold_right (fun x n => S (size x + n)) 0 r
                    <= String.length (more_items level r)).
    { clear Hx IH. induction r as [|y r IHr]; [cbn; lia|].
      inversion Hr as [|? ? Hy Hr']; subst. specialize (IHr Hr').
      specialize (Hy (S level)).
      cbn [more_items fold_right]. rewrite !length_append.
      cbn [String.length]. lia. }
    cbn [String.length]. lia.
  - destruct fields as [|[k x] r]; [cbn; lia|].
    rewrite dump_obj. cbn [size fold_right snd]. rewrite !length_append.
    inversion IH as [|? ? Hx Hr]; subst. cbn [snd] in Hx.
    specialize (Hx (S level)).
    assert (Hmore : fold_right (fun kv n => S (size (snd kv) + n)) 0 r
                    <= String.length (more_fields level r)).
    { clear Hx IH. induction r as [|[k' y] r IHr]; [cbn; lia|].
      inversion Hr as [|? ? Hy Hr']; subst. specialize (IHr Hr').
      cbn [snd] in Hy. specialize (Hy (S level)).
      cbn [more_fields fold_right snd]. rewrite !length_append.
      cbn [String.length]. lia. }
    cbn [String.length]. lia.
Qed.

(** Decoding the text that [dumps] produces gives the value back. *)
Lemma loads_dumps (strict : bool) (v : json) :
  unique_keys v = true -> loads strict (dumps v) = Some v.
Proof.
  intros Hu. unfold loads, dumps.
  rewrite <- (append_nil_r (dump 0 v)) at 2.
  rewrite skip_ws_value.
  rewrite (reads_back_all strict v 0 _ EmptyString Hu eq_refl).
  - reflexivity.
  - pose proof (size_le_length v 0). lia.
Qed.

(** ** The decoder does not run out of fuel *)

Lemma skip_ws_length (s : string) :
  String.length (skip_ws s) <= String.length s.
Proof.
  induction s as [|c s IH]; cbn [skip_ws]; [lia|].
  destruct (is_ws c); cbn [String.length]; lia.
Qed.

Lemma push_length (c : ascii) (res : option (string * string))
  (str rest : string) (n : nat) :
  push c res = Some (str, rest) ->
  (forall str' rest', res = Some (str', rest') ->
                      String.length rest' < n) ->
  String.length rest < n.
Proof.
  destruct res as [[str' rest']|]; cbn [push]; [|discriminate].
  intros [= <- <-] H. now apply (H str').
Qed.

Lemma scanstring_length (strict : bool) (s str rest : string) :
  scanstring strict s = Some (str, rest) ->
  String.length rest < String.length s.
Proof.
  remember (String.length s) as n eqn:Hn. revert s str rest Hn.
  induction n as [n IH] using lt_wf_ind. intros s str rest Hn.
  destruct s as [|c r]; cbn [scanstring]; [discriminate|].
  cbn [String.length] in Hn.
  destruct (Ascii.eqb c dquote).
  { intros [= <- <-]. lia. }
  destruct (Ascii.eqb c backslash).
  - destruct r as [|e r1]; [discriminate|]. cbn [String.length] in Hn.
    destruct (Ascii.eqb e "u").
    + destruct r1 as [|h1 [|h2 [|h3 [|h4 r2]]]]; try discriminate.
      cbn [String.length] in Hn.
      destruct (hex_val h1), (hex_val h2), (hex_val h3), (hex_val h4);
        try discriminate.
      match goal with |- context [if ?b then _ else _] => destruct b end;
        [|discriminate].
      intros H. eapply push_length in H; [exact H|].
      intros str' rest' H'.
      pose proof (IH (String.length r2) ltac:(lia) r2 str' rest' eq_refl H').
      lia.
    + destruct (unescape e); [|discriminate].
      intros H. eapply push_length in H; [exact H|].
      intros str' rest' H'.
      pose proof (IH (String.length r1) ltac:(lia) r1 str' rest' eq_refl H').
      lia.
  - match goal with |- context [if ?b then _ else _] => destruct b end;
      [discriminate|].
    intros H. eapply push_length in H; [exact H|].
    intros str' rest' H'.
    pose proof (IH (String.length r) ltac:(lia) r str' rest' eq_refl H').
    lia.
Qed.

Lemma scan_digits_length (s : string) (acc : N) :
  String.length (snd (scan_digits s acc)) <= String.length s.
Proof.
  revert acc. induction s as [|c s IH]; intros acc; cbn [scan_digits].
  - cbn. lia.
  - destruct (is_digit c); cbn [snd String.length]; [|lia].
    specialize (IH (acc * 10 + (N_of_ascii c - 48))%N). lia.
Qed.

Lemma scan_nat_length (s : string) (n : N) (rest : string) :
  scan_nat s = Some (n, rest) -> String.length rest < String.length s.
Proof.
  destruct s as [|c r]; cbn [scan_nat]; [discriminate|].
  destruct (Ascii.eqb c "0").
  { intros [= <- <-]. cbn. lia. }
  destruct (is_digit c) eqn:Hc; [|discriminate].
  intros [= H]. cbn [scan_digits] in H. rewrite Hc in H.
  pose proof (scan_digits_length r (0 * 10 + (N_of_ascii c - 48))%N) as Hl.
  destruct (scan_digits r _) as [n' rest']. injection H as <- <-.
  cbn [snd String.length] in *. lia.
Qed.

Lemma scan_number_length (s : string) (v : json) (rest : string) :
  scan_number s = Some (v, rest) -> String.length rest < String.length s.
Proof.
  destruct s as [|c r]; cbn [scan_number]; [discriminate|].
  destruct (Ascii.eqb c "-").
  - destruct (scan_nat r) as [[n r']|] eqn:Hn; [|discriminate].
    destruct (float_follows r'); [discriminate|].
    intros [= <- <-]. apply scan_nat_length in Hn. cbn. lia.
  - destruct (scan_nat (String c r)) as [[n r']|] eqn:Hn; [|discriminate].
    destruct (float_follows r'); [discriminate|].
    intros [= <- <-]. now apply scan_nat_length in Hn.
Qed.

Lemma strip_prefix_length (p s rest : string) :
  strip_prefix p s = Some rest -> String.length rest <= String.length s.
Proof.
  revert s. induction p as [|a p IH]; intros s; cbn [strip_prefix].
  - intros [= <-]. lia.
  - destruct s as [|b s]; [discriminate|].
    destruct (Ascii.eqb a b); [|discriminate].
    intros H. apply IH in H. cbn. lia.
Qed.

Lemma literal_length (word : string) (v v' : json) (s rest : string) :
  literal word v s = Some (v', rest) ->
  String.length rest <= String.length s.
Proof.
  unfold literal. destruct (strip_prefix word s) eqn:H; [|discriminate].
  intros [= <- <-]. now apply strip_prefix_length in H.
Qed.

(** A value, the items of a list and the members of a dictionary each take
    at least one character. *)
Lemma parse_length (strict : bool) (f : nat) :
  (forall s v rest,
      parse_value f strict s = Some (v, rest) ->
      String.length rest < String.length s)
  /\ (forall s values v rest,
         parse_items f strict s values = Some (v, rest) ->
         String.length rest < String.length s)
  /\ (forall s pairs v rest,
         parse_members f strict s pairs = Some (v, rest) ->
         String.length rest < String.length s).
Proof.
  induction f as [|f (IHv & IHi & IHm)];
    [repeat split; intros; discriminate|].
  repeat split.
  - intros s v rest. cbn [parse_value].
    destruct s as [|c r]; [discriminate|]. cbn [String.length].
    destruct (Ascii.eqb c dquote).
    { destruct (scanstring strict r) as [[str r']|] eqn:Hs; [|discriminate].
      intros [= <- <-]. apply scanstring_length in Hs. lia. }
    destruct (Ascii.eqb c "{").
    { pose proof (skip_ws_length r) as Hw.
      destruct (skip_ws r) as [|c1 r2]; [discriminate|].
      cbn [String.length] in Hw.
      destruct (Ascii.eqb c1 "}"); [intros [= <- <-]; lia|].
      destruct (Ascii.eqb c1 dquote); [|discriminate].
      intros H. apply IHm in H. lia. }
    destruct (Ascii.eqb c "[").
    { pose proof (skip_ws_length r) as Hw.
      destruct (skip_ws r) as [|c1 r2]; [discriminate|].
      cbn [String.length] in Hw.
      destruct (Ascii.eqb c1 "]"); [intros [= <- <-]; lia|].
      intros H. apply IHi in H. cbn [String.length] in H. lia. }
    destruct (Ascii.eqb c "n");
      [intros H; apply literal_length in H; lia|].
    destruct (Ascii.eqb c "t");
      [intros H; apply literal_length in H; lia|].
    destruct (Ascii.eqb c "f");
      [intros H; apply literal_length in H; lia|].
    intros H. apply scan_number_length in H. cbn [String.length] in H. lia.
  - intros s values v rest. cbn [parse_items].
    destruct (parse_value f strict s) as [[v0 r]|] eqn:Hv; [|discriminate].
    apply IHv in Hv. pose proof (skip_ws_length r) as Hw.
    destruct (skip_ws r) as [|c r1]; [discriminate|].
    cbn [String.length] in Hw.
    destruct (Ascii.eqb c "]"); [intros [= <- <-]; lia|].
    destruct (Ascii.eqb c ","); [|discriminate].
    intros H. apply IHi in H. pose proof (skip_ws_length r1). lia.
  - intros s pairs v rest. cbn [parse_members].
    destruct (scanstring strict s) as [[key r]|] eqn:Hs; [|discriminate].
    apply scanstring_length in Hs. pose proof (skip_ws_length r) as Hw.
    destruct (skip_ws r) as [|c r1]; [discriminate|].
    cbn [String.length] in Hw.
    destruct (Ascii.eqb c ":"); [|discriminate].
    destruct (parse_value f strict (skip_ws r1)) as [[v0 r2]|] eqn:Hv;
      [|discriminate].
    apply IHv in Hv. pose proof (skip_ws_length r1) as Hw1.
    pose proof (skip_ws_length r2) as Hw2.
    destruct (skip_ws r2) as [|c2 r3]; [discriminate|].
    cbn [String.length] in Hw2.
    destruct (Ascii.eqb c2 "}"); [intros [= <- <-]; lia|].
    destruct (Ascii.eqb c2 ","); [|discriminate].
    pose proof (skip_ws_length r3) as Hw3.
    destruct (skip_ws r3) as [|q r4]; [discriminate|].
    cbn [String.length] in Hw3.
    destruct (Ascii.eqb q dquote); [|discriminate].
    intros H. apply IHm in H. lia.
Qed.

(** Beyond twice the length of the text, one more unit of fuel changes
    nothing. *)
Lemma parse_fuel_step (strict : bool) (f : nat) :
  (forall s, 2 * String.length s + 1 <= f ->
             parse_value (S f) strict s = parse_value f strict s)
  /\ (forall s values, 2 * String.length s + 2 <= f ->
                       parse_items (S f) strict s values
                       = parse_items f strict s values)
  /\ (forall s pairs, 2 * String.length s + 1 <= f ->
                      parse_members (S f) strict s pairs
                      = parse_members f strict s pairs).
Proof.
  induction f as [|g (IHv & IHi & IHm)]; [repeat split; intros; lia|].
  repeat split.
  - intros s Hf.
    change (parse_value (S (S g)) strict s)
      with (match s with
            | EmptyString => None
            | String c r =>
                if Ascii.eqb c dquote then
                  match scanstring strict r with
                  | Some (str, r') => Some (JStr str, r')
                  | None => None
                  end
                else if Ascii.eqb c "{" then
                  match skip_ws r with
                  | EmptyString => None
                  | String c1 r2 =>
                      if Ascii.eqb c1 "}" then Some (JObj [], r2)
                      else if Ascii.eqb c1 dquote
                           then parse_members (S g) strict r2 []
                           else None
                  end
                else if Ascii.eqb c "[" then
                  match skip_ws r with
                  | EmptyString => None
                  | String c1 r2 =>
                      if Ascii.eqb c1 "]" then Some (JArr [], r2)
                      else parse_items (S g) strict (String c1 r2) []
                  end
                else if Ascii.eqb c "n" then literal "ull" JNull r
                else if Ascii.eqb c "t" then literal "rue" (JBool true) r
                else if Ascii.eqb c "f" then literal "alse" (JBool false) r
                else scan_number s
            end).
    cbn [parse_value].
    destruct s as [|c r]; [reflexivity|]. cbn [String.length] in Hf.
    destruct (Ascii.eqb c dquote); [reflexivity|].
    pose proof (skip_ws_length r) as Hw.
    destruct (Ascii.eqb c "{").
    { destruct (skip_ws r) as [|c1 r2]; [reflexivity|].
      cbn [String.length] in Hw.
      destruct (Ascii.eqb c1 "}"); [reflexivity|].
      destruct (Ascii.eqb c1 dquote); [|reflexivity].
      apply IHm. lia. }
    destruct (Ascii.eqb c "["); [|reflexivity].
    destruct (skip_ws r) as [|c1 r2]; [reflexivity|].
    destruct (Ascii.eqb c1 "]"); [reflexivity|].
    apply IHi. lia.
  - intros s values Hf.
    change (parse_items (S (S g)) strict s values)
      with (match parse_value (S g) strict s with
            | None => None
            | Some (v, r) =>
                match skip_ws r with
                | EmptyString => None
                | String c r1 =>
                    if Ascii.eqb c "]" then Some (JArr (values ++ [v]), r1)
                    else if Ascii.eqb c ","
                         then parse_items (S g) strict (skip_ws r1)
                                (values ++ [v])
                         else None
                end
            end).
    cbn [parse_items]. rewrite IHv by lia.
    destruct (parse_value g strict s) as [[v r]|] eqn:Hv; [|reflexivity].
    apply (proj1 (parse_length strict g)) in Hv.
    pose proof (skip_ws_length r) as Hw.
    destruct (skip_ws r) as [|c r1]; [reflexivity|].
    cbn [String.length] in Hw.
    destruct (Ascii.eqb c "]"); [reflexivity|].
    destruct (Ascii.eqb c ","); [|reflexivity].
    apply IHi. pose proof (skip_ws_length r1). lia.
  - intros s pairs Hf.
    change (parse_members (S (S g)) strict s pairs)
      with (match scanstring strict s with
            | None => None
            | Some (key, r) =>
                match skip_ws r with
                | EmptyString => None
                | String c r1 =>
                    if Ascii.eqb c ":" then
                      match parse_value (S g) strict (skip_ws r1) with
                      | None => None
                      | Some (v, r2) =>
                          match skip_ws r2 with
                          | EmptyString => None
                          | String c2 r3 =>
                              if Ascii.eqb c2 "}" then
                                Some (JObj (Dict.of_pairs
                                              (pairs ++ [(key, v)])), r3)
                              else if Ascii.eqb c2 "," then
                                match skip_ws r3 with
                                | EmptyString => None
                                | String q r4 =>
                                    if Ascii.eqb q dquote
                                    then parse_members (S g) strict r4
                                           (pairs ++ [(key, v)])
                                    else None
                                end
                              else None
                          end
                      end
                    else None
                end
            end).
    cbn [parse_members].
    destruct (scanstring strict s) as [[key r]|] eqn:Hs; [|reflexivity].
    apply scanstring_length in Hs. pose proof (skip_ws_length r) as Hw.
    destruct (skip_ws r) as [|c r1]; [reflexivity|].
    cbn [String.length] in Hw.
    destruct (Ascii.eqb c ":"); [|reflexivity].
    pose proof (skip_ws_length r1) as Hw1.
    rewrite IHv by lia.
    destruct (parse_value g strict (skip_ws r1)) as [[v r2]|] eqn:Hv;
      [|reflexivity].
    apply (proj1 (parse_length strict g)) in Hv.
    pose proof (skip_ws_length r2) as Hw2.
    destruct (skip_ws r2) as [|c2 r3]; [reflexivity|].
    cbn [String.length] in Hw2.
    destruct (Ascii.eqb c2 "}"); [reflexivity|].
    destruct (Ascii.eqb c2 ","); [|reflexivity].
    pose proof (skip_ws_length r3) as Hw3.
    destruct (skip_ws r3) as [|q r4]; [reflexivity|].
    cbn [String.length] in Hw3.
    destruct (Ascii.eqb q dquote); [|reflexivity].
    apply IHm. lia.
Qed.

(** [loads] gives the decoder all the fuel it can use: with any larger
    amount the result is the same, so [None] always stands for a text that
    the decoder refuses. *)
Lemma loads_fuel (strict : bool) (s : string) (extra : nat) :
  parse_value (2 * String.length s + 2 + extra) strict (skip_ws s)
  = parse_value (2 * String.length s + 2) strict (skip_ws s).
Proof.
  induction extra as [|extra IH]; [now rewrite Nat.add_0_r|].
  rewrite Nat.add_succ_r.
  rewrite (proj1 (parse_fuel_step strict _)); [exact IH|].
  pose proof (skip_ws_length s). lia.
Qed.

(** ** The methods and their names *)

Lemma invoke_method (D : deps) (svc : service) (p : proc) :
  invoke D svc p = method p (body_of D svc p).
Proof. destruct p; reflexivity. Qed.

(** ** Frame reasoning: what a computation leaves related *)

Section Frame.

(** [R w w'] relates the world before a computation to the world after it;
    [W] is the set of top-level keys of the output that may be assigned. *)
Variable R : world -> world -> Prop.
Variable W : string -> Prop.
Hypothesis R_refl : forall w, R w w.
Hypothesis R_trans : forall a b c, R a b -> R b c -> R a c.
Hypothesis R_call : forall rq w, R w (add_call rq w).
Hypothesis R_warning : forall msg w, R w (add_warning msg w).
Hypothesis R_set :
  forall k v w, W k -> R w (set_output (Dict.set k v (output w)) w).

Lemma keeps_ret {A : Type} (a : A) : keeps R (ret a).
Proof. intros w. apply R_refl. Qed.

Lemma keeps_raise {A : Type} (e : exn) : keeps R (@raise A e).
Proof. intros w. apply R_refl. Qed.

Lemma keeps_lift {A : Type} (r : outcome A) : keeps R (lift r).
Proof. intros w. apply R_refl. Qed.

Lemma keeps_bind {A B : Type} (m : M A) (k : A -> M B) :
  keeps R m -> (forall a, keeps R (k a)) -> keeps R (bind m k).
Proof.
  intros Hm Hk w. unfold bind. specialize (Hm w).
  destruct (m w) as [[a | e] w1]; cbn [snd] in *.
  - eapply R_trans; [exact Hm | apply Hk].
  - exact Hm.
Qed.

Lemma keeps_try {A : Type} (body handler : M A) (handles : exn -> bool) :
  keeps R body -> keeps R handler -> keeps R (try_except body handles handler).
Proof.
  intros Hb Hh w. unfold try_except. specialize (Hb w).
  destruct (body w) as [[a | e] w1]; cbn [snd] in *; [exact Hb|].
  destruct (handles e); cbn [snd]; [|exact Hb].
  eapply R_trans; [exact Hb | apply Hh].
Qed.

Lemma keeps_if {A : Type} (b : bool) (m1 m2 : M A) :
  keeps R m1 -> keeps R m2 -> keeps R (if b then m1 else m2).
Proof. now destruct b. Qed.

Lemma keeps_for_each {A : Type} (xs : list A) (body : A -> M unit) :
  (forall x, keeps R (body x)) -> keeps R (for_each xs body).
Proof.
  intros Hb. induction xs as [|x xs IH]; cbn [for_each].
  - apply keeps_ret.
  - apply keeps_bind; [apply Hb | intros _; exact IH].
Qed.

Lemma keeps_json_loads (strict : bool) (text : string) :
  keeps R (json_loads strict text).
Proof.
  unfold json_loads. destruct (PyJson.loads strict text);
    [apply keeps_ret | apply keeps_raise].
Qed.

Lemma keeps_get_resume : keeps R get_resume.
Proof. intros w. apply R_refl. Qed.

Lemma keeps_query_model (svc : service) (query : string) (mode : bool) :
  keeps R (query_model svc query mode).
Proof. intros w. apply R_call. Qed.

Lemma keeps_extract_pydantic (svc : service) (target : schema) :
  keeps R (extract_pydantic svc target).
Proof. intros w. apply R_call. Qed.

Lemma keeps_warning (msg : string) : keeps R (warning msg).
Proof. intros w. apply R_warning. Qed.

Lemma keeps_output_get (k : string) : keeps R (output_get k).
Proof. intros w. apply R_refl. Qed.

Lemma keeps_output_set (k : string) (v : json) :
  W k -> keeps R (output_set k v).
Proof. intros Hk w. now apply R_set. Qed.

Lemma keeps_output_set2 (k k2 : string) (v : json) :
  W k -> keeps R (output_set2 k k2 v).
Proof.
  intros Hk. unfold output_set2.
  apply keeps_bind; [apply keeps_output_get | intros inner].
  apply keeps_bind; [apply keeps_lift | intros inner'].
  now apply keeps_output_set.
Qed.

Lemma keeps_output_append (k : string) (v : json) :
  W k -> keeps R (output_append k v).
Proof.
  intros Hk. unfold output_append.
  apply keeps_bind; [apply keeps_output_get | intros inner].
  apply keeps_bind; [apply keeps_lift | intros inner'].
  now apply keeps_output_set.
Qed.

Variable D : deps.
Variable svc : service.

Lemma keeps_work_experience_line (text line : string) :
  W "work_output" -> keeps R (work_experience_line D svc text line).
Proof.
  intros HW. unfold work_experience_line.
  destruct (PyStr.contains "answer" (PyStr.lower line));
    [apply keeps_ret|].
  destruct (PyStr.split "," line) as [|entry0 rest];
    [apply keeps_raise|].
  destruct (String.eqb (PyStr.rstrip entry0) EmptyString);
    [apply keeps_ret|].
  apply keeps_bind; [apply keeps_query_model | intros out].
  apply keeps_bind; [apply keeps_json_loads | intros parsed].
  now apply keeps_output_append.
Qed.

Lemma keeps_body (p : proc) :
  (forall k, In k (writes p) -> W k) -> keeps R (body_of D svc p).
Proof.
  intros HW.
  assert (Hk : forall k, In k (writes p) -> forall v, keeps R (output_set k v))
    by (intros k Hin v; apply keeps_output_set, HW, Hin).
  assert (Hk2 : forall k, In k (writes p) ->
                          forall k2 v, keeps R (output_set2 k k2 v))
    by (intros k Hin k2 v; apply keeps_output_set2, HW, Hin).
  destruct p; cbn [body_of writes] in *;
    unfold extract_basic_info_body, merge_primary_keys,
      merge_contact_info, extract_skills_body,
      fallback_extract_skills_body, extract_education_body,
      fallback_extract_education_body, extract_work_experience_body,
      fallback_extract_work_experience_body;
    repeat first
      [ apply keeps_bind; [| intros ?]
      | apply keeps_try
      | apply keeps_if
      | apply keeps_ret
      | apply keeps_lift
      | apply keeps_get_resume
      | apply keeps_query_model
      | apply keeps_extract_pydantic
      | apply keeps_json_loads
      | apply Hk; cbn; tauto
      | apply Hk2; cbn; tauto ].
  apply keeps_for_each. intros line.
  apply keeps_work_experience_line, HW. cbn. tauto.
Qed.

Hypothesis R_event : forall ev w, R w (add_event ev w).

Lemma keeps_method (p : proc) (body : M unit) :
  keeps R body -> keeps R (method p body).
Proof.
  intros Hb w. unfold method. specialize (Hb (add_event (Enter p) w)).
  destruct (body (add_event (Enter p) w)) as [r w1]. cbn [snd] in *.
  eapply R_trans; [apply R_event|].
  eapply R_trans; [exact Hb | apply R_event].
Qed.

Lemma keeps_invoke (p : proc) :
  (forall k, In k (writes p) -> W k) -> keeps R (invoke D svc p).
Proof.
  intros HW. rewrite invoke_method. now apply keeps_method, keeps_body.
Qed.

Lemma keeps_process_file :
  (forall k, In k written_keys -> W k) -> keeps R (process_file D svc).
Proof.
  intros HW.
  assert (Hp : forall p, keeps R (invoke D svc p)).
  { intros p. apply keeps_invoke. intros k Hk. apply HW.
    destruct p; cbn in Hk |- *; tauto. }
  unfold process_file.
  repeat first
    [ apply keeps_bind; [| intros ?]
    | apply keeps_try
    | apply keeps_warning ].
  - apply (Hp ExtractBasicInfo).
  - apply (Hp ExtractWorkExperience).
  - apply (Hp FallbackExtractWorkExperience).
  - apply (Hp ExtractSkills).
  - apply (Hp FallbackExtractSkills).
  - apply (Hp ExtractEducation).
  - apply (Hp FallbackExtractEducation).
Qed.

End Frame.

(** ** Facts about dictionaries *)

Lemma keys_set_present {V : Type} (k : string) (v : V)
  (d : list (string * V)) :
  In k (Dict.keys d) -> Dict.keys (Dict.set k v d) = Dict.keys d.
Proof.
  induction d as [|[k' v'] d IH]; cbn; [tauto|].
  intros Hin. destruct (String.eqb_spec k k') as [-> | Hne]; cbn.
  - reflexivity.
  - f_equal. apply IH. destruct Hin as [Heq | Hin]; [congruence | exact Hin].
Qed.

Lemma get_set_same {V : Type} (k : string) (v : V) (d : list (string * V)) :
  Dict.get k (Dict.set k v d) = Some v.
Proof.
  induction d as [|[k' v'] d IH]; cbn.
  - now rewrite String.eqb_refl.
  - destruct (String.eqb_spec k k') as [-> | Hne]; cbn.
    + now rewrite String.eqb_refl.
    + apply String.eqb_neq in Hne. now rewrite Hne.
Qed.

Lemma get_set_other {V : Type} (k k' : string) (v : V)
  (d : list (string * V)) :
  k' <> k -> Dict.get k' (Dict.set k v d) = Dict.get k' d.
Proof.
  intros Hne. induction d as [|[k0 v0] d IH]; cbn.
  - apply String.eqb_neq in Hne. now rewrite Hne.
  - destruct (String.eqb_spec k k0) as [-> | Hne0]; cbn.
    + apply String.eqb_neq in Hne. now rewrite Hne.
    + now rewrite IH.
Qed.

(** ** Instances of the frame *)

(** The methods' bodies leave the trace alone. *)
Lemma body_silent (D : deps) (svc : service) (p : proc) (w : world) :
  trace (snd (body_of D svc p w)) = trace w.
Proof.
  apply (keeps_body (fun w w' => trace w' = trace w) (fun _ => True));
    try reflexivity; try tauto.
  intros a b c Hab Hbc. congruence.
Qed.

Lemma invoke_trace (D : deps) (svc : service) (p : proc) (w : world) :
  trace (snd (invoke D svc p w))
  = (trace w ++ [Enter p; Leave p (fst (invoke D svc p w))])%list.
Proof.
  rewrite invoke_method. unfold method.
  pose proof (body_silent D svc p (add_event (Enter p) w)) as Hs.
  destruct (body_of D svc p (add_event (Enter p) w)) as [r w1].
  cbn [fst snd] in *. cbn [add_event trace]. rewrite Hs. cbn [add_event trace].
  now rewrite <- app_assoc.
Qed.

Lemma same_keys_trans (W : string -> Prop) (a b c : world) :
  same_keys W a b -> same_keys W b c -> same_keys W a c.
Proof.
  unfold same_keys. intros Hab Hbc Ha. specialize (Hab Ha).
  rewrite <- Hab. apply Hbc. now rewrite Hab.
Qed.

Lemma same_keys_set (W : string -> Prop) (k : string) (v : json)
  (w : world) :
  W k -> same_keys W w (set_output (Dict.set k v (output w)) w).
Proof. intros Hk Hall. cbn. apply keys_set_present, Hall, Hk. Qed.

Lemma same_elsewhere_set (W : string -> Prop) (k : string) (v : json)
  (w : world) :
  W k -> same_elsewhere W w (set_output (Dict.set k v (output w)) w).
Proof.
  intros Hk k' Hk'. cbn. apply get_set_other. intros ->. tauto.
Qed.

Lemma same_elsewhere_trans (W : string -> Prop) (a b c : world) :
  same_elsewhere W a b -> same_elsewhere W b c -> same_elsewhere W a c.
Proof. intros Hab Hbc k Hk. rewrite (Hbc k Hk). now apply Hab. Qed.

Section OutputShape.

Variable D : deps.
Variable svc : service.

Lemma invoke_same_keys (p : proc) (w : world) :
  same_keys (fun k => In k (writes p)) w (snd (invoke D svc p w)).
Proof.
  set (W := fun k => In k (writes p)).
  exact (keeps_invoke (same_keys W) W
           (fun _ _ => eq_refl) (same_keys_trans W)
           (fun _ _ _ => eq_refl) (same_keys_set W) D svc
           (fun _ _ _ => eq_refl) p (fun _ H => H) w).
Qed.

Lemma invoke_same_elsewhere (p : proc) (w : world) :
  same_elsewhere (fun k => In k (writes p)) w (snd (invoke D svc p w)).
Proof.
  set (W := fun k => In k (writes p)).
  exact (keeps_invoke (same_elsewhere W) W
           (fun _ _ _ => eq_refl) (same_elsewhere_trans W)
           (fun _ _ _ _ => eq_refl) (same_elsewhere_set W) D svc
           (fun _ _ _ _ => eq_refl) p (fun _ H => H) w).
Qed.

Lemma process_file_same_keys (w : world) :
  same_keys (fun k => In k written_keys) w (snd (process_file D svc w)).
Proof.
  set (W := fun k => In k written_keys).
  exact (keeps_process_file (same_keys W) W
           (fun _ _ => eq_refl) (same_keys_trans W)
           (fun _ _ _ => eq_refl) (fun _ _ _ => eq_refl)
           (same_keys_set W) D svc
           (fun _ _ _ => eq_refl) (fun _ H => H) w).
Qed.

Lemma writes_written (p : proc) (k : string) :
  In k (writes p) -> In k written_keys.
Proof. destruct p; cbn; tauto. Qed.

(** C6.  When the output holds every key the methods assign, as the
    template does, no method and no run changes the list of its
    top-level keys, a method leaves the value under every key it does
    not assign as it was, and the manager starts from the template. *)
Theorem output_shape_fixed (w : world) :
  incl written_keys (Dict.keys (output w)) ->
  (forall p,
      let w' := snd (invoke D svc p w) in
      Dict.keys (output w') = Dict.keys (output w)
      /\ (forall k, ~ In k (writes p) ->
                    Dict.get k (output w') = Dict.get k (output w)))
  /\ Dict.keys (output (snd (process_file D svc w)))
     = Dict.keys (output w)
  /\ (forall fs file model extension w0,
         init D svc fs file model extension = Return w0 ->
         output w0 = output_template D).
Proof.
  intros Hkeys. split; [|split].
  - intros p w'. split.
    + apply invoke_same_keys. intros k Hk.
      apply Hkeys, (writes_written p k Hk).
    + apply invoke_same_elsewhere.
  - apply process_file_same_keys. intros k Hk. now apply Hkeys.
  - intros fs file model extension w0. unfold init.
    destruct (get_resume_content fs file extension); [|discriminate].
    destruct (chat_model svc model); [|discriminate].
    now intros [= <-].
Qed.

End OutputShape.

(** ** The schedule of a run *)

Section Schedule.

Variable D : deps.
Variable svc : service.

Lemma process_file_invoke :
  process_file D svc
  = (invoke D svc ExtractBasicInfo ;;
     try_except (invoke D svc ExtractWorkExperience) is_timeout
       (warning "Work extraction timed out" ;;
        invoke D svc FallbackExtractWorkExperience) ;;
     try_except (invoke D svc ExtractSkills) is_timeout
       (warning "Skills extraction timed out" ;;
        invoke D svc FallbackExtractSkills) ;;
     try_except (invoke D svc ExtractEducation) is_timeout
       (warning "Education extraction timed out" ;;
        invoke D svc FallbackExtractEducation)).
Proof. reflexivity. Qed.

Lemma schedule_of_run (run : proc -> M unit) :
  (forall p w,
      trace (snd (run p w))
      = (trace w ++ [Enter p; Leave p (fst (run p w))])%list) ->
  forall w,
    let res :=
      (run ExtractBasicInfo ;;
       try_except (run ExtractWorkExperience) is_timeout
         (warning "Work extraction timed out" ;;
          run FallbackExtractWorkExperience) ;;
       try_except (run ExtractSkills) is_timeout
         (warning "Skills extraction timed out" ;;
          run FallbackExtractSkills) ;;
       try_except (run ExtractEducation) is_timeout
         (warning "Education extraction timed out" ;;
          run FallbackExtractEducation)) w in
    exists t, trace (snd res) = (trace w ++ t)%list
              /\ schedule_property (fst res) t.
Proof.
  intros Hrun w. cbv zeta. unfold bind, try_except, warning.
  run_step run Hrun ExtractBasicInfo; cbn [fst snd is_timeout];
    [| close_schedule ..].
  run_step run Hrun ExtractWorkExperience; cbn [fst snd is_timeout];
    try solve [close_schedule].
  all: try (run_step run Hrun FallbackExtractWorkExperience;
            cbn [fst snd is_timeout]; try solve [close_schedule]).
  all: run_step run Hrun ExtractSkills; cbn [fst snd is_timeout];
    try solve [close_schedule].
  all: try (run_step run Hrun FallbackExtractSkills;
            cbn [fst snd is_timeout]; try solve [close_schedule]).
  all: run_step run Hrun ExtractEducation; cbn [fst snd is_timeout];
    try solve [close_schedule].
  all: run_step run Hrun FallbackExtractEducation;
    cbn [fst snd is_timeout]; close_schedule.
Qed.

(** C1.  In every run of [process_file] the methods are entered in the
    fixed order basic info, work experience, skills, education, each
    fallback after its primary attempt; a fallback is entered exactly when
    the primary attempt of its section was left with the time-out
    exception, and then exactly once; any other exception that leaves a
    method, and any exception that leaves a method without fallback, is
    the outcome of the run and the last event of its trace.  A run that
    returns has made the four primary attempts. *)
Theorem process_file_schedule (w : world) :
  exists t,
    trace (snd (process_file D svc w)) = (trace w ++ t)%list
    /\ subsequence (entered t) schedule = true
    /\ is_prefix (filter is_primary (entered t)) primaries = true
    /\ (fst (process_file D svc w) = Return tt ->
        filter is_primary (entered t) = primaries)
    /\ (forall p f, fallback_of p = Some f ->
          (In (Enter f) t <-> In (Leave p (Raise APITimeoutError)) t)
          /\ invocations f t <= 1
          /\ (In (Enter f) t -> invocations f t = 1))
    /\ (forall p e, In (Leave p (Raise e)) t ->
          fallback_of p = None \/ is_timeout e = false ->
          fst (process_file D svc w) = Raise e
          /\ last t (Enter p) = Leave p (Raise e)).
Proof.
  rewrite process_file_invoke.
  exact (schedule_of_run (invoke D svc) (invoke_trace D svc) w).
Qed.

End Schedule.

Section TwoStates.

Variable D : deps.
Variable svc : service.

Lemma process_file_sections :
  process_file D svc
  = (extract_basic_info D svc ;;
     section_block D svc ExtractWorkExperience
       FallbackExtractWorkExperience "Work extraction timed out" ;;
     section_block D svc ExtractSkills
       FallbackExtractSkills "Skills extraction timed out" ;;
     section_block D svc ExtractEducation
       FallbackExtractEducation "Education extraction timed out").
Proof. reflexivity. Qed.

Lemma section_block_states (p f : proc) (msg : string) (w : world) :
  let res := section_block D svc p f msg w in
  exists t,
    trace (snd res) = (trace w ++ t)%list
    /\ ((t = [Enter p; Leave p (Return tt)] /\ fst res = Return tt)
        \/ (t = [Enter p; Leave p (Raise APITimeoutError);
                 Enter f; Leave f (fst res)])
        \/ (exists e, is_timeout e = false
                      /\ t = [Enter p; Leave p (Raise e)]
                      /\ fst res = Raise e)).
Proof.
  cbv zeta. unfold section_block, try_except, bind, warning.
  pose proof (invoke_trace D svc p w) as T.
  destruct (invoke D svc p w) as [[[] | e] w1]; cbn [fst snd] in *.
  - eexists. split; [exact T | left; split; reflexivity].
  - destruct (is_timeout e) eqn:He.
    + destruct e; try discriminate He.
      pose proof (invoke_trace D svc f
                    (add_warning msg w1)) as T2.
      destruct (invoke D svc f (add_warning msg w1)) as [r w2].
      cbn [fst snd add_warning trace] in *.
      eexists. split; [| right; left; reflexivity].
      rewrite T2, T, <- app_assoc. reflexivity.
    + eexists. split; [exact T |].
      right; right. exists e. repeat split; assumption.
Qed.

(** C2 as amended.  The run is the basic-info attempt followed by the
    three sections work experience, skills and education.  Each of the
    three follows the two-state pattern: the primary attempt, then the
    fallback when and only when the attempt was left with the time-out
    exception.  Basic info has a primary attempt only: when it raises,
    a time-out included, the run ends with that exception and nothing
    else is entered. *)
Theorem sections_two_states (w : world) :
  process_file D svc
  = (extract_basic_info D svc ;;
     section_block D svc ExtractWorkExperience
       FallbackExtractWorkExperience "Work extraction timed out" ;;
     section_block D svc ExtractSkills
       FallbackExtractSkills "Skills extraction timed out" ;;
     section_block D svc ExtractEducation
       FallbackExtractEducation "Education extraction timed out")
  /\ (forall e,
      fst (extract_basic_info D svc w) = Raise e ->
      process_file D svc w = extract_basic_info D svc w
      /\ trace (snd (process_file D svc w))
         = (trace w ++ [Enter ExtractBasicInfo;
                        Leave ExtractBasicInfo (Raise e)])%list)
  /\ (forall p f msg w1,
         fallback_of p = Some f ->
         let res := section_block D svc p f msg w1 in
         exists t,
           trace (snd res) = (trace w1 ++ t)%list
           /\ ((t = [Enter p; Leave p (Return tt)] /\ fst res = Return tt)
               \/ (t = [Enter p; Leave p (Raise APITimeoutError);
                        Enter f; Leave f (fst res)])
               \/ (exists e, is_timeout e = false
                             /\ t = [Enter p; Leave p (Raise e)]
                             /\ fst res = Raise e))).
Proof.
  split; [exact process_file_sections|]. split.
  - intros e He.
    assert (Heq : process_file D svc w = extract_basic_info D svc w).
    { rewrite process_file_sections. unfold bind at 1.
      destruct (extract_basic_info D svc w) as [[[] | e'] w1];
        [discriminate He | reflexivity]. }
    split; [exact Heq|]. rewrite Heq.
    pose proof (invoke_trace D svc ExtractBasicInfo w) as T.
    cbn [invoke] in T. now rewrite He in T.
  - intros p f msg w1 _. apply section_block_states.
Qed.

End TwoStates.

(** C2 as stated fails: when every call to the model times out, the time-out
    of the basic-info attempt ends the run; one request was sent, no method
    other than [extract_basic_info] was entered and no warning was logged. *)
Lemma basic_info_timeout_aborts_run :
  let res := process_file Stub.deps0 Stub.down (Stub.fresh "Jane Doe") in
  fst (extract_basic_info Stub.deps0 Stub.down (Stub.fresh "Jane Doe"))
  = Raise APITimeoutError
  /\ fst res = Raise APITimeoutError
  /\ trace (snd res)
     = [Enter ExtractBasicInfo;
        Leave ExtractBasicInfo (Raise APITimeoutError)]
  /\ calls (snd res)
     = [ChatCompletion "gpt-3.5-turbo-1106" "BASIC Jane Doe" true]
  /\ warnings (snd res) = []
  /\ output (snd res) = spec_output_template.
Proof. vm_compute. repeat split. Qed.

(** ** Inversion of computations that return *)

Lemma bind_return {A B : Type} (m : M A) (k : A -> M B) (w w' : world)
  (b : B) :
  bind m k w = (Return b, w') ->
  exists a w1, m w = (Return a, w1) /\ k a w1 = (Return b, w').
Proof.
  unfold bind. destruct (m w) as [[a | e] w1]; [|discriminate].
  intros H. now exists a, w1.
Qed.

Lemma output_set2_return (k k2 : string) (v : json) (w w' : world) :
  output_set2 k k2 v w = (Return tt, w') ->
  exists info,
    Dict.get k (output w) = Some (JObj info)
    /\ output w' = Dict.set k (JObj (Dict.set k2 v info)) (output w).
Proof.
  unfold output_set2, bind, output_get, lift, output_set, getitem, setitem.
  destruct (Dict.get k (output w)) as [inner|]; [|discriminate].
  destruct inner; try discriminate.
  intros [= <-]. now eexists.
Qed.

Lemma method_return (p : proc) (body : M unit) (w w' : world) :
  method p body w = (Return tt, w') ->
  exists w1, body (add_event (Enter p) w) = (Return tt, w1)
             /\ output w' = output w1.
Proof.
  unfold method. destruct (body (add_event (Enter p) w)) as [r w1].
  intros [= -> <-]. now exists w1.
Qed.

Section BasicInfo.

Variable D : deps.

Lemma basic_info_contacts (svc : service) (w w' : world) :
  extract_basic_info D svc w = (Return tt, w') ->
  contact_field "email_address" w' = Some (extract_emails D (resume w))
  /\ contact_field "personal_urls" w'
     = Some (extract_github_and_linkedin_urls D (resume w)).
Proof.
  intros H. apply method_return in H as (w1 & H & Hout).
  unfold extract_basic_info_body in H.
  apply bind_return in H as (text & wa & Ha & H).
  unfold get_resume in Ha. injection Ha as <- <-.
  cbn [add_event resume] in H.
  do 3 (apply bind_return in H as (? & ? & _ & H)).
  unfold merge_contact_info in H.
  do 4 (apply bind_return in H as (? & ? & _ & H)).
  apply bind_return in H as ([] & wb & Hemail & Hurls).
  apply output_set2_return in Hemail as (info & Hget & Hwb).
  apply output_set2_return in Hurls as (info' & Hget' & Hw1).
  rewrite Hwb, get_set_same in Hget'. injection Hget' as <-.
  unfold contact_field. rewrite Hout, Hw1, get_set_same.
  split.
  - rewrite get_set_other by discriminate. apply get_set_same.
  - apply get_set_same.
Qed.

(** C8.  Whatever the model answers, a call of [extract_basic_info] that
    returns leaves in the contact info the addresses and the URLs that the
    two extractors find in the resume text: two such calls on the same
    resume text, with any two services and any two outputs to start from,
    agree on both fields. *)
Theorem contacts_from_resume_only (svc1 svc2 : service) (w1 w2 : world) :
  resume w1 = resume w2 ->
  fst (extract_basic_info D svc1 w1) = Return tt ->
  fst (extract_basic_info D svc2 w2) = Return tt ->
  let w1' := snd (extract_basic_info D svc1 w1) in
  let w2' := snd (extract_basic_info D svc2 w2) in
  contact_field "email_address" w1' = contact_field "email_address" w2'
  /\ contact_field "personal_urls" w1' = contact_field "personal_urls" w2'
  /\ contact_field "email_address" w1'
     = Some (extract_emails D (resume w1))
  /\ contact_field "personal_urls" w1'
     = Some (extract_github_and_linkedin_urls D (resume w1)).
Proof.
  intros Hres H1 H2 w1' w2'. subst w1' w2'.
  destruct (extract_basic_info D svc1 w1) as [r1 w1'] eqn:E1.
  destruct (extract_basic_info D svc2 w2) as [r2 w2'] eqn:E2.
  cbn [fst snd] in *. subst r1 r2.
  destruct (basic_info_contacts svc1 w1 w1' E1) as [He1 Hu1].
  destruct (basic_info_contacts svc2 w2 w2' E2) as [He2 Hu2].
  rewrite He1, Hu1, He2, Hu2, Hres. auto.
Qed.

End BasicInfo.

(** ** The raw text of the fallbacks and its JSON round trip *)

Lemma distinct_set_keys {V : Type} (k : string) (v : V)
  (d : list (string * V)) :
  distinct (map fst d) = true -> distinct (map fst (Dict.set k v d)) = true.
Proof.
  destruct (existsb (String.eqb k) (map fst d)) eqn:Hin.
  - intros H. change (map fst ?x) with (Dict.keys x).
    rewrite keys_set_present; [exact H|].
    apply existsb_exists in Hin as (x & Hx & Heq).
    apply String.eqb_eq in Heq. now subst.
  - intros H. rewrite set_fresh by assumption. rewrite map_app. cbn.
    clear -H Hin. induction (map fst d) as [|x l IH]; [reflexivity|].
    cbn in *. apply andb_prop in H as [Hx Hl].
    apply orb_false_elim in Hin as [Hk Hin].
    rewrite (IH Hin Hl), andb_true_r. apply negb_true_iff.
    apply negb_true_iff in Hx. rewrite existsb_app, Hx. cbn.
    now rewrite String.eqb_sym, Hk.
Qed.

Lemma forallb_set (P : json -> bool) (k : string) (v : json)
  (d : list (string * json)) :
  forallb (fun kv => P (snd kv)) d = true -> P v = true ->
  forallb (fun kv => P (snd kv)) (Dict.set k v d) = true.
Proof.
  intros Hd Hv. induction d as [|[k' v'] d IH]; cbn in *.
  - now rewrite Hv.
  - apply andb_prop in Hd as [Hv' Hd].
    destruct (String.eqb k k'); cbn.
    + now rewrite Hv, Hd.
    + now rewrite Hv', IH.
Qed.

Lemma unique_keys_set (k : string) (v : json) (d : list (string * json)) :
  unique_keys (JObj d) = true -> unique_keys v = true ->
  unique_keys (JObj (Dict.set k v d)) = true.
Proof.
  cbn [unique_keys]. intros Hd Hv. apply andb_prop in Hd as [Hk Hvals].
  rewrite distinct_set_keys by assumption.
  now rewrite (forallb_set unique_keys).
Qed.

Section FallbackText.

Variable D : deps.
Variable svc : service.

Lemma fallback_skills_run (w : world) (text : string) :
  chat svc (List.length (calls w)) (fallback_skills_query (resume w)) false
  = Return text ->
  output (snd (fallback_extract_skills svc w))
  = Dict.set "skills" (JStr text) (output w).
Proof.
  intros H. unfold fallback_extract_skills, method,
    fallback_extract_skills_body, bind, get_resume, query_model.
  cbn [add_event calls resume]. now rewrite H.
Qed.

Lemma fallback_education_run (w : world) (text : string) :
  chat svc (List.length (calls w))
    (fallback_education_prompt D (resume w)) false = Return text ->
  output (snd (fallback_extract_education D svc w))
  = Dict.set "education" (JStr text) (output w).
Proof.
  intros H. unfold fallback_extract_education, method,
    fallback_extract_education_body, bind, get_resume, query_model.
  cbn [add_event calls resume]. now rewrite H.
Qed.

(** C7.  The skills fallback and the education fallback store the text of
    the model's reply, as a string, under [skills] and under [education];
    writing the output as JSON and reading the text back gives a
    dictionary that holds the same string under the same key. *)
Theorem fallback_text_round_trip (w : world) (text : string) :
  unique_keys (JObj (output w)) = true ->
  (chat svc (List.length (calls w)) (fallback_skills_query (resume w))
     false = Return text ->
   let w' := snd (fallback_extract_skills svc w) in
   Dict.get "skills" (output w') = Some (JStr text)
   /\ exists o,
        PyJson.loads true (PyJson.dumps (JObj (output w'))) = Some (JObj o)
        /\ Dict.get "skills" o = Some (JStr text))
  /\ (chat svc (List.length (calls w))
        (fallback_education_prompt D (resume w)) false = Return text ->
      let w' := snd (fallback_extract_education D svc w) in
      Dict.get "education" (output w') = Some (JStr text)
      /\ exists o,
           PyJson.loads true (PyJson.dumps (JObj (output w')))
           = Some (JObj o)
           /\ Dict.get "education" o = Some (JStr text)).
Proof.
  intros Hu. split; intros H w'; subst w'.
  - rewrite (fallback_skills_run w text H).
    split; [apply get_set_same|].
    eexists. split; [| apply get_set_same].
    apply loads_dumps. now apply unique_keys_set.
  - rewrite (fallback_education_run w text H).
    split; [apply get_set_same|].
    eexists. split; [| apply get_set_same].
    apply loads_dumps. now apply unique_keys_set.
Qed.

End FallbackText.

(** ** The work-experience fallback *)

Lemma split_cons (sep : ascii) (s : string) :
  exists entry0 rest, PyStr.split sep s = entry0 :: rest.
Proof.
  induction s as [|c s (h & t & IH)]; cbn [PyStr.split].
  - now eexists _, _.
  - destruct (Ascii.eqb c sep); [now eexists _, _|].
    rewrite IH. now eexists _, _.
Qed.

Section WorkFallback.

Variable D : deps.
Variable svc : service.

Lemma skipped_line (text line : string) (w : world) :
  surviving line = false ->
  work_experience_line D svc text line w = (Return tt, w).
Proof.
  unfold surviving, first_field, work_experience_line.
  destruct (PyStr.contains "answer" (PyStr.lower line)); [reflexivity|].
  destruct (split_cons "," line) as (entry0 & rest & ->).
  cbn [negb andb].
  destruct (String.eqb (PyStr.rstrip entry0) EmptyString);
    [reflexivity | discriminate].
Qed.

Lemma surviving_line (text line : string) (w : world) (items : list json)
  (reply : string) (v : json) :
  surviving line = true ->
  Dict.get "work_output" (output w) = Some (JArr items) ->
  chat svc (List.length (calls w)) (structured_query D text line) true
  = Return reply ->
  PyJson.loads false reply = Some v ->
  work_experience_line D svc text line w
  = (Return tt,
     set_output
       (Dict.set "work_output" (JArr (items ++ [v])) (output w))
       (add_call (ChatCompletion (model_name w)
                    (structured_query D text line) true) w)).
Proof.
  unfold surviving, structured_query, first_field, second_field,
    work_experience_line.
  destruct (PyStr.contains "answer" (PyStr.lower line)); [discriminate|].
  destruct (PyStr.split "," line) as [|entry0 rest]; [discriminate|].
  cbn [negb andb].
  destruct (String.eqb (PyStr.rstrip entry0) EmptyString);
    [discriminate|].
  intros _ Hget Hchat Hloads.
  unfold bind at 1 2. unfold query_model, json_loads.
  replace (match rest with
           | [] => EmptyString
           | entry1 :: _ => PyStr.rstrip entry1
           end)
    with (match rest with
          | entry1 :: _ => PyStr.rstrip entry1
          | [] => EmptyString
          end) in Hchat by now destruct rest.
  rewrite Hchat, Hloads. unfold ret.
  unfold output_append, bind, output_get, lift, output_set, getitem.
  cbn [add_call output]. rewrite Hget. reflexivity.
Qed.

Lemma work_loop (text : string) :
  answers_json svc ->
  forall (lines : list string) (w : world) (items : list json),
    Dict.get "work_output" (output w) = Some (JArr items) ->
    let queries := map (structured_query D text) (filter surviving lines) in
    exists w' results,
      for_each lines (work_experience_line D svc text) w = (Return tt, w')
      /\ calls w'
         = (calls w
            ++ map (fun q => ChatCompletion (model_name w) q true)
                 queries)%list
      /\ Dict.get "work_output" (output w')
         = Some (JArr (items ++ results)%list)
      /\ map Some results = replies svc (List.length (calls w)) queries.
Proof.
  intros Hsvc lines.
  induction lines as [|line lines IH]; intros w items Hget queries;
    subst queries; cbn [for_each filter].
  - exists w, []. cbn. rewrite !app_nil_r. auto.
  - destruct (surviving line) eqn:Hline; unfold bind.
    + destruct (Hsvc (List.length (calls w))
                  (structured_query D text line)) as (reply & v & Hc & Hl).
      rewrite (surviving_line text line w items reply v Hline Hget Hc Hl).
      set (w1 := set_output _ _).
      destruct (IH w1 (items ++ [v])%list) as (w' & results & Hrun & Hcalls
                                                & Hout & Hres).
      { subst w1. cbn [set_output output]. apply get_set_same. }
      exists w', (v :: results). rewrite Hrun.
      split; [reflexivity|]. split; [|split].
      * rewrite Hcalls. subst w1. cbn [set_output add_call calls model_name].
        cbn [map]. now rewrite <- app_assoc.
      * rewrite Hout. now rewrite <- app_assoc.
      * cbn [map replies]. rewrite Hc, Hl. f_equal.
        rewrite Hres. subst w1. cbn [set_output add_call calls].
        rewrite length_app. cbn [List.length].
        now rewrite Nat.add_1_r.
    + rewrite (skipped_line text line w Hline).
      exact (IH w items Hget).
Qed.

(** C4.  When the enumeration call returns a text, the output holds a
    list of work experiences and every JSON-mode call is answered with
    text that the lenient decoder accepts, the fallback returns; it has
    sent the enumeration call and then, in order, one JSON-mode call for
    each line of the text that does not contain the word answer in any
    letter case and whose first comma-separated field is not empty once
    its trailing white space is removed, and no other call; the role of
    a line with no second field is the empty string; and the parsed
    replies are appended, in order, to the list of work experiences. *)
Theorem work_fallback_calls (w : world) (text : string)
  (items : list json) :
  chat svc (List.length (calls w)) (companies_prompt D (resume w)) false
  = Return text ->
  Dict.get "work_output" (output w) = Some (JArr items) ->
  answers_json svc ->
  let res := fallback_extract_work_experience D svc w in
  let lines := filter surviving (PyStr.split "010" text) in
  let queries := map (structured_query D (resume w)) lines in
  fst res = Return tt
  /\ calls (snd res)
     = (calls w
        ++ ChatCompletion (model_name w) (companies_prompt D (resume w))
             false
        :: map (fun q => ChatCompletion (model_name w) q true) queries)%list
  /\ (exists results,
        Dict.get "work_output" (output (snd res))
        = Some (JArr (items ++ results)%list)
        /\ map Some results
           = replies svc (S (List.length (calls w))) queries)
  /\ (forall line entry0,
        PyStr.split "," line = [entry0] -> second_field line = EmptyString).
Proof.
  intros Hchat Hget Hsvc res lines queries. subst res lines queries.
  unfold fallback_extract_work_experience, method,
    fallback_extract_work_experience_body, bind, get_resume, query_model.
  cbn [add_event calls resume model_name]. rewrite Hchat.
  set (w1 := add_call _ _).
  destruct (work_loop (resume w) Hsvc (PyStr.split "010" text) w1 items)
    as (w' & results & Hrun & Hcalls & Hout & Hres).
  { subst w1. exact Hget. }
  rewrite Hrun. cbn [fst snd add_event calls output].
  split; [reflexivity|]. split; [|split].
  - rewrite Hcalls. subst w1. cbn [add_call add_event calls model_name].
    now rewrite <- app_assoc.
  - exists results. split; [exact Hout|].
    rewrite Hres. subst w1. cbn [add_call add_event calls].
    rewrite length_app. cbn [List.length]. now rewrite Nat.add_1_r.
  - intros line entry0 Hsplit. unfold second_field. now rewrite Hsplit.
Qed.

End WorkFallback.

(** ** What [extract_basic_info] does with the three primary keys *)

Section PrimaryKeys.

Variable D : deps.
Variable svc : service.

Lemma contact_info_elsewhere (out : json) (text : string) (w : world) :
  same_elsewhere (fun k => k = "contact_info") w
    (snd (merge_contact_info D out text w)).
Proof.
  set (W := fun k => k = "contact_info").
  assert (Hset : forall k2 v, keeps (same_elsewhere W)
                                (output_set2 "contact_info" k2 v)).
  { intros k2 v.
    exact (keeps_output_set2 (same_elsewhere W) W
             (fun _ _ _ => eq_refl) (same_elsewhere_trans W)
             (same_elsewhere_set W) "contact_info" k2 v eq_refl). }
  assert (Hbind : forall (A B : Type) (m : M A) (k : A -> M B),
             keeps (same_elsewhere W) m ->
             (forall a, keeps (same_elsewhere W) (k a)) ->
             keeps (same_elsewhere W) (bind m k))
    by (intros A B; apply keeps_bind, same_elsewhere_trans).
  assert (Hlift : forall (A : Type) (r : outcome A),
             keeps (same_elsewhere W) (lift r))
    by (intros A r w0 k Hk; reflexivity).
  assert (Hret : keeps (same_elsewhere W) (ret tt))
    by (intros w0 k Hk; reflexivity).
  unfold merge_contact_info.
  repeat first
    [ apply Hset
    | apply Hlift
    | exact Hret
    | apply Hbind; [| intros ?]
    | match goal with
      | |- keeps _ (if ?b then _ else _) => destruct b; cbv iota
      end ].
Qed.

Lemma merge_primary_keys_dict (fields : list (string * json)) (w : world) :
  merge_primary_keys (JObj fields) w
  = (Return tt, set_output (primary_keys_merged fields (output w)) w).
Proof.
  unfold merge_primary_keys, primary_keys_merged, try_except, bind, lift,
    getitem, output_set, ret.
  destruct w as [o r m c ws t]. cbn [output set_output].
  destruct (Dict.get "name" fields); cbn; [|reflexivity].
  destruct (Dict.get "job_title" fields); cbn; [|reflexivity].
  destruct (Dict.get "bio" fields); reflexivity.
Qed.

Lemma primary_keys_merged_contact (fields o : list (string * json)) :
  Dict.get "contact_info" (primary_keys_merged fields o)
  = Dict.get "contact_info" o.
Proof.
  unfold primary_keys_merged.
  destruct (Dict.get "name" fields); [|reflexivity].
  destruct (Dict.get "job_title" fields);
    [| now rewrite get_set_other by discriminate].
  destruct (Dict.get "bio" fields);
    now rewrite ?get_set_other by discriminate.
Qed.

Lemma output_set2_dict (k k2 : string) (v : json) (w : world)
  (info : list (string * json)) :
  Dict.get k (output w) = Some (JObj info) ->
  output_set2 k k2 v w
  = (Return tt,
     set_output (Dict.set k (JObj (Dict.set k2 v info)) (output w)) w).
Proof.
  intros H. unfold output_set2, bind, output_get, lift, getitem, setitem,
    output_set.
  now rewrite H.
Qed.

Lemma mem_get {V : Type} (k : string) (d : list (string * V)) :
  Dict.mem k d = true -> exists v, Dict.get k d = Some v.
Proof.
  unfold Dict.mem. destruct (Dict.get k d) as [v|]; [|discriminate].
  now exists v.
Qed.

(** With a dictionary under [contact_info], the contact part returns for
    every reply that is a dictionary. *)
Lemma merge_contact_info_returns (fields : list (string * json))
  (text : string) (w : world) (info : list (string * json)) :
  Dict.get "contact_info" (output w) = Some (JObj info) ->
  fst (merge_contact_info D (JObj fields) text w) = Return tt.
Proof.
  intros Hinfo. unfold merge_contact_info.
  unfold bind at 1. unfold lift at 1, contains_key at 1.
  assert (Hstep : forall (present : bool) (key k2 : string) (w0 : world)
                         (info0 : list (string * json)),
             Dict.get "contact_info" (output w0) = Some (JObj info0) ->
             present = Dict.mem key fields ->
             exists w1 info1,
               (if present
                then v <- lift (getitem (JObj fields) key) ;;
                     output_set2 "contact_info" k2 v
                else ret tt) w0 = (Return tt, w1)
               /\ Dict.get "contact_info" (output w1) = Some (JObj info1)).
  { intros present key k2 w0 info0 H0 Hp. destruct present.
    - destruct (mem_get key fields (eq_sym Hp)) as [v Hv].
      unfold bind, lift, getitem. rewrite Hv.
      rewrite (output_set2_dict _ _ _ _ _ H0).
      eexists _, _. split; [reflexivity|]. cbn [set_output output].
      apply get_set_same.
    - exists w0, info0. now split. }
  destruct (Hstep (Dict.mem "location" fields) "location" "location" w info
              Hinfo eq_refl) as (w1 & info1 & Hrun1 & Hinfo1).
  unfold bind at 1. rewrite Hrun1.
  unfold bind at 1. unfold lift at 1, contains_key at 1.
  destruct (Hstep (Dict.mem "phone" fields) "phone" "phone_number" w1 info1
              Hinfo1 eq_refl) as (w2 & info2 & Hrun2 & Hinfo2).
  unfold bind at 1. rewrite Hrun2.
  unfold bind. rewrite (output_set2_dict _ _ _ _ _ Hinfo2).
  erewrite output_set2_dict; [reflexivity|].
  cbn [set_output output]. apply get_set_same.
Qed.

(** What holds of C3 on the code: for every reply that is a JSON object,
    and an output with a dictionary under [contact_info], the call returns;
    [candidate_name] is assigned when the reply has [name], [job_title]
    when it has [name] and [job_title], [bio] when it has all three, and a
    field that is not assigned keeps its value. *)
Lemma basic_info_primary_fields (w : world) (text : string)
  (fields info : list (string * json)) :
  chat svc (List.length (calls w)) (basic_details_prompt D (resume w)) true
  = Return text ->
  PyJson.loads true text = Some (JObj fields) ->
  Dict.get "contact_info" (output w) = Some (JObj info) ->
  let res := extract_basic_info D svc w in
  let field k := Dict.get k (output (snd res)) in
  fst res = Return tt
  /\ field "candidate_name"
     = match Dict.get "name" fields with
       | Some v => Some v
       | None => Dict.get "candidate_name" (output w)
       end
  /\ field "job_title"
     = match Dict.get "name" fields, Dict.get "job_title" fields with
       | Some _, Some v => Some v
       | _, _ => Dict.get "job_title" (output w)
       end
  /\ field "bio"
     = match Dict.get "name" fields, Dict.get "job_title" fields,
             Dict.get "bio" fields with
       | Some _, Some _, Some v => Some v
       | _, _, _ => Dict.get "bio" (output w)
       end.
Proof.
  intros Hchat Hloads Hinfo.
  set (w0 := set_output (primary_keys_merged fields (output w))
               (add_call (ChatCompletion (model_name w)
                            (basic_details_prompt D (resume w)) true)
                  (add_event (Enter ExtractBasicInfo) w))).
  assert (Hrun : extract_basic_info D svc w
                 = (fst (merge_contact_info D (JObj fields) (resume w) w0),
                    add_event
                      (Leave ExtractBasicInfo
                         (fst (merge_contact_info D (JObj fields)
                                 (resume w) w0)))
                      (snd (merge_contact_info D (JObj fields)
                              (resume w) w0)))).
  { unfold extract_basic_info, method, extract_basic_info_body.
    unfold bind at 1 2 3. unfold get_resume, query_model, json_loads.
    cbn [add_event calls resume model_name]. rewrite Hchat, Hloads.
    unfold ret, bind. rewrite merge_primary_keys_dict.
    match goal with
    | |- (let (r, w') := ?run in _) = _ =>
        change run with (merge_contact_info D (JObj fields) (resume w) w0)
    end.
    now destruct (merge_contact_info D (JObj fields) (resume w) w0). }
  rewrite Hrun. cbv zeta. cbn [fst snd add_event output].
  pose proof (contact_info_elsewhere (JObj fields) (resume w) w0)
    as Hframe.
  split.
  { apply (merge_contact_info_returns fields (resume w) w0 info).
    subst w0. cbn [set_output output].
    now rewrite primary_keys_merged_contact. }
  rewrite !Hframe by discriminate.
  subst w0. cbn [set_output output]. unfold primary_keys_merged.
  destruct (Dict.get "name" fields); [|repeat split].
  destruct (Dict.get "job_title" fields).
  - destruct (Dict.get "bio" fields);
      rewrite ?get_set_same, ?get_set_other by discriminate;
      rewrite ?get_set_same, ?get_set_other by discriminate;
      rewrite ?get_set_same, ?get_set_other by discriminate;
      repeat split.
  - rewrite ?get_set_same, ?get_set_other by discriminate. repeat split.
Qed.

End PrimaryKeys.

(** C3 at the response of the spec's example.  The reply is a JSON object
    with the one key [job_title]; the call returns, and [job_title] is left
    at its default, as are [candidate_name] and [bio]. *)
Lemma basic_info_job_title_only :
  let res := extract_basic_info Stub.deps0 (Stub.always Stub.job_title_only)
               (Stub.fresh "Jane Doe") in
  PyJson.loads true Stub.job_title_only
  = Some (JObj [("job_title", JStr "Engineer")])
  /\ fst res = Return tt
  /\ Dict.get "job_title" (output (snd res)) = Some (JStr EmptyString)
  /\ Dict.get "candidate_name" (output (snd res)) = Some (JStr EmptyString)
  /\ Dict.get "bio" (output (snd res)) = Some (JStr EmptyString).
Proof. vm_compute. repeat split. Qed.

(** ** The theorems at concrete inputs *)

(** A run in which the extraction chain times out: both chain sections fall
    back, the skills section does not. *)
Example run_with_fallbacks :
  let res := process_file Stub.deps0 Stub.chain_down (Stub.fresh "Jane") in
  fst res = Return tt
  /\ trace (snd res)
     = [Enter ExtractBasicInfo; Leave ExtractBasicInfo (Return tt);
        Enter ExtractWorkExperience;
        Leave ExtractWorkExperience (Raise APITimeoutError);
        Enter FallbackExtractWorkExperience;
        Leave FallbackExtractWorkExperience (Return tt);
        Enter ExtractSkills; Leave ExtractSkills (Return tt);
        Enter ExtractEducation;
        Leave ExtractEducation (Raise APITimeoutError);
        Enter FallbackExtractEducation;
        Leave FallbackExtractEducation (Return tt)]
  /\ warnings (snd res)
     = ["Work extraction timed out"; "Education extraction timed out"]
  /\ List.length (calls (snd res)) = 8.
Proof. vm_compute. repeat split. Qed.

(** A reply that is not JSON ends the run in the basic-info section. *)
Example malformed_reply_is_fatal :
  let res := process_file Stub.deps0 (Stub.always "not json")
               (Stub.fresh "Jane") in
  fst res = Raise JSONDecodeError
  /\ trace (snd res)
     = [Enter ExtractBasicInfo; Leave ExtractBasicInfo (Raise JSONDecodeError)].
Proof. vm_compute. repeat split. Qed.

(** A reply without the key [skills] ends the run in the skills section:
    the missing key is not a time-out. *)
Example missing_key_is_fatal :
  let res := process_file Stub.deps0 (Stub.always "{}") (Stub.fresh "Jane") in
  fst res = Raise (KeyError "skills")
  /\ entered (trace (snd res))
     = [ExtractBasicInfo; ExtractWorkExperience; ExtractSkills].
Proof. vm_compute. repeat split. Qed.

(** The end-to-end scenario of the specification: the name comes from the
    basic-info reply, the skills from the skills reply. *)
Example end_to_end_scenario :
  let res := process_file Stub.deps0 Stub.scenario
               (Stub.fresh "John Doe, Python, SQL") in
  fst res = Return tt
  /\ Dict.get "candidate_name" (output (snd res)) = Some (JStr "John Doe")
  /\ Dict.get "skills" (output (snd res))
     = Some (JArr [JStr "Python"; JStr "SQL"])
  /\ contact_field "email_address" (snd res)
     = Some (JArr [JStr "jane@example.org"]).
Proof. vm_compute. repeat split. Qed.

(** The service [chain_down] answers every JSON-mode call with the company
    object. *)
Lemma chain_down_answers_json : answers_json Stub.chain_down.
Proof.
  intros n q. exists Stub.one_company.
  exists (JObj [("company", JStr "Acme"); ("skills", JArr [JStr "Python"])]).
  split; reflexivity.
Defined.

(** C4 on the four enumerated lines: two structured calls, for the first
    and for the last line. *)
Lemma work_fallback_calls_witness :
  (chat Stub.chain_down 0 "COMPANIES Jane" false = Return Stub.enumeration
   /\ Dict.get "work_output" (output (Stub.fresh "Jane")) = Some (JArr [])
   /\ answers_json Stub.chain_down)
  /\ let res := fallback_extract_work_experience Stub.deps0 Stub.chain_down
                  (Stub.fresh "Jane") in
     fst res = Return tt
     /\ calls (snd res)
        = [ChatCompletion "gpt-3.5-turbo-1106" "COMPANIES Jane" false;
           ChatCompletion "gpt-3.5-turbo-1106" "WORK Acme/ Engineer" true;
           ChatCompletion "gpt-3.5-turbo-1106" "WORK Globex/" true].
Proof.
  split.
  - split; [reflexivity|]. split; [reflexivity|].
    exact chain_down_answers_json.
  - destruct (work_fallback_calls Stub.deps0 Stub.chain_down
                (Stub.fresh "Jane") Stub.enumeration []
                eq_refl eq_refl chain_down_answers_json)
      as (Hret & Hcalls & _).
    split; [exact Hret | exact Hcalls].
Defined.

(** C5 on a text file. *)
Lemma unsupported_extension_exits_witness :
  unsupported (effective_extension "notes.txt" None)
  /\ let r := main Stub.deps0 Stub.chain_down Stub.fs0 "notes.txt" "m" in
     status r = Raise (SystemExit "Unsupported file type .txt")
     /\ exit_status (status r) = 1%Z
     /\ sent r = [] /\ written r = [].
Proof.
  assert (H : unsupported (effective_extension "notes.txt" None))
    by (repeat split; discriminate).
  split; [exact H|].
  destruct (unsupported_extension_exits Stub.deps0 Stub.chain_down Stub.fs0
              "notes.txt" "m" None H) as (_ & _ & Hmain).
  destruct (Hmain eq_refl) as (Hs & He & _ & Hsent & Hw & _).
  repeat split; assumption.
Defined.

(** C6 on a run from the template of the specification. *)
Lemma output_shape_fixed_witness :
  incl written_keys (Dict.keys (output (Stub.fresh "Jane")))
  /\ Dict.keys (output (snd (process_file Stub.deps0 Stub.chain_down
                               (Stub.fresh "Jane"))))
     = Dict.keys spec_output_template.
Proof.
  assert (H : incl written_keys (Dict.keys (output (Stub.fresh "Jane")))).
  { intros k Hk. cbn in *. tauto. }
  split; [exact H|].
  exact (proj1 (proj2 (output_shape_fixed Stub.deps0 Stub.chain_down
                         (Stub.fresh "Jane") H))).
Defined.

(** C7 on a reply with a quote, a backslash and a line break. *)
Lemma fallback_text_round_trip_witness :
  (unique_keys (JObj (output (Stub.fresh "Jane"))) = true
   /\ chat (Stub.always Stub.awkward_text) 0
        (fallback_skills_query "Jane") false = Return Stub.awkward_text)
  /\ exists o,
       PyJson.loads true
         (PyJson.dumps
            (JObj (output (snd (fallback_extract_skills
                                  (Stub.always Stub.awkward_text)
                                  (Stub.fresh "Jane"))))))
       = Some (JObj o)
       /\ Dict.get "skills" o = Some (JStr Stub.awkward_text).
Proof.
  split; [split; reflexivity|].
  exact (proj2 (proj1 (fallback_text_round_trip Stub.deps0
                         (Stub.always Stub.awkward_text) (Stub.fresh "Jane")
                         Stub.awkward_text eq_refl) eq_refl)).
Defined.

(** C8 on two services with different replies. *)
Lemma contacts_from_resume_only_witness :
  (resume (Stub.fresh "Jane") = resume (Stub.fresh "Jane")
   /\ fst (extract_basic_info Stub.deps0 (Stub.always "{}")
             (Stub.fresh "Jane")) = Return tt
   /\ fst (extract_basic_info Stub.deps0 (Stub.always Stub.job_title_only)
             (Stub.fresh "Jane")) = Return tt)
  /\ contact_field "email_address"
       (snd (extract_basic_info Stub.deps0 (Stub.always "{}")
               (Stub.fresh "Jane")))
     = contact_field "email_address"
         (snd (extract_basic_info Stub.deps0
                 (Stub.always Stub.job_title_only) (Stub.fresh "Jane"))).
Proof.
  split; [repeat split|].
  exact (proj1 (contacts_from_resume_only Stub.deps0 (Stub.always "{}")
                  (Stub.always Stub.job_title_only)
                  (Stub.fresh "Jane") (Stub.fresh "Jane")
                  eq_refl eq_refl eq_refl)).
Defined.

(** C9 on the two files of the stub file system. *)
Lemma loader_text_witness :
  (effective_extension "cv.pdf" None = ".pdf"
   /\ effective_extension "cv.docx" None = ".docx")
  /\ get_resume_content Stub.fs0 "cv.pdf" None
     = Return ("Jane Doe" ++ newline ++ "  Engineer" ++ newline
               ++ "Python, SQL" ++ newline)
  /\ get_resume_content Stub.fs0 "cv.docx" None
     = Return ("Jane Doe" ++ newline ++ newline ++ "Engineer" ++ newline).
Proof.
  split; [split; reflexivity|]. split.
  - exact (proj1 (loader_text Stub.fs0 "cv.pdf" None) _ eq_refl eq_refl).
  - exact (proj2 (loader_text Stub.fs0 "cv.docx" None) _
             (or_introl eq_refl) eq_refl).
Defined.

(** C10 on an upper-case extension. *)
Lemma extension_case_sensitive_witness :
  (In (PyStr.lower (effective_extension "cv.PDF" None))
      [".pdf"; ".docx"; ".doc"]
   /\ effective_extension "cv.PDF" None
      <> PyStr.lower (effective_extension "cv.PDF" None))
  /\ get_resume_content Stub.fs0 "cv.PDF" None
     = Raise (SystemExit "Unsupported file type .PDF").
Proof.
  assert (H1 : In (PyStr.lower (effective_extension "cv.PDF" None))
                  [".pdf"; ".docx"; ".doc"]) by (left; reflexivity).
  assert (H2 : effective_extension "cv.PDF" None
               <> PyStr.lower (effective_extension "cv.PDF" None))
    by discriminate.
  split; [split; assumption|].
  exact (extension_case_sensitive Stub.fs0 "cv.PDF" None H1 H2).
Defined.

(** ** More on the document loader *)

Lemma rstrip_empty_tail (s : string) (c : ascii) :
  PyStr.rstrip (String c s)
  = match PyStr.rstrip s with
    | EmptyString =>
        if PyStr.isspace c then EmptyString else String c EmptyString
    | r' => String c r'
    end.
Proof. reflexivity. Qed.

Lemma rstrip_idempotent (s : string) :
  PyStr.rstrip (PyStr.rstrip s) = PyStr.rstrip s.
Proof.
  induction s as [|c s IH]; [reflexivity|].
  rewrite rstrip_empty_tail.
  destruct (PyStr.rstrip s) as [|d r] eqn:Hr.
  - destruct (PyStr.isspace c) eqn:Hc; [reflexivity|].
    cbn. now rewrite Hc.
  - rewrite rstrip_empty_tail, IH. reflexivity.
Qed.

Lemma rstrip_occurs (c : ascii) (s : string) :
  occurs c s = false -> occurs c (PyStr.rstrip s) = false.
Proof.
  induction s as [|d s IH]; [reflexivity|].
  cbn [occurs]. intros H. apply orb_false_elim in H as [Hd Hs].
  rewrite rstrip_empty_tail. specialize (IH Hs).
  destruct (PyStr.rstrip s) as [|e r].
  - destruct (PyStr.isspace d); cbn; [reflexivity | now rewrite Hd].
  - cbn [occurs] in *. now rewrite Hd.
Qed.

Lemma split_occurs (sep : ascii) (s : string) :
  Forall (fun line => occurs sep line = false) (PyStr.split sep s).
Proof.
  induction s as [|c s IH]; cbn [PyStr.split].
  - now constructor.
  - destruct (Ascii.eqb c sep) eqn:Hc.
    + now constructor.
    + destruct (PyStr.split sep s) as [|h t].
      * constructor; [cbn; now rewrite Hc | constructor].
      * inversion IH as [|? ? Hh Ht]; subst.
        constructor; [cbn; now rewrite Hc, Hh | exact Ht].
Qed.

Lemma split_line (sep : ascii) (line rest : string) :
  occurs sep line = false ->
  PyStr.split sep (line ++ String sep rest) = line :: PyStr.split sep rest.
Proof.
  induction line as [|c line IH]; cbn [occurs append PyStr.split].
  - intros _. now rewrite Ascii.eqb_refl.
  - intros H. apply orb_false_elim in H as [Hc Hl].
    now rewrite Hc, (IH Hl).
Qed.

Lemma split_lines (lines : list string) :
  Forall (fun line => occurs "010" line = false) lines ->
  PyStr.split "010" (join (map with_newline lines))
  = (lines ++ [EmptyString])%list.
Proof.
  induction 1 as [|line lines Hline _ IH]; [reflexivity|].
  cbn [map join fold_right app]. unfold with_newline at 1, newline.
  rewrite append_assoc. cbn [append].
  fold (join (map with_newline lines)).
  now rewrite split_line, IH.
Qed.

Lemma kept_lines_kept (text : string) : Forall kept_line (kept_lines text).
Proof.
  unfold kept_lines.
  pose proof (split_occurs "010" text) as H.
  induction H as [|line lines Hline _ IH]; cbn [map filter]; [constructor|].
  destruct (String.eqb_spec (PyStr.rstrip line) EmptyString) as [He | Hne];
    cbn [negb]; [exact IH|].
  constructor; [|exact IH].
  split; [exact Hne|]. split; [now apply rstrip_occurs|].
  apply rstrip_idempotent.
Qed.

Lemma kept_lines_fixed (lines : list string) :
  Forall kept_line lines ->
  kept_lines (join (map with_newline lines)) = lines.
Proof.
  intros H. unfold kept_lines. rewrite split_lines.
  - rewrite map_app, filter_app. cbn [map filter PyStr.rstrip String.eqb negb].
    rewrite app_nil_r.
    induction H as [|line lines (Hne & _ & Hfix) _ IH]; [reflexivity|].
    cbn [map filter]. rewrite Hfix.
    apply String.eqb_neq in Hne. rewrite Hne. cbn [negb]. now rewrite IH.
  - eapply Forall_impl; [|exact H]. now intros line (_ & Hnl & _).
Qed.

Lemma join_app (a b : list string) : join (a ++ b) = join a ++ join b.
Proof.
  induction a as [|x a IH]; [reflexivity|].
  cbn [app join fold_right]. fold (join (a ++ b)). fold (join a).
  now rewrite IH, append_assoc.
Qed.

Lemma join_page_texts (pages : list string) :
  join (map page_text pages)
  = join (map with_newline (flat_map kept_lines pages)).
Proof.
  induction pages as [|p pages IH]; [reflexivity|].
  cbn [map flat_map join fold_right]. fold (join (map page_text pages)).
  rewrite map_app, join_app, IH. reflexivity.
Qed.

Section LoaderText.

Variable fs : files.

(** X1.  The text loaded from a PDF file, split at the line feeds, is the
    list of the lines that the loader keeps of the pages, in order, followed
    by one empty string: every line of the text is one kept line, not
    empty, with no white space at its end, and the text ends with a line
    feed unless nothing was kept.  Loading the text again as one page gives
    the same text. *)
Theorem pdf_text_lines (file : string) (extension : option string)
  (pages : list string) :
  effective_extension file extension = ".pdf" ->
  pdf_pages fs file = Return pages ->
  exists content,
    get_resume_content fs file extension = Return content
    /\ PyStr.split "010" content
       = (flat_map kept_lines pages ++ [EmptyString])%list
    /\ Forall kept_line (flat_map kept_lines pages)
    /\ add_pdf_page EmptyString content = content.
Proof.
  intros Hext Hpages.
  assert (Hkept : Forall kept_line (flat_map kept_lines pages)).
  { induction pages as [|p ps IH] in |- *; cbn [flat_map]; [constructor|].
    apply Forall_app. split; [apply kept_lines_kept | exact IH]. }
  exists (join (map page_text pages)). split; [|split; [|split]].
  - unfold get_resume_content. rewrite Hext, Hpages. cbn.
    now rewrite fold_pdf_pages.
  - rewrite join_page_texts. apply split_lines.
    eapply Forall_impl; [|exact Hkept]. now intros line (_ & Hnl & _).
  - exact Hkept.
  - rewrite add_pdf_page_spec. cbn [append]. unfold page_text.
    rewrite join_page_texts. now rewrite kept_lines_fixed.
Qed.

(** X2.  When no paragraph of a DOCX or DOC file holds a line feed, the
    loaded text split at the line feeds is the list of the paragraph texts
    followed by one empty string: every paragraph is kept, an empty one as
    an empty line. *)
Theorem docx_text_paragraphs (file : string) (extension : option string)
  (paragraphs : list string) :
  effective_extension file extension = ".docx"
  \/ effective_extension file extension = ".doc" ->
  docx_paragraphs fs file = Return paragraphs ->
  Forall (fun text => occurs "010" text = false) paragraphs ->
  exists content,
    get_resume_content fs file extension = Return content
    /\ PyStr.split "010" content = (paragraphs ++ [EmptyString])%list.
Proof.
  intros Hext Hpars Hnl.
  exists (join (map with_newline paragraphs)). split.
  - unfold get_resume_content.
    destruct Hext as [Hext | Hext]; rewrite Hext, Hpars; cbn;
      unfold add_paragraph; now rewrite (fold_left_append with_newline).
  - now apply split_lines.
Qed.

Lemma rfind_from_absent (c : ascii) (s : string) (i last : Z) :
  occurs c s = false -> PyStr.rfind_from c s i last = last.
Proof.
  revert i last. induction s as [|d s IH]; intros i last; [reflexivity|].
  cbn [occurs PyStr.rfind_from]. intros H.
  apply orb_false_elim in H as [Hd Hs]. now rewrite Hd, IH.
Qed.

Lemma rfind_from_lower (c : ascii) (s : string) (i last : Z) :
  (last <= i)%Z -> (last <= PyStr.rfind_from c s i last)%Z.
Proof.
  revert i last. induction s as [|d s IH]; intros i last Hle;
    cbn [PyStr.rfind_from]; [lia|].
  destruct (Ascii.eqb d c).
  - specialize (IH (i + 1)%Z i). lia.
  - apply IH. lia.
Qed.

Lemma splitext_without_dot (p : string) :
  occurs "." p = false -> PyStr.splitext_ext p = EmptyString.
Proof.
  intros H. unfold PyStr.splitext_ext, PyStr.rfind.
  rewrite (rfind_from_absent "." p 0 (-1) H).
  pose proof (rfind_from_lower "/" p 0 (-1)) as Hlow.
  destruct (Z.ltb_spec (PyStr.rfind_from "/" p 0 (-1)) (-1)); [lia|].
  reflexivity.
Qed.

(** X3.  A path that holds no dot has no extension: without an extension
    argument, or with an empty one, the loader exits with the
    unsupported-format message that names the empty extension; with the
    explicit extension .pdf the same path is read as a PDF file. *)
Theorem path_without_dot_exits (file : string) :
  occurs "." file = false ->
  get_resume_content fs file None
  = Raise (SystemExit "Unsupported file type ")
  /\ get_resume_content fs file (Some EmptyString)
     = Raise (SystemExit "Unsupported file type ")
  /\ (forall pages,
        pdf_pages fs file = Return pages ->
        get_resume_content fs file (Some ".pdf")
        = Return (join (map page_text pages))).
Proof.
  intros H. unfold get_resume_content, effective_extension.
  rewrite (splitext_without_dot file H). cbn.
  split; [reflexivity|]. split; [reflexivity|].
  intros pages ->. now rewrite fold_pdf_pages.
Qed.

End LoaderText.

(** ** More on the decoder *)

Lemma of_pairs_unique (l : list (string * json)) :
  forallb (fun kv => unique_keys (snd kv)) l = true ->
  unique_keys (JObj (Dict.of_pairs l)) = true.
Proof.
  unfold Dict.of_pairs.
  assert (H : forall acc,
             unique_keys (JObj acc) = true ->
             forallb (fun kv => unique_keys (snd kv)) l = true ->
             unique_keys
               (JObj (fold_left (fun d kv => Dict.set (fst kv) (snd kv) d)
                        l acc)) = true).
  { induction l as [|[k v] l IH]; intros acc Hacc Hl; cbn [fold_left];
      [exact Hacc|].
    cbn [forallb snd] in Hl. apply andb_prop in Hl as [Hv Hl].
    apply IH; [|exact Hl]. now apply unique_keys_set. }
  now apply H.
Qed.

Lemma forallb_snoc {A : Type} (P : A -> bool) (l : list A) (x : A) :
  forallb P l = true -> P x = true -> forallb P (l ++ [x]) = true.
Proof. intros Hl Hx. rewrite forallb_app, Hl. cbn. now rewrite Hx. Qed.

Lemma literal_value (word : string) (v v' : json) (s rest : string) :
  literal word v s = Some (v', rest) -> v' = v.
Proof.
  unfold literal. destruct (strip_prefix word s); [|discriminate].
  now intros [= <- _].
Qed.

Lemma scan_number_int (s : string) (v : json) (rest : string) :
  scan_number s = Some (v, rest) -> exists n, v = JInt n.
Proof.
  destruct s as [|c r]; cbn [scan_number]; [discriminate|].
  destruct (Ascii.eqb c "-").
  - destruct (scan_nat r) as [[n r']|]; [|discriminate].
    destruct (float_follows r'); [discriminate|].
    intros [= <- _]. now eexists.
  - destruct (scan_nat (String c r)) as [[n r']|]; [|discriminate].
    destruct (float_follows r'); [discriminate|].
    intros [= <- _]. now eexists.
Qed.

(** Every dictionary that the decoder builds has distinct keys. *)
Lemma parse_unique (strict : bool) (f : nat) :
  (forall s v rest,
      parse_value f strict s = Some (v, rest) -> unique_keys v = true)
  /\ (forall s values v rest,
         forallb unique_keys values = true ->
         parse_items f strict s values = Some (v, rest) ->
         unique_keys v = true)
  /\ (forall s pairs v rest,
         forallb (fun kv => unique_keys (snd kv)) pairs = true ->
         parse_members f strict s pairs = Some (v, rest) ->
         unique_keys v = true).
Proof.
  induction f as [|f (IHv & IHi & IHm)];
    [repeat split; intros; discriminate|].
  repeat split.
  - intros s v rest. cbn [parse_value].
    destruct s as [|c r]; [discriminate|].
    destruct (Ascii.eqb c dquote).
    { destruct (scanstring strict r) as [[str r']|]; [|discriminate].
      now intros [= <- _]. }
    destruct (Ascii.eqb c "{").
    { destruct (skip_ws r) as [|c1 r2]; [discriminate|].
      destruct (Ascii.eqb c1 "}"); [now intros [= <- _]|].
      destruct (Ascii.eqb c1 dquote); [|discriminate].
      now apply IHm. }
    destruct (Ascii.eqb c "[").
    { destruct (skip_ws r) as [|c1 r2]; [discriminate|].
      destruct (Ascii.eqb c1 "]"); [now intros [= <- _]|].
      now apply IHi. }
    destruct (Ascii.eqb c "n");
      [intros H; apply literal_value in H; now subst|].
    destruct (Ascii.eqb c "t");
      [intros H; apply literal_value in H; now subst|].
    destruct (Ascii.eqb c "f");
      [intros H; apply literal_value in H; now subst|].
    intros H. apply scan_number_int in H as [n ->]. reflexivity.
  - intros s values v rest Hvalues. cbn [parse_items].
    destruct (parse_value f strict s) as [[v0 r]|] eqn:Hv; [|discriminate].
    apply IHv in Hv.
    destruct (skip_ws r) as [|c r1]; [discriminate|].
    destruct (Ascii.eqb c "]").
    { intros [= <- _]. cbn [unique_keys]. now apply forallb_snoc. }
    destruct (Ascii.eqb c ","); [|discriminate].
    apply IHi. now apply forallb_snoc.
  - intros s pairs v rest Hpairs. cbn [parse_members].
    destruct (scanstring strict s) as [[key r]|]; [|discriminate].
    destruct (skip_ws r) as [|c r1]; [discriminate|].
    destruct (Ascii.eqb c ":"); [|discriminate].
    destruct (parse_value f strict (skip_ws r1)) as [[v0 r2]|] eqn:Hv;
      [|discriminate].
    apply IHv in Hv.
    destruct (skip_ws r2) as [|c2 r3]; [discriminate|].
    destruct (Ascii.eqb c2 "}").
    { intros [= <- _]. apply of_pairs_unique. now apply forallb_snoc. }
    destruct (Ascii.eqb c2 ","); [|discriminate].
    destruct (skip_ws r3) as [|q r4]; [discriminate|].
    destruct (Ascii.eqb q dquote); [|discriminate].
    apply IHm. now apply forallb_snoc.
Qed.

Lemma loads_unique (strict : bool) (s : string) (v : json) :
  loads strict s = Some v -> unique_keys v = true.
Proof.
  unfold loads.
  destruct (parse_value _ strict (skip_ws s)) as [[v0 r]|] eqn:Hv;
    [|discriminate].
  apply (proj1 (parse_unique strict _)) in Hv.
  destruct (skip_ws r); [|discriminate]. now intros [= <-].
Qed.





(** ** Invariants of a run *)

Section Invariant.

Variable I : world -> Prop.
Variable V : json -> Prop.
Variable D : deps.
Variable svc : service.

Hypothesis I_query :
  forall q mode w,
    I w -> I (add_call (ChatCompletion (model_name w) q mode) w).
Hypothesis I_chain :
  forall target w,
    I w -> I (add_call (ExtractionChain (model_name w) target (resume w)) w).
Hypothesis I_set :
  forall k v w, I w -> V v -> I (set_output (Dict.set k v (output w)) w).
Hypothesis I_output : forall w, I w -> V (JObj (output w)).
Hypothesis V_loads :
  forall strict text v, PyJson.loads strict text = Some v -> V v.
Hypothesis V_getitem :
  forall v k x, V v -> getitem v k = Return x -> V x.
Hypothesis V_setitem :
  forall v k x y, V v -> V x -> setitem v k x = Return y -> V y.
Hypothesis V_append :
  forall v x y, V v -> V x -> py_append v x = Return y -> V y.
Hypothesis V_str : forall s, V (JStr s).
Hypothesis V_arr : forall l, Forall V l -> V (JArr l).
Hypothesis svc_chain :
  forall n target input l, chain svc n target input = Return l -> Forall V l.
Hypothesis D_emails : forall text, V (extract_emails D text).
Hypothesis D_urls : forall text, V (extract_github_and_linkedin_urls D text).

Lemma ensures_ret {A : Type} (G : A -> Prop) (a : A) :
  G a -> ensures I G (ret a).
Proof. intros Ha w Hw. split; [exact Hw|]. now intros a' [= <-]. Qed.

Lemma ensures_raise {A : Type} (G : A -> Prop) (e : exn) :
  ensures I G (raise e).
Proof. intros w Hw. split; [exact Hw | discriminate]. Qed.

Lemma ensures_lift {A : Type} (G : A -> Prop) (r : outcome A) :
  (forall a, r = Return a -> G a) -> ensures I G (lift r).
Proof. intros Hr w Hw. split; [exact Hw | exact Hr]. Qed.

Lemma ensures_bind {A B : Type} (G1 : A -> Prop) (G2 : B -> Prop)
  (m : M A) (k : A -> M B) :
  ensures I G1 m -> (forall a, G1 a -> ensures I G2 (k a)) ->
  ensures I G2 (bind m k).
Proof.
  intros Hm Hk w Hw. unfold bind. destruct (Hm w Hw) as [HI HG].
  destruct (m w) as [[a | e] w1]; cbn [fst snd] in *.
  - apply Hk; auto.
  - split; [exact HI | discriminate].
Qed.

Lemma ensures_try {A : Type} (G : A -> Prop) (body handler : M A)
  (handles : exn -> bool) :
  ensures I G body -> ensures I G handler ->
  ensures I G (try_except body handles handler).
Proof.
  intros Hb Hh w Hw. unfold try_except. destruct (Hb w Hw) as [HI HG].
  destruct (body w) as [[a | e] w1]; cbn [fst snd] in *.
  - split; [exact HI | exact HG].
  - destruct (handles e); [now apply Hh|].
    split; [exact HI | discriminate].
Qed.

Lemma ensures_if {A : Type} (G : A -> Prop) (b : bool) (m1 m2 : M A) :
  ensures I G m1 -> ensures I G m2 -> ensures I G (if b then m1 else m2).
Proof. now destruct b. Qed.

Lemma ensures_for_each {A : Type} (xs : list A) (body : A -> M unit) :
  (forall x, ensures I any (body x)) -> ensures I any (for_each xs body).
Proof.
  intros Hb. induction xs as [|x xs IH]; cbn [for_each].
  - now apply ensures_ret.
  - eapply ensures_bind; [apply Hb | intros _ _; exact IH].
Qed.

Lemma ensures_get_resume : ensures I any get_resume.
Proof. intros w Hw. split; [exact Hw | easy]. Qed.

Lemma ensures_query_model (query : string) (mode : bool) :
  ensures I any (query_model svc query mode).
Proof. intros w Hw. split; [now apply I_query | easy]. Qed.

Lemma ensures_extract_pydantic (target : schema) :
  ensures I (Forall V) (extract_pydantic svc target).
Proof.
  intros w Hw. split; [now apply I_chain|].
  intros l. cbn [extract_pydantic fst]. apply svc_chain.
Qed.

Lemma ensures_json_loads (strict : bool) (text : string) :
  ensures I V (json_loads strict text).
Proof.
  unfold json_loads. destruct (PyJson.loads strict text) as [v|] eqn:Hv.
  - apply ensures_ret. exact (V_loads strict text v Hv).
  - apply ensures_raise.
Qed.

Lemma ensures_getitem (v : json) (k : string) :
  V v -> ensures I V (lift (getitem v k)).
Proof. intros Hv. apply ensures_lift. intros x. now apply V_getitem. Qed.

Lemma ensures_contains_key (v : json) (k : string) :
  ensures I any (lift (contains_key k v)).
Proof. now apply ensures_lift. Qed.

Lemma ensures_output_set (k : string) (v : json) :
  V v -> ensures I any (output_set k v).
Proof. intros Hv w Hw. split; [now apply I_set | easy]. Qed.

Lemma ensures_output_get (k : string) : ensures I V (output_get k).
Proof.
  intros w Hw. split; [exact Hw|]. intros x. cbn [output_get fst].
  apply V_getitem, I_output, Hw.
Qed.

Lemma ensures_output_set2 (k k2 : string) (v : json) :
  V v -> ensures I any (output_set2 k k2 v).
Proof.
  intros Hv. unfold output_set2.
  eapply ensures_bind; [apply ensures_output_get | intros inner Hinner].
  eapply ensures_bind with (G1 := V).
  - apply ensures_lift. intros y. now apply V_setitem.
  - intros y Hy. now apply ensures_output_set.
Qed.

Lemma ensures_output_append (k : string) (v : json) :
  V v -> ensures I any (output_append k v).
Proof.
  intros Hv. unfold output_append.
  eapply ensures_bind; [apply ensures_output_get | intros inner Hinner].
  eapply ensures_bind with (G1 := V).
  - apply ensures_lift. intros y. now apply V_append.
  - intros y Hy. now apply ensures_output_set.
Qed.

Lemma ensures_work_experience_line (text line : string) :
  ensures I any (work_experience_line D svc text line).
Proof.
  unfold work_experience_line.
  destruct (PyStr.contains "answer" (PyStr.lower line));
    [now apply ensures_ret|].
  destruct (PyStr.split "," line) as [|entry0 rest];
    [apply ensures_raise|].
  destruct (String.eqb (PyStr.rstrip entry0) EmptyString);
    [now apply ensures_ret|].
  eapply ensures_bind; [apply ensures_query_model | intros out _].
  eapply ensures_bind; [apply ensures_json_loads | intros parsed Hp].
  now apply ensures_output_append.
Qed.

Lemma ensures_body (p : proc) : ensures I any (body_of D svc p).
Proof.
  destruct p; cbn [body_of];
    unfold extract_basic_info_body, merge_primary_keys,
      merge_contact_info, extract_skills_body,
      fallback_extract_skills_body, extract_education_body,
      fallback_extract_education_body, extract_work_experience_body,
      fallback_extract_work_experience_body;
    repeat first
      [ apply ensures_ret; exact Logic.I
      | apply ensures_get_resume
      | apply ensures_query_model
      | apply ensures_extract_pydantic
      | apply ensures_json_loads
      | apply ensures_contains_key
      | apply ensures_getitem; assumption
      | apply ensures_output_set;
        first [assumption | apply V_str | apply V_arr; assumption]
      | apply ensures_output_set2;
        first [assumption | apply D_emails | apply D_urls]
      | apply ensures_try
      | apply ensures_if
      | apply ensures_for_each; intros ?; apply ensures_work_experience_line
      | eapply ensures_bind; [| intros ? ?] ].
Qed.

Hypothesis I_warning : forall msg w, I w -> I (add_warning msg w).
Hypothesis I_event : forall ev w, I w -> I (add_event ev w).

Lemma ensures_method (p : proc) (body : M unit) :
  ensures I any body -> ensures I any (method p body).
Proof.
  intros Hb w Hw. unfold method.
  destruct (Hb (add_event (Enter p) w)) as [HI _]; [now apply I_event|].
  destruct (body (add_event (Enter p) w)) as [r w1]. cbn [fst snd] in *.
  split; [now apply I_event | easy].
Qed.

Lemma ensures_invoke (p : proc) : ensures I any (invoke D svc p).
Proof. rewrite invoke_method. apply ensures_method, ensures_body. Qed.

Lemma ensures_warning (msg : string) : ensures I any (warning msg).
Proof. intros w Hw. split; [now apply I_warning | easy]. Qed.

Lemma ensures_process_file : ensures I any (process_file D svc).
Proof.
  pose proof ensures_invoke as Hp.
  unfold process_file.
  eapply ensures_bind; [apply (Hp ExtractBasicInfo) | intros _ _].
  eapply ensures_bind; [| intros _ _].
  { apply ensures_try; [apply (Hp ExtractWorkExperience)|].
    eapply ensures_bind; [apply ensures_warning | intros _ _].
    apply (Hp FallbackExtractWorkExperience). }
  eapply ensures_bind; [| intros _ _].
  { apply ensures_try; [apply (Hp ExtractSkills)|].
    eapply ensures_bind; [apply ensures_warning | intros _ _].
    apply (Hp FallbackExtractSkills). }
  apply ensures_try; [apply (Hp ExtractEducation)|].
  eapply ensures_bind; [apply ensures_warning | intros _ _].
  apply (Hp FallbackExtractEducation).
Qed.

End Invariant.

(** ** The replies to the basic-info prompt and to the skills prompt *)


Section JsonReplies.

Variable D : deps.
Variable svc : service.









End JsonReplies.

(** ** The requests and the warnings of a run *)

Section Requests.

Variable D : deps.
Variable svc : service.

Lemma same_calls_trans (a b c : world) :
  same_calls a b -> same_calls b c -> same_calls a c.
Proof. unfold same_calls. congruence. Qed.

Lemma query_then {B : Type} (query : string) (mode : bool)
  (k : string -> M B) (w : world) :
  (forall a, keeps same_calls (k a)) ->
  calls (snd (bind (query_model svc query mode) k w))
  = (calls w ++ [ChatCompletion (model_name w) query mode])%list.
Proof.
  intros Hk. unfold bind, query_model.
  destruct (chat svc (List.length (calls w)) query mode) as [a | e];
    [|reflexivity].
  now rewrite (Hk a _).
Qed.

Lemma chain_then {B : Type} (target : schema) (k : list json -> M B)
  (w : world) :
  (forall a, keeps same_calls (k a)) ->
  calls (snd (bind (extract_pydantic svc target) k w))
  = (calls w ++ [ExtractionChain (model_name w) target (resume w)])%list.
Proof.
  intros Hk. unfold bind, extract_pydantic.
  destruct (chain svc (List.length (calls w)) target (resume w)) as [a | e];
    [|reflexivity].
  now rewrite (Hk a _).
Qed.

Lemma keeps_same_calls_set (k : string) (v : json) :
  keeps same_calls (output_set k v).
Proof. intros w. reflexivity. Qed.

Lemma keeps_same_calls_set2 (k k2 : string) (v : json) :
  keeps same_calls (output_set2 k k2 v).
Proof.
  exact (keeps_output_set2 same_calls (fun _ => True)
           (fun _ => eq_refl) same_calls_trans
           (fun _ _ _ _ => eq_refl) k k2 v Logic.I).
Qed.

Lemma more_calls_trans (a b c : world) :
  more_calls a b -> more_calls b c -> more_calls a c.
Proof.
  intros [m1 H1] [m2 H2]. exists (m1 ++ m2)%list.
  now rewrite H2, H1, app_assoc.
Qed.

Lemma more_calls_refl (w : world) : more_calls w w.
Proof. exists []. now rewrite app_nil_r. Qed.

Lemma body_requests (p : proc) (w : world) :
  exists more,
    calls (snd (body_of D svc p w))
    = (calls w ++ request_of D p w :: more)%list
    /\ (p <> FallbackExtractWorkExperience -> more = []).
Proof.
  assert (Hone : forall c rq, c = (calls w ++ [rq])%list ->
             exists more, c = (calls w ++ rq :: more)%list
                          /\ (p <> FallbackExtractWorkExperience
                              -> more = [])).
  { intros c rq ->. now exists []. }
  destruct p; cbn [body_of request_of];
    unfold extract_basic_info_body, extract_skills_body,
      fallback_extract_skills_body, extract_education_body,
      fallback_extract_education_body, extract_work_experience_body,
      fallback_extract_work_experience_body;
    try solve
      [ apply Hone; first
           [ apply chain_then
           | unfold bind at 1; unfold get_resume; apply query_then ];
         intros ?; unfold merge_primary_keys, merge_contact_info;
         repeat first
           [ apply keeps_same_calls_set
           | apply keeps_same_calls_set2
           | apply (keeps_ret same_calls (fun _ => eq_refl))
           | apply (keeps_lift same_calls (fun _ => eq_refl))
           | apply (keeps_json_loads same_calls (fun _ => eq_refl))
           | apply (keeps_try same_calls same_calls_trans)
           | apply (keeps_if same_calls)
           | apply (keeps_bind same_calls same_calls_trans);
             [| intros ?] ] ].
  unfold bind at 1. unfold get_resume. unfold bind, query_model.
  destruct (chat svc _ _ _) as [text | e].
  - match goal with
    | |- context [for_each ?l ?f ?w1] =>
        destruct (keeps_for_each more_calls more_calls_refl
                    more_calls_trans l f
                    (fun line =>
                       keeps_work_experience_line more_calls
                         (fun _ => True) more_calls_refl more_calls_trans
                         (fun rq w0 => ex_intro _ [rq] eq_refl)
                         (fun _ _ w0 _ => more_calls_refl w0)
                         D svc (resume w) line Logic.I) w1) as [more Hm]
    end.
    exists more. split; [|congruence].
    rewrite Hm. cbn [add_call calls]. now rewrite <- app_assoc.
  - now exists [].
Qed.

Lemma invoke_requests (p : proc) (w : world) :
  exists more,
    calls (snd (invoke D svc p w))
    = (calls w ++ request_of D p w :: more)%list
    /\ (p <> FallbackExtractWorkExperience -> more = []).
Proof.
  rewrite invoke_method. unfold method.
  destruct (body_requests p (add_event (Enter p) w)) as (more & H & Hmore).
  destruct (body_of D svc p (add_event (Enter p) w)) as [r w1].
  exists more. split; [|exact Hmore].
  cbn [snd add_event calls] in *. rewrite H. now destruct p.
Qed.

Lemma entered_app (a b : list event) :
  entered (a ++ b) = (entered a ++ entered b)%list.
Proof.
  induction a as [|[p | p r] a IH]; cbn [app entered]; [reflexivity| |exact IH].
  now rewrite IH.
Qed.

Lemma request_of_same (p : proc) (w w' : world) :
  resume w' = resume w -> model_name w' = model_name w ->
  request_of D p w' = request_of D p w.
Proof. intros Hr Hm. destruct p; cbn [request_of]; now rewrite Hr, Hm. Qed.

Lemma invoke_frame (p : proc) (w : world) :
  let w' := snd (invoke D svc p w) in
  warnings w' = warnings w /\ resume w' = resume w
  /\ model_name w' = model_name w.
Proof.
  apply (keeps_invoke
           (fun w w' => warnings w' = warnings w /\ resume w' = resume w
                        /\ model_name w' = model_name w)
           (fun _ => True)).
  - now intros.
  - intros a b c (H1 & H2 & H3) (H4 & H5 & H6). repeat split; congruence.
  - now intros.
  - now intros.
  - now intros.
  - now intros.
Qed.

(** X9.  Whatever its outcome, a method first sends its own request,
    built from the resume and the model name of the manager: a chat
    completion in JSON mode for basic info and skills, in free-text mode
    for the three fallbacks, the extraction chain on the resume for work
    experience and education.  Every method but the work-experience
    fallback sends nothing else.  No method logs a warning of its own or
    changes the resume or the model name. *)
Theorem method_requests (p : proc) (w : world) :
  let w' := snd (invoke D svc p w) in
  (exists more,
      calls w' = (calls w ++ request_of D p w :: more)%list
      /\ (p <> FallbackExtractWorkExperience -> more = []))
  /\ warnings w' = warnings w
  /\ resume w' = resume w
  /\ model_name w' = model_name w.
Proof.
  cbv zeta. split; [apply invoke_requests | apply invoke_frame].
Qed.

Lemma logged_invoke (p : proc) (w0 w : world) :
  trace w = trace w0 ->
  warnings w = (warnings w0 ++ warning_of p)%list ->
  resume w = resume w0 -> model_name w = model_name w0 ->
  calls w = calls w0 ->
  logged D w0 (snd (invoke D svc p w))
    [Enter p; Leave p (fst (invoke D svc p w))].
Proof.
  intros Ht Hws Hres Hmod Hcalls.
  destruct (invoke_frame p w) as (Hw & Hr & Hm).
  destruct (invoke_requests p w) as (more & Hc & Hmore).
  unfold logged. split; [rewrite invoke_trace; now rewrite Ht|].
  split; [| split; [congruence | split; [congruence|]]].
  - cbn [entered flat_map]. rewrite Hw, Hws. now rewrite app_nil_r.
  - exists (request_of D p w :: more). split; [now rewrite Hc, Hcalls|].
    cbn [entered map In]. intros Hno.
    rewrite (request_of_same p w0 w) by congruence.
    rewrite Hmore; [reflexivity|]. intros ->. tauto.
Qed.

Lemma logged_trans (a b c : world) (t1 t2 : list event) :
  logged D a b t1 -> logged D b c t2 -> logged D a c (t1 ++ t2).
Proof.
  intros (Ht1 & Hw1 & Hr1 & Hm1 & s1 & Hc1 & Hs1)
         (Ht2 & Hw2 & Hr2 & Hm2 & s2 & Hc2 & Hs2).
  unfold logged. rewrite entered_app, flat_map_app.
  split; [now rewrite Ht2, Ht1, app_assoc|].
  split; [now rewrite Hw2, Hw1, app_assoc|].
  split; [congruence|]. split; [congruence|].
  exists (s1 ++ s2)%list. split; [now rewrite Hc2, Hc1, app_assoc|].
  intros Hno. rewrite map_app.
  rewrite Hs1 by (intros H; apply Hno, in_or_app; now left).
  rewrite Hs2 by (intros H; apply Hno, in_or_app; now right).
  f_equal. apply map_ext. intros p. now apply request_of_same.
Qed.

Lemma logs_bind {A B : Type} (m : M A) (k : A -> M B) :
  logs D m -> (forall a, logs D (k a)) -> logs D (bind m k).
Proof.
  intros Hm Hk w. unfold bind. destruct (Hm w) as [t1 H1].
  destruct (m w) as [[a | e] w1]; cbn [snd] in *.
  - destruct (Hk a w1) as [t2 H2]. exists (t1 ++ t2)%list.
    now apply (logged_trans w w1).
  - now exists t1.
Qed.

Lemma logs_primary (p : proc) :
  warning_of p = [] -> logs D (invoke D svc p).
Proof.
  intros Hp w. eexists. apply logged_invoke; try reflexivity.
  now rewrite Hp, app_nil_r.
Qed.

Lemma logs_block (p f : proc) (msg : string) :
  warning_of p = [] -> warning_of f = [msg] ->
  logs D (section_block D svc p f msg).
Proof.
  intros Hp Hf w. unfold section_block, try_except.
  destruct (logs_primary p Hp w) as [t1 H1].
  destruct (invoke D svc p w) as [[[] | e] w1]; cbn [snd] in *;
    [now exists t1|].
  destruct (is_timeout e); [|now exists t1].
  unfold bind, warning. eexists.
  apply (logged_trans w w1 _ t1); [exact H1|].
  apply logged_invoke; try reflexivity. cbn [add_warning warnings].
  now rewrite Hf.
Qed.

Lemma logs_process_file : logs D (process_file D svc).
Proof.
  rewrite process_file_sections.
  apply logs_bind; [now apply (logs_primary ExtractBasicInfo) | intros _].
  apply logs_bind; [now apply logs_block | intros _].
  apply logs_bind; [now apply logs_block | intros _].
  now apply logs_block.
Qed.

(** X12.  The warnings that a run logs are the time-out messages of the
    fallbacks it enters, in the order in which it enters them, and no
    others: one warning for each fallback entered, none for a primary
    attempt. *)
Theorem process_file_warnings (w : world) :
  exists t,
    trace (snd (process_file D svc w)) = (trace w ++ t)%list
    /\ warnings (snd (process_file D svc w))
       = (warnings w ++ flat_map warning_of (entered t))%list.
Proof.
  destruct (logs_process_file w) as (t & Ht & Hw & _).
  now exists t.
Qed.

(** X13.  In a run that does not enter the work-experience fallback, the
    requests sent are the first requests of the methods entered, in order,
    one for each, all built from the resume and the model name that the run
    started with.  A run that returns without logging a warning has sent
    exactly the four requests of the primary attempts. *)
Theorem process_file_requests (w : world) :
  exists t sent,
    trace (snd (process_file D svc w)) = (trace w ++ t)%list
    /\ calls (snd (process_file D svc w)) = (calls w ++ sent)%list
    /\ (~ In FallbackExtractWorkExperience (entered t) ->
        sent = map (fun p => request_of D p w) (entered t))
    /\ (fst (process_file D svc w) = Return tt ->
        warnings (snd (process_file D svc w)) = warnings w ->
        sent = map (fun p => request_of D p w) primaries).
Proof.
  destruct (logs_process_file w) as (t & Ht & Hw & _ & _ & sent & Hc & Hs).
  exists t, sent. split; [exact Ht|]. split; [exact Hc|].
  split; [exact Hs|]. intros Hret Hsame.
  rewrite Hsame in Hw.
  assert (Hnone : flat_map warning_of (entered t) = []).
  { apply (app_inv_head (warnings w)). now rewrite app_nil_r. }
  assert (Hprim : forall l, flat_map warning_of l = [] ->
                            filter is_primary l = l
                            /\ ~ In FallbackExtractWorkExperience l).
  { induction l as [|p l IH]; [now split|].
    cbn [flat_map]. intros H. apply app_eq_nil in H as [Hp Hl].
    destruct (IH Hl) as [IH1 IH2].
    destruct p; try discriminate Hp; cbn [filter is_primary]; rewrite IH1;
      (split; [reflexivity | intros [H | H]; [discriminate H | tauto]]). }
  destruct (Hprim _ Hnone) as [Hfilter Hno].
  rewrite (Hs Hno). f_equal.
  rewrite process_file_invoke in Ht, Hret.
  destruct (schedule_of_run (invoke D svc) (invoke_trace D svc) w)
    as (t' & Ht' & _ & _ & Hall & _).
  cbv zeta in Ht'. rewrite Ht in Ht'. apply app_inv_head in Ht'. subst t'.
  rewrite <- Hfilter. now apply Hall.
Qed.

End Requests.

(** ** What every request carries, and the output file *)

Section Runs.

Variable D : deps.
Variable svc : service.

Lemma sent_from_call (w0 w : world) (rq : request) :
  sent_from w0 w -> carries w rq -> sent_from w0 (add_call rq w).
Proof.
  intros (Hr & Hm & sent & Hc & Hall) Hrq.
  split; [exact Hr|]. split; [exact Hm|].
  exists (sent ++ [rq])%list. cbn [add_call calls].
  split; [now rewrite Hc, app_assoc|].
  apply Forall_app. split; [exact Hall|]. constructor; [|constructor].
  destruct rq; cbn [carries] in *; [congruence|].
  destruct Hrq. split; congruence.
Qed.

(** X14.  A run changes neither the resume nor the model name of the
    manager; it only adds to the requests sent, and each request that it
    adds names that model; each request to the extraction chain hands over
    that resume. *)
Theorem requests_carry_model (w : world) :
  let w' := snd (process_file D svc w) in
  resume w' = resume w
  /\ model_name w' = model_name w
  /\ exists sent,
       calls w' = (calls w ++ sent)%list /\ Forall (carries w) sent.
Proof.
  assert (H0 : sent_from w w).
  { split; [reflexivity|]. split; [reflexivity|].
    exists []. now rewrite app_nil_r. }
  assert (E : ensures (sent_from w) any (process_file D svc)).
  { apply ensures_process_file with (V := fun _ => True);
      try (intros; exact Logic.I); try (intros; assumption).
    - intros q mode w1 H1. now apply sent_from_call.
    - intros target w1 H1. now apply sent_from_call.
    - intros n target input l _. apply Forall_forall. now intros. }
  exact (proj1 (E w H0)).
Qed.

Lemma unique_getitem (v : json) (k : string) (x : json) :
  unique_keys v = true -> getitem v k = Return x -> unique_keys x = true.
Proof.
  destruct v; try discriminate. cbn [getitem unique_keys].
  intros H. apply andb_prop in H as [_ H].
  induction fields as [|[k' v'] d IH]; cbn [Dict.get]; [discriminate|].
  cbn [forallb snd] in H. apply andb_prop in H as [Hv Hd].
  destruct (String.eqb k k'); [now intros [= <-] | now apply IH].
Qed.

Lemma unique_forall (l : list json) :
  Forall (fun v => unique_keys v = true) l <-> forallb unique_keys l = true.
Proof. now rewrite forallb_forall, Forall_forall. Qed.

Lemma process_file_unique (w : world) :
  well_formed D svc ->
  unique_keys (JObj (output w)) = true ->
  unique_keys (JObj (output (snd (process_file D svc w)))) = true.
Proof.
  intros (_ & Hemails & Hurls & Hchain) Hw.
  assert (E : ensures (fun w => unique_keys (JObj (output w)) = true) any
                (process_file D svc)).
  { apply ensures_process_file with (V := fun v => unique_keys v = true);
      try (intros; assumption).
    - intros k v w1 H1 Hv. now apply unique_keys_set.
    - intros strict text v. apply loads_unique.
    - exact unique_getitem.
    - intros v k x y Hv Hx. destruct v; try discriminate.
      cbn [setitem]. intros [= <-]. now apply unique_keys_set.
    - intros v x y Hv Hx. destruct v; try discriminate.
      cbn [py_append]. intros [= <-]. cbn [unique_keys] in *.
      rewrite forallb_app, Hv. cbn. now rewrite Hx.
    - reflexivity.
    - intros l Hl. now apply unique_forall.
    - intros n target input l Hl. apply unique_forall. eauto.
    - exact Hemails.
    - exact Hurls. }
  exact (proj1 (E w Hw)).
Qed.

Variable fs : files.

(** X16.  When the template, the values of the two extractors and the
    objects of the extraction chain hold dictionaries with distinct keys
    only, a run of the script that succeeds has constructed the manager,
    processed the file, written to the output path the JSON text of the
    manager's output and printed the same text; and decoding that text
    gives back the output. *)
Theorem main_output_reads_back (file_path model : string) :
  well_formed D svc ->
  status (main D svc fs file_path model) = Return tt ->
  exists w0 w,
    init D svc fs file_path model None = Return w0
    /\ process_file D svc w0 = (Return tt, w)
    /\ written (main D svc fs file_path model)
       = [(output_file_path fs file_path, PyJson.dumps (JObj (output w)))]
    /\ stdout (main D svc fs file_path model)
       = [PyJson.dumps (JObj (output w))]
    /\ sent (main D svc fs file_path model) = calls w
    /\ PyJson.loads true (PyJson.dumps (JObj (output w)))
       = Some (JObj (output w)).
Proof.
  intros Hwf. unfold main.
  destruct (init D svc fs file_path model None) as [w0 | e] eqn:Hinit;
    [|discriminate].
  pose proof (process_file_unique w0 Hwf) as Hu.
  destruct (process_file D svc w0) as [[[] | e] w] eqn:Hrun;
    [|discriminate].
  destruct (open_w fs (output_file_path fs file_path)); [|discriminate].
  intros _. exists w0, w. cbn [written stdout sent snd] in *.
  split; [reflexivity|]. split; [exact Hrun|].
  split; [reflexivity|]. split; [reflexivity|]. split; [reflexivity|].
  apply loads_dumps, Hu.
  unfold init in Hinit.
  destruct (get_resume_content fs file_path None); [|discriminate].
  destruct (chat_model svc model); [|discriminate].
  injection Hinit as <-. exact (proj1 Hwf).
Qed.

End Runs.

(** ** The work-experience fallback in every outcome *)

Section Partial.

Variable D : deps.
Variable svc : service.




(** X15.  The sections after basic info assign the keys of work
    experience, skills and education only: under every other key the
    output at the end of the run, however it ends, holds what the
    basic-info attempt left there. *)
Theorem basic_info_fields_final (w : world) (k : string) :
  ~ In k later_keys ->
  Dict.get k (output (snd (process_file D svc w)))
  = Dict.get k (output (snd (extract_basic_info D svc w))).
Proof.
  intros Hk. rewrite process_file_sections. unfold bind at 1.
  destruct (extract_basic_info D svc w) as [[[] | e] w1]; [|reflexivity].
  cbn [snd].
  set (W := fun k => In k later_keys).
  assert (Hblock : forall p f msg,
             incl (writes p) later_keys -> incl (writes f) later_keys ->
             keeps (same_elsewhere W) (section_block D svc p f msg)).
  { intros p f msg Hp Hf. unfold section_block.
    assert (Hinv : forall q, incl (writes q) later_keys ->
                             keeps (same_elsewhere W) (invoke D svc q)).
    { intros q Hq.
      exact (keeps_invoke (same_elsewhere W) W
               (fun _ _ _ => eq_refl) (same_elsewhere_trans W)
               (fun _ _ _ _ => eq_refl) (same_elsewhere_set W) D svc
               (fun _ _ _ _ => eq_refl) q Hq). }
    apply (keeps_try (same_elsewhere W) (same_elsewhere_trans W));
      [now apply Hinv|].
    apply (keeps_bind (same_elsewhere W) (same_elsewhere_trans W));
      [| intros _; now apply Hinv].
    intros w0 k0 _. reflexivity. }
  assert (Hrest : keeps (same_elsewhere W)
                    (section_block D svc ExtractWorkExperience
                       FallbackExtractWorkExperience
                       "Work extraction timed out" ;;
                     section_block D svc ExtractSkills
                       FallbackExtractSkills "Skills extraction timed out" ;;
                     section_block D svc ExtractEducation
                       FallbackExtractEducation
                       "Education extraction timed out")).
  { repeat (apply (keeps_bind (same_elsewhere W) (same_elsewhere_trans W));
            [| intros _]);
      apply Hblock; intros k0; cbn; tauto. }
  exact (Hrest w1 k Hk).
Qed.

End Partial.

(** ** The two decoders, and attempts that fail *)




Section Atomic.

Variable D : deps.
Variable svc : service.

(** X8.  The three primary attempts that have a fallback, the skills
    fallback and the education fallback assign nothing before they fail:
    when one of them raises, whatever the exception, the output is as it
    was before the call. *)
Theorem failed_attempt_leaves_output (p : proc) (w : world) (e : exn) :
  atomic p = true ->
  fst (invoke D svc p w) = Raise e ->
  output (snd (invoke D svc p w)) = output w.
Proof.
  intros Hp. rewrite invoke_method. unfold method.
  destruct p; try discriminate Hp; cbn [body_of];
    unfold extract_skills_body, fallback_extract_skills_body,
      extract_education_body, fallback_extract_education_body,
      extract_work_experience_body, bind, get_resume, query_model,
      extract_pydantic, json_loads, lift, output_set, ret, raise;
    cbn [add_event calls resume model_name output].
  - destruct (chain svc _ _ _); cbn; [discriminate | reflexivity].
  - destruct (chat svc _ _ _) as [reply|]; cbn; [|reflexivity].
    destruct (loads true reply) as [v|]; cbn; [|reflexivity].
    destruct v; cbn; try reflexivity.
    unfold Dict.mem.
    destruct (Dict.get "skills" fields); cbn; [|reflexivity].
    destruct (Dict.get "professional_development" fields); cbn;
      destruct (Dict.get "other" fields); cbn; discriminate.
  - destruct (chat svc _ _ _); cbn; [discriminate | reflexivity].
  - destruct (chain svc _ _ _); cbn; [discriminate | reflexivity].
  - destruct (chat svc _ _ _); cbn; [discriminate | reflexivity].
Qed.

End Atomic.

(** ** The characters of the output text *)

Lemma ascii_text_app (a b : string) :
  ascii_text (a ++ b) = ascii_text a && ascii_text b.
Proof.
  induction a as [|c a IH]; [reflexivity|].
  cbn [append ascii_text]. now rewrite IH, andb_assoc.
Qed.

Lemma escape_char_ascii (c : ascii) : ascii_text (escape_char c) = true.
Proof. each_char c; reflexivity. Qed.

Lemma encode_str_ascii (s : string) : ascii_text (encode_str s) = true.
Proof.
  unfold encode_str. cbn [ascii_text]. rewrite ascii_text_app.
  replace (ascii_text (escape s)) with true; [reflexivity|].
  induction s as [|c s IH]; [reflexivity|].
  cbn [escape]. now rewrite ascii_text_app, escape_char_ascii, <- IH.
Qed.

Lemma digit_char_ascii (m : N) :
  (m < 10)%N -> ascii_char (digit_char m) = true.
Proof.
  intros H. unfold ascii_char. rewrite digit_char_code by assumption.
  apply orb_true_intro. left.
  apply andb_true_intro. split; apply N.leb_le; lia.
Qed.

Lemma digits_ascii (f : nat) (n : N) : ascii_text (digits f n) = true.
Proof.
  revert n. induction f as [|f IH]; intros n; [reflexivity|].
  cbn [digits]. destruct (N.ltb_spec n 10).
  - cbn [ascii_text]. now rewrite digit_char_ascii.
  - rewrite ascii_text_app, IH. cbn [ascii_text].
    rewrite digit_char_ascii; [reflexivity|].
    apply N.mod_lt. discriminate.
Qed.

Lemma str_Z_ascii (z : Z) : ascii_text (str_Z z) = true.
Proof.
  destruct z; cbn [str_Z]; [reflexivity | apply digits_ascii |].
  cbn [ascii_text]. unfold str_N. now rewrite digits_ascii.
Qed.

Lemma newline_indent_ascii (level : nat) :
  ascii_text (newline_indent level) = true.
Proof.
  unfold newline_indent. cbn [ascii_text].
  induction (2 * level) as [|n IH]; [reflexivity | exact IH].
Qed.

Lemma dump_ascii (v : json) : forall level, ascii_text (dump level v) = true.
Proof.
  induction v as [|b|n|s|items IH|fields IH] using json_nested_ind;
    intros level.
  - reflexivity.
  - now destruct b.
  - apply str_Z_ascii.
  - apply encode_str_ascii.
  - destruct items as [|x r]; [reflexivity|].
    rewrite dump_arr. inversion IH as [|? ? Hx Hr]; subst.
    rewrite !ascii_text_app, !newline_indent_ascii, Hx.
    replace (ascii_text (more_items level r)) with true; [reflexivity|].
    clear Hx IH. induction Hr as [|y r Hy _ IHr]; [reflexivity|].
    cbn [more_items]. fold (more_items level r).
    now rewrite !ascii_text_app, newline_indent_ascii, Hy, <- IHr.
  - destruct fields as [|[k x] r]; [reflexivity|].
    rewrite dump_obj. inversion IH as [|? ? Hx Hr]; subst.
    cbn [snd] in Hx.
    rewrite !ascii_text_app, !newline_indent_ascii, encode_str_ascii, Hx.
    replace (ascii_text (more_fields level r)) with true; [reflexivity|].
    clear Hx IH. induction Hr as [|[k' y] r Hy _ IHr]; [reflexivity|].
    cbn [more_fields]. fold (more_fields level r). cbn [snd] in Hy.
    now rewrite !ascii_text_app, newline_indent_ascii, encode_str_ascii,
      Hy, <- IHr.
Qed.

Section Printed.

Variable D : deps.
Variable svc : service.
Variable fs : files.

(** X17.  Whatever the run, the text that the script writes to the
    output file and prints consists of printable ASCII characters and line
    feeds only. *)
Theorem output_text_ascii (file_path model : string) :
  let r := main D svc fs file_path model in
  Forall (fun file => ascii_text (snd file) = true) (written r)
  /\ Forall (fun text => ascii_text text = true) (stdout r).
Proof.
  cbv zeta. unfold main.
  destruct (init D svc fs file_path model None) as [w0|]; [|now split].
  destruct (process_file D svc w0) as [[[] |] w]; [|now split].
  destruct (open_w fs _); [|now split].
  cbn [written stdout]. unfold dumps.
  split; repeat constructor; apply dump_ascii.
Qed.

End Printed.

(** ** The extension of a path *)

Lemma occurs_app (c : ascii) (a b : string) :
  occurs c (a ++ b) = occurs c a || occurs c b.
Proof.
  induction a as [|d a IH]; [reflexivity|].
  cbn [append occurs]. now rewrite IH, orb_assoc.
Qed.

Lemma rfind_from_last (c : ascii) (a b : string) (i last : Z) :
  occurs c b = false ->
  PyStr.rfind_from c (a ++ String c b) i last
  = (i + Z.of_nat (String.length a))%Z.
Proof.
  intros Hb. revert i last.
  induction a as [|d a IH]; intros i last; cbn [append PyStr.rfind_from].
  - rewrite Ascii.eqb_refl, rfind_from_absent by exact Hb. cbn. lia.
  - rewrite IH. cbn [String.length]. lia.
Qed.

Lemma substring_at (a : string) (c : ascii) (r : string) :
  substring (String.length a) 1 (a ++ String c r) = String c EmptyString.
Proof.
  induction a as [|d a IH]; cbn [append String.length substring].
  - now destruct r.
  - exact IH.
Qed.

Lemma substring_all (b : string) : substring 0 (String.length b) b = b.
Proof. induction b as [|c b IH]; cbn; [reflexivity | now rewrite IH]. Qed.

Lemma substring_drop (a b : string) :
  substring (String.length a) (String.length (a ++ b) - String.length a)
    (a ++ b) = b.
Proof.
  induction a as [|d a IH]; cbn [append String.length substring].
  - rewrite Nat.sub_0_r. apply substring_all.
  - exact IH.
Qed.

Lemma has_non_dot_dots (pre dots rest : string) (steps : nat) :
  only_dots dots = true ->
  steps <= String.length dots ->
  PyStr.has_non_dot (pre ++ dots ++ rest)
    (Z.of_nat (String.length pre)) steps = false.
Proof.
  revert pre dots. induction steps as [|k IH]; intros pre dots Hd Hle;
    [reflexivity|].
  destruct dots as [|c dots]; [cbn in Hle; lia|].
  cbn [only_dots] in Hd. apply andb_prop in Hd as [Hc Hd].
  apply Ascii.eqb_eq in Hc. subst c.
  cbn [PyStr.has_non_dot]. unfold PyStr.char_at. rewrite Nat2Z.id.
  cbn [append]. rewrite substring_at. cbn [String.eqb Ascii.eqb negb].
  change (String.eqb "." ".") with true. cbv iota. cbn [negb].
  replace (pre ++ String "." (dots ++ rest))
    with ((pre ++ ".") ++ dots ++ rest)
    by (rewrite append_assoc; reflexivity).
  replace (Z.of_nat (String.length pre) + 1)%Z
    with (Z.of_nat (String.length (pre ++ ".")))
    by (rewrite length_append; cbn; lia).
  apply IH; [exact Hd | cbn in Hle; lia].
Qed.

Lemma has_non_dot_found (pre name rest : string) (steps : nat) :
  only_dots name = false ->
  String.length name <= steps ->
  PyStr.has_non_dot (pre ++ name ++ rest)
    (Z.of_nat (String.length pre)) steps = true.
Proof.
  revert pre steps. induction name as [|c name IH]; intros pre steps Hn Hle;
    [discriminate Hn|].
  destruct steps as [|k]; [cbn in Hle; lia|].
  cbn [PyStr.has_non_dot]. unfold PyStr.char_at. rewrite Nat2Z.id.
  cbn [append]. rewrite substring_at.
  cbn [only_dots] in Hn.
  destruct (Ascii.eqb c ".") eqn:Hc.
  - apply Ascii.eqb_eq in Hc. subst c.
    change (String.eqb "." ".") with true. cbn [negb].
    replace (pre ++ String "." (name ++ rest))
      with ((pre ++ ".") ++ name ++ rest)
      by (rewrite append_assoc; reflexivity).
    replace (Z.of_nat (String.length pre) + 1)%Z
      with (Z.of_nat (String.length (pre ++ ".")))
      by (rewrite length_append; cbn; lia).
    apply IH; [exact Hn | cbn in Hle; lia].
  - cbn [String.eqb]. now rewrite Hc.
Qed.

Lemma rfind_sep (dir tail : string) :
  dir_prefix dir -> occurs "/" tail = false ->
  (PyStr.rfind "/" (dir ++ tail) + 1)%Z = Z.of_nat (String.length dir).
Proof.
  intros [-> | [d ->]] Ht; unfold PyStr.rfind.
  - cbn [append]. now rewrite rfind_from_absent.
  - rewrite append_assoc. cbn [append].
    rewrite rfind_from_last by exact Ht.
    rewrite length_append. cbn. lia.
Qed.

Section Extension.

Variable fs : files.

(** X4.  For a path whose last component is a name followed by a dot and
    a text with neither dot nor slash, the extension taken from the path is
    that dot and text, unless the name is empty or made of dots only: then
    the path has no extension, and the loader exits with the
    unsupported-format message. *)
Theorem path_extension (dir name e : string) :
  dir_prefix dir ->
  occurs "/" name = false ->
  occurs "." e = false -> occurs "/" e = false ->
  let path := dir ++ name ++ "." ++ e in
  effective_extension path None
  = (if only_dots name then EmptyString else "." ++ e)
  /\ (only_dots name = true ->
      get_resume_content fs path None
      = Raise (SystemExit "Unsupported file type ")).
Proof.
  intros Hdir Hname Hdot Hsep path.
  assert (Hext : effective_extension path None
                 = if only_dots name then EmptyString else "." ++ e).
  { unfold effective_extension, PyStr.splitext_ext.
    assert (Hs : (PyStr.rfind "/" path + 1)%Z
                 = Z.of_nat (String.length dir)).
    { apply rfind_sep; [exact Hdir|].
      rewrite occurs_app, Hname. cbn [append occurs orb].
      exact Hsep. }
    assert (Hd : PyStr.rfind "." path
                 = Z.of_nat (String.length (dir ++ name))).
    { unfold PyStr.rfind, path. rewrite <- append_assoc.
      cbn [append]. rewrite rfind_from_last by exact Hdot. lia. }
    rewrite Hd, Hs.
    assert (Hlt : (PyStr.rfind "/" path
                   <? Z.of_nat (String.length (dir ++ name)))%Z = true).
    { apply Z.ltb_lt. rewrite length_append. lia. }
    rewrite Hlt.
    replace (Z.to_nat (Z.of_nat (String.length (dir ++ name))
                       - Z.of_nat (String.length dir)))
      with (String.length name) by (rewrite length_append; lia).
    destruct (only_dots name) eqn:Hn.
    - unfold path. now rewrite has_non_dot_dots.
    - unfold path. rewrite has_non_dot_found by (auto; lia).
      unfold PyStr.drop. rewrite Nat2Z.id.
      rewrite <- append_assoc. apply substring_drop. }
  split; [exact Hext|].
  intros Hn. unfold get_resume_content. rewrite Hext, Hn. reflexivity.
Qed.

End Extension.

(** ** The kind of value that a fallback leaves *)

Section Kinds.

Variable D : deps.
Variable svc : service.

Lemma block_returns (p f : proc) (msg : string) (w w' : world) :
  section_block D svc p f msg w = (Return tt, w') ->
  (invoke D svc p w = (Return tt, w')
   /\ trace w' = (trace w ++ [Enter p; Leave p (Return tt)])%list)
  \/ (exists w1,
        invoke D svc p w = (Raise APITimeoutError, w1)
        /\ invoke D svc f (add_warning msg w1) = (Return tt, w')
        /\ trace w'
           = (trace w ++ [Enter p; Leave p (Raise APITimeoutError);
                          Enter f; Leave f (Return tt)])%list).
Proof.
  unfold section_block, try_except, bind, warning.
  pose proof (invoke_trace D svc p w) as T.
  destruct (invoke D svc p w) as [[[] | e] w1]; cbn [fst snd] in T.
  - intros [= <-]. now left.
  - destruct e; cbn [is_timeout]; try discriminate.
    pose proof (invoke_trace D svc f (add_warning msg w1)) as T2.
    destruct (invoke D svc f (add_warning msg w1)) as [r w2] eqn:E2.
    cbn [fst snd add_warning trace] in T2.
    intros [= -> <-]. right. exists w1.
    split; [reflexivity|]. split; [exact E2|].
    now rewrite T2, T, <- app_assoc.
Qed.

Lemma education_set (p : proc) (w w' : world) :
  p = ExtractEducation \/ p = FallbackExtractEducation ->
  invoke D svc p w = (Return tt, w') ->
  if proc_eqb p ExtractEducation
  then is_list (Dict.get "education" (output w'))
  else is_text (Dict.get "education" (output w')).
Proof.
  intros [-> | ->]; cbn [invoke proc_eqb];
    unfold extract_education, fallback_extract_education, method,
      extract_education_body, fallback_extract_education_body, bind,
      get_resume, query_model, extract_pydantic, output_set.
  - destruct (chain svc _ _ _); [|discriminate].
    intros [= <-]. cbn [add_event set_output add_call output].
    now rewrite get_set_same.
  - destruct (chat svc _ _ _); [|discriminate].
    intros [= <-]. cbn [add_event set_output add_call output].
    now rewrite get_set_same.
Qed.

Lemma skills_text (w w' : world) :
  invoke D svc FallbackExtractSkills w = (Return tt, w') ->
  is_text (Dict.get "skills" (output w')).
Proof.
  cbn [invoke].
  unfold fallback_extract_skills, method, fallback_extract_skills_body,
    bind, get_resume, query_model, output_set.
  destruct (chat svc _ _ _); [|discriminate].
  intros [= <-]. cbn [add_event set_output add_call output].
  now rewrite get_set_same.
Qed.

(** X18.  In a run that returns, the value under [education] is a JSON
    string when the education fallback was entered and a JSON list when it
    was not; and the value under [skills] is a JSON string when the skills
    fallback was entered. *)
Theorem fallback_changes_kind (w : world) :
  fst (process_file D svc w) = Return tt ->
  let w' := snd (process_file D svc w) in
  exists t,
    trace w' = (trace w ++ t)%list
    /\ (if existsb (proc_eqb FallbackExtractEducation) (entered t)
        then is_text (Dict.get "education" (output w'))
        else is_list (Dict.get "education" (output w')))
    /\ (existsb (proc_eqb FallbackExtractSkills) (entered t) = true ->
        is_text (Dict.get "skills" (output w'))).
Proof.
  intros Hret. cbv zeta.
  destruct (process_file D svc w) as [r w'] eqn:Hrun.
  cbn [fst snd] in *. subst r.
  rewrite process_file_sections in Hrun.
  apply bind_return in Hrun as ([] & w1 & H0 & Hrun).
  apply bind_return in Hrun as ([] & w2 & H1 & Hrun).
  apply bind_return in Hrun as ([] & w3 & H2 & H3).
  pose proof (invoke_trace D svc ExtractBasicInfo w) as T0.
  cbn [invoke] in T0. rewrite H0 in T0. cbn [fst snd] in T0.
  assert (Hkeep : forall p w4,
             p = ExtractEducation \/ p = FallbackExtractEducation ->
             Dict.get "skills" (output (snd (invoke D svc p w4)))
             = Dict.get "skills" (output w4)).
  { intros p w4 Hp. apply (invoke_same_elsewhere D svc p w4).
    destruct Hp as [-> | ->]; cbn; intros [H | []]; discriminate H. }
  apply block_returns in H1 as [[_ T1] | (w1' & _ & _ & T1)];
    apply block_returns in H2 as [[_ T2] | (w2' & _ & Hs & T2)];
    apply block_returns in H3 as [[He T3] | (w3' & Hp & He & T3)];
    (eexists; split;
     [ rewrite T3, T2, T1, T0; rewrite <- !app_assoc; reflexivity |]);
    cbn [app entered existsb proc_eqb orb];
    (split;
     [ first [ exact (education_set ExtractEducation _ _
                        (or_introl eq_refl) He)
             | exact (education_set FallbackExtractEducation _ _
                        (or_intror eq_refl) He) ]
     | try discriminate; intros _ ]).
  - apply skills_text in Hs.
    pose proof (Hkeep ExtractEducation w3 (or_introl eq_refl)) as K.
    rewrite He in K. cbn [snd] in K. now rewrite K.
  - apply skills_text in Hs.
    pose proof (Hkeep ExtractEducation w3 (or_introl eq_refl)) as K1.
    rewrite Hp in K1. cbn [snd] in K1.
    pose proof (Hkeep FallbackExtractEducation
                  (add_warning "Education extraction timed out" w3')
                  (or_intror eq_refl)) as K2.
    rewrite He in K2. cbn [snd add_warning output] in K2.
    now rewrite K2, K1.
  - apply skills_text in Hs.
    pose proof (Hkeep ExtractEducation w3 (or_introl eq_refl)) as K.
    rewrite He in K. cbn [snd] in K. now rewrite K.
  - apply skills_text in Hs.
    pose proof (Hkeep ExtractEducation w3 (or_introl eq_refl)) as K1.
    rewrite Hp in K1. cbn [snd] in K1.
    pose proof (Hkeep FallbackExtractEducation
                  (add_warning "Education extraction timed out" w3')
                  (or_intror eq_refl)) as K2.
    rewrite He in K2. cbn [snd add_warning output] in K2.
    now rewrite K2, K1.
Qed.

End Kinds.

(** ** A run without time-out *)

Section CleanRun.

Variable D : deps.
Variable svc : service.





End CleanRun.

(** ** A file without text *)

Lemma rstrip_blank (s : string) :
  blank s = true -> PyStr.rstrip s = EmptyString.
Proof.
  induction s as [|c s IH]; [reflexivity|].
  cbn [blank]. intros H. apply andb_prop in H as [Hc Hs].
  rewrite rstrip_empty_tail, (IH Hs). now rewrite Hc.
Qed.

Lemma split_blank (sep : ascii) (s : string) :
  blank s = true ->
  Forall (fun line => blank line = true) (PyStr.split sep s).
Proof.
  induction s as [|c s IH]; cbn [blank PyStr.split].
  - intros _. now repeat constructor.
  - intros H. apply andb_prop in H as [Hc Hs]. specialize (IH Hs).
    destruct (Ascii.eqb c sep); [now constructor|].
    destruct (PyStr.split sep s) as [|h t].
    + constructor; [cbn; now rewrite Hc | constructor].
    + inversion IH as [|? ? Hh Ht]; subst.
      constructor; [cbn; now rewrite Hc, Hh | exact Ht].
Qed.

Lemma kept_lines_blank (text : string) :
  blank text = true -> kept_lines text = [].
Proof.
  intros H. unfold kept_lines.
  pose proof (split_blank "010" text H) as Hl.
  induction Hl as [|line lines Hline _ IH]; [reflexivity|].
  cbn [map filter]. now rewrite (rstrip_blank line Hline).
Qed.

Section BlankInput.

Variable D : deps.
Variable svc : service.
Variable fs : files.

(** X20.  A PDF file whose pages hold white space only, or that has no
    page, loads as the empty text, and the manager is constructed on it all
    the same: nothing rejects an empty resume. *)
Theorem blank_pdf_empty_resume (file model : string)
  (extension : option string) (pages : list string) :
  effective_extension file extension = ".pdf" ->
  pdf_pages fs file = Return pages ->
  Forall (fun page => blank page = true) pages ->
  chat_model svc model = Return tt ->
  get_resume_content fs file extension = Return EmptyString
  /\ init D svc fs file model extension
     = Return (mkWorld (output_template D) EmptyString model [] [] []).
Proof.
  intros Hext Hpages Hblank Hmodel.
  assert (Hload : get_resume_content fs file extension = Return EmptyString).
  { unfold get_resume_content. rewrite Hext, Hpages. cbn.
    rewrite fold_pdf_pages. cbn [append]. f_equal. clear Hpages.
    induction Hblank as [|page rest Hpage _ IH]; [reflexivity|].
    cbn [map join fold_right]. fold (join (map page_text rest)).
    rewrite IH. unfold page_text.
    rewrite (kept_lines_blank page Hpage). reflexivity. }
  assert (Hinit : init D svc fs file model extension
                  = Return (mkWorld (output_template D) EmptyString model
                              [] [] [])).
  { unfold init. now rewrite Hload, Hmodel. }
  split; [exact Hload | exact Hinit].
Qed.

End BlankInput.

(** ** The further properties at concrete inputs *)

(** X1 on the two-page PDF of the stub file system. *)
Lemma pdf_text_lines_witness :
  (effective_extension "cv.pdf" None = ".pdf"
   /\ pdf_pages Stub.fs0 "cv.pdf"
      = Return [ "Jane Doe  " ++ String "010" ("   " ++ String "010"
                   "  Engineer");
                 "Python, SQL" ])
  /\ exists content,
       get_resume_content Stub.fs0 "cv.pdf" None = Return content
       /\ PyStr.split "010" content
          = ["Jane Doe"; "  Engineer"; "Python, SQL"; EmptyString]
       /\ add_pdf_page EmptyString content = content.
Proof.
  split; [split; reflexivity|].
  destruct (pdf_text_lines Stub.fs0 "cv.pdf" None _ eq_refl eq_refl)
    as (content & Hload & Hsplit & _ & Hfix).
  exists content. split; [exact Hload|]. split; [exact Hsplit | exact Hfix].
Defined.

(** X2 on the DOCX file of the stub file system, which has an empty
    paragraph. *)
Lemma docx_text_paragraphs_witness :
  (effective_extension "cv.docx" None = ".docx"
   /\ docx_paragraphs Stub.fs0 "cv.docx"
      = Return ["Jane Doe"; EmptyString; "Engineer"]
   /\ Forall (fun text => occurs "010" text = false)
        ["Jane Doe"; EmptyString; "Engineer"])
  /\ exists content,
       get_resume_content Stub.fs0 "cv.docx" None = Return content
       /\ PyStr.split "010" content
          = ["Jane Doe"; EmptyString; "Engineer"; EmptyString].
Proof.
  assert (H : Forall (fun text => occurs "010" text = false)
                ["Jane Doe"; EmptyString; "Engineer"])
    by (repeat constructor).
  split; [split; [reflexivity | split; [reflexivity | exact H]]|].
  exact (docx_text_paragraphs Stub.fs0 "cv.docx" None _
           (or_introl eq_refl) eq_refl H).
Defined.

(** X3 on a path with no dot. *)
Lemma path_without_dot_exits_witness :
  occurs "." "docs/resume" = false
  /\ get_resume_content Stub.fs0 "docs/resume" None
     = Raise (SystemExit "Unsupported file type ").
Proof.
  split; [reflexivity|].
  exact (proj1 (path_without_dot_exits Stub.fs0 "docs/resume" eq_refl)).
Defined.

(** X4 on a hidden file in a directory: the extension is found; and on a
    file whose name is an extension only: it has none. *)
Lemma path_extension_witness :
  (dir_prefix "docs/" /\ occurs "/" ".cv" = false
   /\ occurs "." "pdf" = false /\ occurs "/" "pdf" = false)
  /\ effective_extension "docs/.cv.pdf" None = ".pdf".
Proof.
  assert (H : dir_prefix "docs/") by (right; now exists "docs").
  split; [repeat split; [exact H | reflexivity ..]|].
  exact (proj1 (path_extension Stub.fs0 "docs/" ".cv" "pdf" H
                  eq_refl eq_refl eq_refl)).
Defined.




(** X8 on a skills reply without the key [skills]. *)
Lemma failed_attempt_leaves_output_witness :
  (atomic ExtractSkills = true
   /\ fst (invoke Stub.deps0 (Stub.always "{}") ExtractSkills
             (Stub.fresh "Jane")) = Raise (KeyError "skills"))
  /\ output (snd (invoke Stub.deps0 (Stub.always "{}") ExtractSkills
                    (Stub.fresh "Jane")))
     = spec_output_template.
Proof.
  split; [split; reflexivity|].
  exact (failed_attempt_leaves_output Stub.deps0 (Stub.always "{}")
           ExtractSkills (Stub.fresh "Jane") (KeyError "skills")
           eq_refl eq_refl).
Defined.


(** X15 on the candidate name of a run in which the chain times out. *)
Lemma basic_info_fields_final_witness :
  ~ In "candidate_name" later_keys
  /\ Dict.get "candidate_name"
       (output (snd (process_file Stub.deps0 Stub.chain_down
                       (Stub.fresh "Jane"))))
     = Dict.get "candidate_name"
         (output (snd (extract_basic_info Stub.deps0 Stub.chain_down
                         (Stub.fresh "Jane")))).
Proof.
  assert (H : ~ In "candidate_name" later_keys).
  { cbn. intros H.
    repeat (destruct H as [H | H]; [discriminate H|]). exact H. }
  split; [exact H|].
  exact (basic_info_fields_final Stub.deps0 Stub.chain_down
           (Stub.fresh "Jane") "candidate_name" H).
Defined.

(** The prompts, the extractors and the template of the stub, with the
    service of the end-to-end scenario, are well formed. *)
Lemma scenario_well_formed : well_formed Stub.deps0 Stub.scenario.
Proof.
  split; [reflexivity|]. split; [now intros|]. split; [now intros|].
  intros n target input l [= <-]. reflexivity.
Defined.

(** X16 on the end-to-end scenario, from the PDF of the stub file
    system. *)
Lemma main_output_reads_back_witness :
  (well_formed Stub.deps0 Stub.scenario
   /\ status (main Stub.deps0 Stub.scenario Stub.fs0 "cv.pdf" "m")
      = Return tt)
  /\ exists w,
       written (main Stub.deps0 Stub.scenario Stub.fs0 "cv.pdf" "m")
       = [(output_file_path Stub.fs0 "cv.pdf",
           PyJson.dumps (JObj (output w)))]
       /\ PyJson.loads true (PyJson.dumps (JObj (output w)))
          = Some (JObj (output w)).
Proof.
  split; [split; [exact scenario_well_formed | reflexivity]|].
  destruct (main_output_reads_back Stub.deps0 Stub.scenario Stub.fs0
              "cv.pdf" "m" scenario_well_formed eq_refl)
    as (w0 & w & _ & _ & Hw & _ & _ & Hl).
  exists w. split; [exact Hw | exact Hl].
Defined.

(** X20 on a PDF with one page of spaces and line feeds and one empty
    page. *)
Lemma blank_pdf_empty_resume_witness :
  let fs := mkFiles (fun _ => Return [Sample.blank_page; EmptyString])
              (fun _ => Return []) (fun p => p) (fun _ => Return tt) in
  (effective_extension "cv.pdf" None = ".pdf"
   /\ pdf_pages fs "cv.pdf" = Return [Sample.blank_page; EmptyString]
   /\ Forall (fun page => blank page = true)
        [Sample.blank_page; EmptyString]
   /\ chat_model Stub.down "m" = Return tt)
  /\ get_resume_content fs "cv.pdf" None = Return EmptyString.
Proof.
  cbv zeta.
  assert (H : Forall (fun page => blank page = true)
                [Sample.blank_page; EmptyString])
    by (repeat constructor).
  split; [repeat split; [exact H]|].
  exact (proj1 (blank_pdf_empty_resume Stub.deps0 Stub.down
                  (mkFiles (fun _ => Return [Sample.blank_page; EmptyString])
                     (fun _ => Return []) (fun p => p)
                     (fun _ => Return tt))
                  "cv.pdf" "m" None _ eq_refl eq_refl H eq_refl)).
Defined.

(** X18 on the run in which the chain times out: the education fallback
    ran, and the education is a text. *)
Lemma fallback_changes_kind_witness :
  fst (process_file Stub.deps0 Stub.chain_down (Stub.fresh "Jane"))
  = Return tt
  /\ is_text (Dict.get "education"
                (output (snd (process_file Stub.deps0 Stub.chain_down
                                (Stub.fresh "Jane")))))
  /\ is_list (Dict.get "skills"
                (output (snd (process_file Stub.deps0 Stub.chain_down
                                (Stub.fresh "Jane"))))).
Proof.
  split; [reflexivity|].
  destruct (fallback_changes_kind Stub.deps0 Stub.chain_down
              (Stub.fresh "Jane") eq_refl) as (t & Ht & He & _).
  cbn [Stub.fresh trace app] in Ht. rewrite <- Ht in He.
  split; [exact He | exact I].
Defined.

